(** * OgreMeshNormalFixes: the OBJ exporter and the normal recalculation pass

    A shallow embedding of [MeshToObj.py] (class [OgreXMLToOBJ]) and of
    [recalculate_normals.py], with the properties of their specification
    stated and settled against it.

    Python floats are IEEE binary64 numbers: they are the kernel's primitive
    floats.  Python ints are [Z].  An ElementTree element is a tag, an
    attribute dictionary, its text and tail, and the list of its children.
    The builtins [float()], [int()] on strings and the [.6f] format are
    taken as an interface ([PyBuiltins]), together with the allocator's
    answer to [[None] * n]; a concrete instance, exact on plain decimal
    literals, is used to run the code on examples.  Whether [tree.write]
    returns is the interface [PyFiles]. *)

From Stdlib Require Import ZArith String Ascii List Floats Lia Bool DecimalString.
From stdpp Require Import base list gmap strings.

Set Warnings "-inexact-float".
Local Open Scope Z_scope.

(** ** Python: exceptions, builtins *)

Module Py.

Inductive exn := ValueError | TypeError | IndexError | OverflowError | MemoryError.

(** A computation that returns or raises. *)
Inductive res (A : Type) : Type :=
| Ok (a : A)
| Raise (e : exn).
Arguments Ok {A} a.
Arguments Raise {A} e.

Definition bind {A B} (m : res A) (k : A -> res B) : res B :=
  match m with
  | Ok a => k a
  | Raise e => Raise e
  end.

#[export] Instance res_ret : MRet res := @Ok.
#[export] Instance res_bind : MBind res := fun A B k m => bind m k.

(** The builtins whose code is not part of the repository. [py_float s] and
    [py_int s] are [float(s)] and [int(s)] on a string, [None] standing for
    [ValueError]; [format_6f x] is [f"{x:.6f}"]; [allocates n] is whether
    the allocator grants the lists of [n] slots the code asks for, for an
    [n > 0] that fits an index-sized integer. *)
Class PyBuiltins := {
  py_float : string -> option float;
  py_int : string -> option Z;
  format_6f : float -> string;
  allocates : Z -> bool
}.

Definition of_option {A} (e : exn) (o : option A) : res A :=
  match o with
  | Some a => Ok a
  | None => Raise e
  end.

(** [str.lower()], on the ASCII letters (no other character lowers to one of
    the letters of ['true'], the only word the sources compare with). *)
Definition lower_ascii (c : ascii) : ascii :=
  let n := nat_of_ascii c in
  if ((65 <=? n)%nat && (n <=? 90)%nat)%bool then ascii_of_nat (n + 32) else c.

Fixpoint lower (s : string) : string :=
  match s with
  | EmptyString => EmptyString
  | String c s' => String (lower_ascii c) (lower s')
  end.

(** [str(n)] of an int. *)
Definition str_int (n : Z) : string := NilZero.string_of_int (Z.to_int n).

(** [float(n)] of an int (exact below 2^53, to nearest otherwise; ints beyond
    the 63-bit range do not occur as list lengths). *)
Definition float_of_nat (n : nat) : float :=
  PrimFloat.of_uint63 (Uint63.of_Z (Z.of_nat n)).

(** [[x] * n]: an [n] that does not fit an index-sized integer is an
    [OverflowError], an [n] that is not positive gives the empty list, and a
    list the allocator does not grant is a [MemoryError]. *)
Definition list_repeat `{PyBuiltins} {A} (x : A) (n : Z) : res (list A) :=
  if (n <? - 2 ^ 63) || (2 ^ 63 <=? n) then Raise OverflowError
  else if n <=? 0 then Ok []
  else if allocates n then Ok (replicate (Z.to_nat n) x)
  else Raise MemoryError.

(** [l[i]] with Python's negative indexing. *)
Definition getitem {A} (l : list A) (i : Z) : res A :=
  let n := Z.of_nat (length l) in
  if (0 <=? i) && (i <? n) then of_option IndexError (l !! Z.to_nat i)
  else if (- n <=? i) && (i <? 0) then of_option IndexError (l !! Z.to_nat (n + i))
  else Raise IndexError.

(** The position [l[i]] names, when it names one. *)
Definition norm_index {A} (l : list A) (i : Z) : option nat :=
  let n := Z.of_nat (length l) in
  if (0 <=? i) && (i <? n) then Some (Z.to_nat i)
  else if (- n <=? i) && (i <? 0) then Some (Z.to_nat (n + i))
  else None.

End Py.
Export Py.

(** ** xml.etree.ElementTree *)

Module ET.

#[warnings="-register-all"]
Inductive Element : Type :=
  Elem (tag : string) (attrib : gmap string string)
       (text tail : option string) (children : list Element).

Definition tag (e : Element) : string :=
  match e with Elem t _ _ _ _ => t end.
Definition attrib (e : Element) : gmap string string :=
  match e with Elem _ a _ _ _ => a end.
Definition text (e : Element) : option string :=
  match e with Elem _ _ x _ _ => x end.
Definition tail (e : Element) : option string :=
  match e with Elem _ _ _ x _ => x end.
Definition children (e : Element) : list Element :=
  match e with Elem _ _ _ _ cs => cs end.

(** [e.get(k)] and [e.get(k, d)] for a string default. *)
Definition get (e : Element) (k : string) : option string := attrib e !! k.
Definition get_default (e : Element) (k d : string) : string :=
  default d (get e k).

(** [e.set(k, v)] *)
Definition set (k v : string) (e : Element) : Element :=
  match e with
  | Elem t a x y cs => Elem t (<[k := v]> a) x y cs
  end.

Definition has_tag (t : string) (e : Element) : bool := String.eqb (tag e) t.

(** [e.findall(t)] and [e.find(t)] for a plain tag: direct children. *)
Definition findall (e : Element) (t : string) : list Element :=
  List.filter (has_tag t) (children e).
Definition find (e : Element) (t : string) : option Element :=
  List.find (has_tag t) (children e).

(** [ET.SubElement(parent, t)]: a fresh element appended to the children;
    here the parent after the call. *)
Definition fresh (t : string) : Element := Elem t ∅ None None [].
Definition SubElement (parent : Element) (t : string) : Element :=
  match parent with
  | Elem pt a x y cs => Elem pt a x y (cs ++ [fresh t])
  end.

(** An element reference inside a tree that is mutated in place: the child
    indices leading to it.  The passes below only set attributes and append
    children, so a reference keeps naming the same element. *)
Definition path := list nat.

Fixpoint subtree (e : Element) (p : path) : option Element :=
  match p with
  | [] => Some e
  | i :: p' =>
      match children e !! i with
      | Some c => subtree c p'
      | None => None
      end
  end.

(** Mutation of the element a reference names. *)
Fixpoint update_at (p : path) (f : Element -> Element) (e : Element) : Element :=
  match p with
  | [] => f e
  | i :: p' =>
      match e with
      | Elem t a x y cs =>
          Elem t a x y
            (match cs !! i with
             | Some c => <[i := update_at p' f c]> cs
             | None => cs
             end)
      end
  end.

(** [e.iter()] without [e] itself: the proper descendants in document order. *)
Fixpoint iter_paths (e : Element) : list path :=
  match e with
  | Elem _ _ _ _ cs =>
      (fix go (i : nat) (l : list Element) : list path :=
         match l with
         | [] => []
         | c :: l' => ([i] :: List.map (cons i) (iter_paths c)) ++ go (S i) l'
         end) 0%nat cs
  end.

Definition tag_at (e : Element) (t : string) (p : path) : bool :=
  match subtree e p with
  | Some d => has_tag t d
  | None => false
  end.

(** [e.findall('.//t')] and [e.find('.//t')], as references. *)
Definition findall_desc (e : Element) (t : string) : list path :=
  List.filter (tag_at e t) (iter_paths e).
Definition find_desc (e : Element) (t : string) : option path :=
  head (findall_desc e t).

(** The positions of the children with tag [t]. *)
Fixpoint child_indices (t : string) (i : nat) (cs : list Element) : list nat :=
  match cs with
  | [] => []
  | c :: cs' =>
      if has_tag t c then i :: child_indices t (S i) cs'
      else child_indices t (S i) cs'
  end.

(** [e.find('.//t/u')]: the children tagged [u] of the descendants tagged [t]. *)
Definition find_desc_child (e : Element) (t u : string) : option path :=
  head (List.concat
          (List.map
             (fun p =>
                match subtree e p with
                | Some d => List.map (fun i => p ++ [i]) (child_indices u 0 (children d))
                | None => []
                end)
             (findall_desc e t))).

(** [tree.write(path, encoding='utf-8', xml_declaration=True)], whose code
    is not part of the repository: it returns with the tree serialized into
    the file, or raises before the file is opened for writing, or raises
    after, while it serializes, and leaves what it wrote so far. *)
Inductive WriteResult := Wrote | NotOpened | Interrupted.

Class PyFiles := {
  tree_write : Element -> WriteResult
}.

Section Attributes.
Context `{PyBuiltins}.

(** [float(e.get(k, 0))] *)
Definition float_attr (e : Element) (k : string) : res float :=
  match get e k with
  | Some s => of_option ValueError (py_float s)
  | None => Ok 0%float
  end.

(** [int(e.get(k))]: [int(None)] is a [TypeError]. *)
Definition int_attr (e : Element) (k : string) : res Z :=
  match get e k with
  | Some s => of_option ValueError (py_int s)
  | None => Raise TypeError
  end.

(** [int(e.get(k, 0))] *)
Definition int_attr0 (e : Element) (k : string) : res Z :=
  match get e k with
  | Some s => of_option ValueError (py_int s)
  | None => Ok 0
  end.

End Attributes.

End ET.
Export ET.

(** ** MeshToObj.py: class OgreXMLToOBJ *)

Module MeshToObj.

Definition vec3 : Type := float * float * float.
Definition vec2 : Type := float * float.

(** One entry of [self.submeshes]. *)
Record Submesh := {
  material : string;
  faces : list (Z * Z * Z);
  index : nat
}.

(** The converter object: the global sequences of [__init__]. *)
Record OgreXMLToOBJ := {
  vertices : list vec3;
  normals : list vec3;
  uvs : list vec2;
  submeshes : list Submesh
}.

Definition init : OgreXMLToOBJ :=
  {| vertices := []; normals := []; uvs := []; submeshes := [] |}.

(** The per-vertex containers of [_parse_geometry] and its two flags, and
    what they hold once the three lists of [None] are made. *)
Record Buffers := {
  local_verts : list (option vec3);
  local_normals : list (option vec3);
  local_uvs : list (option vec2);
  any_normals : bool;
  any_uvs : bool
}.

(** The containers of a block of [n] vertices once they are allocated: each
    list is [n] times [None], and no attribute was met yet. *)
Definition empty_buffers (n : nat) : Buffers :=
  {| local_verts := replicate n None;
     local_normals := replicate n None;
     local_uvs := replicate n None;
     any_normals := false;
     any_uvs := false |}.

(** [local_verts[i] = p] *)
Definition store_vert (i : nat) (p : vec3) (b : Buffers) : Buffers :=
  {| local_verts := <[i := Some p]> (local_verts b);
     local_normals := local_normals b;
     local_uvs := local_uvs b;
     any_normals := any_normals b;
     any_uvs := any_uvs b |}.

(** [local_normals[i] = n; any_normals = True] *)
Definition store_normal (i : nat) (n : vec3) (b : Buffers) : Buffers :=
  {| local_verts := local_verts b;
     local_normals := <[i := Some n]> (local_normals b);
     local_uvs := local_uvs b;
     any_normals := true;
     any_uvs := any_uvs b |}.

(** [local_uvs[i] = uv; any_uvs = True] *)
Definition store_uv (i : nat) (uv : vec2) (b : Buffers) : Buffers :=
  {| local_verts := local_verts b;
     local_normals := local_normals b;
     local_uvs := <[i := Some uv]> (local_uvs b);
     any_normals := any_normals b;
     any_uvs := true |}.

(** [e.get(k, 'false').lower() == 'true'] *)
Definition flag (e : Element) (k : string) : bool :=
  String.eqb (lower (get_default e k "false")) "true".

(** The first child whose tag starts with ['texcoord'], after [find('texcoord')]
    found none. *)
Definition find_texcoord (vertex : Element) : option Element :=
  match find vertex "texcoord" with
  | Some t => Some t
  | None => List.find (fun child => String.prefix "texcoord" (tag child)) (children vertex)
  end.

(** The conversion of a texture coordinate on read: V is flipped. *)
Definition flip_v (v : float) : float := (1.0 - v)%float.

Section WithBuiltins.
Context `{PyBuiltins}.

(** [local_verts = [None] * vertex_count], then [local_normals] and
    [local_uvs] likewise, and the two flags. *)
Definition allocate_buffers (vertex_count : Z) : res Buffers :=
  local_verts ← list_repeat None vertex_count;
  local_normals ← list_repeat None vertex_count;
  local_uvs ← list_repeat None vertex_count;
  Ok {| local_verts := local_verts;
        local_normals := local_normals;
        local_uvs := local_uvs;
        any_normals := false;
        any_uvs := false |}.

Definition read_xyz (e : Element) : res vec3 :=
  x ← float_attr e "x";
  y ← float_attr e "y";
  z ← float_attr e "z";
  Ok (x, y, z).

Definition read_uv (e : Element) : res vec2 :=
  u ← float_attr e "u";
  v ← float_attr e "v";
  Ok (u, flip_v v).

(** The body of the loop over the vertex records of one vertexbuffer. *)
Definition merge_vertex (has_positions has_normals has_texcoords : bool)
    (i : nat) (vertex : Element) (b : Buffers) : res Buffers :=
  b1 ← (if has_positions then
          match find vertex "position" with
          | Some pos => p ← read_xyz pos; Ok (store_vert i p b)
          | None => Ok b
          end
        else Ok b);
  b2 ← (if has_normals then
          match find vertex "normal" with
          | Some normal => n ← read_xyz normal; Ok (store_normal i n b1)
          | None => Ok b1
          end
        else Ok b1);
  if has_texcoords then
    match find_texcoord vertex with
    | Some texcoord => uv ← read_uv texcoord; Ok (store_uv i uv b2)
    | None => Ok b2
    end
  else Ok b2.

(** [for i, vertex in enumerate(vb.findall('vertex'))], with its [break]. *)
Fixpoint merge_vertex_list (hp hn ht : bool) (vertex_count : Z) (i : nat)
    (vs : list Element) (b : Buffers) : res Buffers :=
  match vs with
  | [] => Ok b
  | vertex :: vs' =>
      if vertex_count <=? Z.of_nat i then Ok b
      else
        b' ← merge_vertex hp hn ht i vertex b;
        merge_vertex_list hp hn ht vertex_count (S i) vs' b'
  end.

(** [int(vb.get('texture_coords', '0') or 0)] *)
Definition tex_coords_of (vb : Element) : res Z :=
  let s := get_default vb "texture_coords" "0" in
  if String.eqb s "" then Ok 0 else of_option ValueError (py_int s).

(** The body of the loop over the vertexbuffers of a geometry element. *)
Definition merge_vertexbuffer (vertex_count : Z) (vb : Element) (b : Buffers)
    : res Buffers :=
  let has_positions := flag vb "positions" in
  let has_normals := flag vb "normals" in
  tex_coords ← tex_coords_of vb;
  let has_texcoords := 0 <? tex_coords in
  merge_vertex_list has_positions has_normals has_texcoords vertex_count 0
    (findall vb "vertex") b.

Fixpoint merge_vertexbuffers (vertex_count : Z) (vbs : list Element) (b : Buffers)
    : res Buffers :=
  match vbs with
  | [] => Ok b
  | vb :: vbs' =>
      b' ← merge_vertexbuffer vertex_count vb b;
      merge_vertexbuffers vertex_count vbs' b'
  end.

(** The vertex count of a geometry element; [None] is the [return 0] of a
    block with neither a count nor a vertexbuffer. *)
Definition vertex_count_of (geom_elem : Element) : res (option Z) :=
  match get geom_elem "vertexcount" with
  | Some vcount_attr =>
      vertex_count ← of_option ValueError (py_int vcount_attr);
      Ok (Some vertex_count)
  | None =>
      match find geom_elem "vertexbuffer" with
      | Some first_vb => Ok (Some (Z.of_nat (length (findall first_vb "vertex"))))
      | None => Ok None
      end
  end.

(** [for i in range(vertex_count): if l[i] is None: l[i] = d], on a list of
    that length. *)
Definition fill_defaults {A} (d : A) (l : list (option A)) : list A :=
  default d <$> l.

(** The merged sequences of one geometry block, before they are appended:
    [(local_verts, local_normals, local_uvs)] after the defaults. *)
Definition merge_block (vertex_count : Z) (geom_elem : Element)
    : res (list vec3 * list vec3 * list vec2) :=
  b0 ← allocate_buffers vertex_count;
  b ← merge_vertexbuffers vertex_count (findall geom_elem "vertexbuffer") b0;
  let verts := fill_defaults (0, 0, 0)%float (local_verts b) in
  let norms :=
    if any_normals b then fill_defaults (0, 1, 0)%float (local_normals b) else [] in
  let texs :=
    if any_uvs b then fill_defaults (0, 0)%float (local_uvs b) else [] in
  Ok (verts, norms, texs).

(** [_parse_geometry]: the object after the call and the returned count
    (the arguments [is_shared] and [offset] are not used by the source). *)
Definition _parse_geometry (self : OgreXMLToOBJ) (geom_elem : Element)
    : res (OgreXMLToOBJ * Z) :=
  ovc ← vertex_count_of geom_elem;
  match ovc with
  | None => Ok (self, 0)
  | Some vertex_count =>
      '(verts, norms, texs) ← merge_block vertex_count geom_elem;
      Ok ({| vertices := vertices self ++ verts;
             normals := normals self ++ norms;
             uvs := uvs self ++ texs;
             submeshes := submeshes self |}, vertex_count)
  end.

(** One face of a submesh, in output numbering. *)
Definition read_face (vertex_offset : Z) (face : Element) : res (Z * Z * Z) :=
  v1 ← int_attr face "v1";
  v2 ← int_attr face "v2";
  v3 ← int_attr face "v3";
  Ok (v1 + vertex_offset + 1, v2 + vertex_offset + 1, v3 + vertex_offset + 1).

Fixpoint read_faces (vertex_offset : Z) (fs : list Element) : res (list (Z * Z * Z)) :=
  match fs with
  | [] => Ok []
  | face :: fs' =>
      f ← read_face vertex_offset face;
      rest ← read_faces vertex_offset fs';
      Ok (f :: rest)
  end.

(** The vertex offset of a submesh and the object after its local geometry,
    if any, was merged. *)
Definition submesh_geometry (self : OgreXMLToOBJ) (submesh_elem : Element)
    : res (OgreXMLToOBJ * Z) :=
  let uses_shared := flag submesh_elem "usesharedvertices" in
  let vertex_offset := Z.of_nat (length (vertices self)) in
  if negb uses_shared then
    match find submesh_elem "geometry" with
    | Some geom =>
        let vertex_offset := Z.of_nat (length (vertices self)) in
        '(self', _) ← _parse_geometry self geom;
        Ok (self', vertex_offset)
    | None => Ok (self, vertex_offset)
    end
  else Ok (self, 0).

Definition _parse_submesh (self : OgreXMLToOBJ) (submesh_elem : Element)
    (submesh_idx : nat) : res OgreXMLToOBJ :=
  let material :=
    get_default submesh_elem "material"
      ("material_" ++ str_int (Z.of_nat submesh_idx)) in
  '(self', vertex_offset) ← submesh_geometry self submesh_elem;
  local_faces ←
    match find submesh_elem "faces" with
    | Some faces_elem => read_faces vertex_offset (findall faces_elem "face")
    | None => Ok []
    end;
  Ok {| vertices := vertices self';
        normals := normals self';
        uvs := uvs self';
        submeshes := submeshes self' ++
          [{| material := material; faces := local_faces; index := submesh_idx |}] |}.

Fixpoint parse_submeshes (self : OgreXMLToOBJ) (idx : nat) (sms : list Element)
    : res OgreXMLToOBJ :=
  match sms with
  | [] => Ok self
  | submesh :: sms' =>
      self' ← _parse_submesh self submesh idx;
      parse_submeshes self' (S idx) sms'
  end.

(** [parse_mesh_xml], from the root of the parsed file. *)
Definition parse_mesh_xml (self : OgreXMLToOBJ) (root : Element) : res OgreXMLToOBJ :=
  self' ←
    match find root "sharedgeometry" with
    | Some shared_geom => '(s, _) ← _parse_geometry self shared_geom; Ok s
    | None => Ok self
    end;
  match find root "submeshes" with
  | Some submeshes => parse_submeshes self' 0 (findall submeshes "submesh")
  | None => Ok self'
  end.

(** *** write_obj

    The output file is the sequence of the strings passed to [f.write]. *)

Definition nl : string := String (ascii_of_nat 10) EmptyString.

Definition write (f : list string) (s : string) : list string := f ++ [s].

Definition have_uvs (self : OgreXMLToOBJ) : bool :=
  (length (uvs self) =? length (vertices self))%nat && (0 <? length (uvs self))%nat.

Definition have_normals (self : OgreXMLToOBJ) : bool :=
  (length (normals self) =? length (vertices self))%nat
  && (0 <? length (normals self))%nat.

(** The string written for one face. *)
Definition face_line (have_uvs have_normals : bool) (face : Z * Z * Z) : string :=
  let '(v1, v2, v3) := face in
  let f0 := str_int v1 in
  let f1 := str_int v2 in
  let f2 := str_int v3 in
  if have_uvs && have_normals then
    "f " ++ f0 ++ "/" ++ f0 ++ "/" ++ f0 ++ " "
         ++ f1 ++ "/" ++ f1 ++ "/" ++ f1 ++ " "
         ++ f2 ++ "/" ++ f2 ++ "/" ++ f2 ++ nl
  else if have_uvs then
    "f " ++ f0 ++ "/" ++ f0 ++ " "
         ++ f1 ++ "/" ++ f1 ++ " "
         ++ f2 ++ "/" ++ f2 ++ nl
  else if have_normals then
    "f " ++ f0 ++ "//" ++ f0 ++ " "
         ++ f1 ++ "//" ++ f1 ++ " "
         ++ f2 ++ "//" ++ f2 ++ nl
  else
    "f " ++ f0 ++ " " ++ f1 ++ " " ++ f2 ++ nl.

(** The body of the loop over [self.submeshes]. *)
Definition write_submesh (hu hn : bool) (base_name : string)
    (mtl_file : option string) (idx : nat) (submesh : Submesh)
    (f : list string) : list string :=
  let obj_name := (base_name ++ "_part" ++ str_int (Z.of_nat idx))%string in
  let f := write f ("# Submesh - " ++ material submesh ++ nl) in
  let f := write f ("o " ++ obj_name ++ nl) in
  let f := write f ("g " ++ material submesh ++ nl) in
  let f :=
    match mtl_file with
    | Some _ => write f ("usemtl " ++ material submesh ++ nl)
    | None => f
    end in
  let f := fold_left (fun f face => write f (face_line hu hn face)) (faces submesh) f in
  write f nl.

Fixpoint write_submeshes (hu hn : bool) (base_name : string)
    (mtl_file : option string) (idx : nat) (sms : list Submesh)
    (f : list string) : list string :=
  match sms with
  | [] => f
  | submesh :: sms' =>
      write_submeshes hu hn base_name mtl_file (S idx) sms'
        (write_submesh hu hn base_name mtl_file idx submesh f)
  end.

(** [write_obj]: [base_name] is the stem of the output path and [mtl_file]
    the name of the material file, when there is one. *)
Definition write_obj (self : OgreXMLToOBJ) (base_name : string)
    (mtl_file : option string) : list string :=
  let total_faces :=
    fold_left (fun n sm => (n + length (faces sm))%nat) (submeshes self) 0%nat in
  let f := [] in
  let f := write f ("# Converted from Ogre mesh format" ++ nl) in
  let f := write f ("# Vertices: " ++ str_int (Z.of_nat (length (vertices self))) ++ nl) in
  let f := write f ("# Faces: " ++ str_int (Z.of_nat total_faces) ++ nl ++ nl) in
  let f :=
    match mtl_file with
    | Some name => write f ("mtllib " ++ name ++ nl ++ nl)
    | None => f
    end in
  let f :=
    fold_left
      (fun f (v : vec3) =>
         write f ("v " ++ format_6f v.1.1 ++ " " ++ format_6f v.1.2 ++ " "
                       ++ format_6f v.2 ++ nl))
      (vertices self) f in
  let f := write f nl in
  let f :=
    fold_left
      (fun f (uv : vec2) =>
         write f ("vt " ++ format_6f uv.1 ++ " " ++ format_6f uv.2 ++ nl))
      (uvs self) f in
  let f := write f nl in
  let f :=
    fold_left
      (fun f (n : vec3) =>
         write f ("vn " ++ format_6f n.1.1 ++ " " ++ format_6f n.1.2 ++ " "
                        ++ format_6f n.2 ++ nl))
      (normals self) f in
  let f := write f nl in
  write_submeshes (have_uvs self) (have_normals self) base_name mtl_file 0
    (submeshes self) f.

End WithBuiltins.
End MeshToObj.

(** ** recalculate_normals.py *)

Module Vector3.

Record t := mk { x : float; y : float; z : float }.

(** [Vector3(0, 0, 0)] and the like: [__init__] applies [float] to ints. *)
Definition add (self other : t) : t :=
  mk (x self + x other) (y self + y other) (z self + z other).

Definition sub (self other : t) : t :=
  mk (x self - x other) (y self - y other) (z self - z other).

Definition mul (self : t) (scalar : float) : t :=
  mk (x self * scalar) (y self * scalar) (z self * scalar).

Definition cross (self other : t) : t :=
  mk (y self * z other - z self * y other)
     (z self * x other - x self * z other)
     (x self * y other - y self * x other).

Definition length (self : t) : float :=
  PrimFloat.sqrt (x self * x self + y self * y self + z self * z self).

Definition normalize (self : t) : t :=
  let length := length self in
  if (0.000001 <? length)%float then
    mk (x self / length) (y self / length) (z self / length)
  else mk 0 0 1.

End Vector3.

Module RecalcNormals.

Definition calculate_face_normal (v1 v2 v3 : Vector3.t) : Vector3.t :=
  let edge1 := Vector3.sub v2 v1 in
  let edge2 := Vector3.sub v3 v1 in
  let normal := Vector3.cross edge1 edge2 in
  Vector3.normalize normal.

(** The messages printed as warnings: the 1-based submesh number, or the
    value of [face_count] when the face was met. *)
Inductive Warning :=
| NoGeometry (submesh : nat)
| NoVertexBuffer (submesh : nat)
| NoNormals (submesh : nat)
| NoPositions (submesh : nat)
| NoFaces (submesh : nat)
| InvalidFaceIndices (face_count : nat)
| FaceError (face_count : nat).

(** [l[i] = v] with Python's negative indexing. *)
Definition setitem {A} (l : list A) (i : Z) (v : A) : res (list A) :=
  match norm_index l i with
  | Some k => Ok (<[k := v]> l)
  | None => Raise IndexError
  end.

(** The accumulators of one submesh. *)
Record Acc := {
  vertex_normals : list Vector3.t;
  vertex_face_count : list nat;
  face_count : nat;
  warnings : list Warning
}.

Definition warn (w : Warning) (a : Acc) : Acc :=
  {| vertex_normals := vertex_normals a;
     vertex_face_count := vertex_face_count a;
     face_count := face_count a;
     warnings := warnings a ++ [w] |}.

(** [l[i] = l[i] + n] *)
Definition add_normal (l : list Vector3.t) (i : Z) (n : Vector3.t)
    : res (list Vector3.t) :=
  old ← getitem l i;
  setitem l i (Vector3.add old n).

(** [l[i] += 1] *)
Definition incr (l : list nat) (i : Z) : res (list nat) :=
  old ← getitem l i;
  setitem l i (S old).

(** The first child with tag [t] mutated by [f]. *)
Fixpoint update_first (t : string) (f : Element -> Element) (cs : list Element)
    : list Element :=
  match cs with
  | [] => []
  | c :: cs' => if has_tag t c then f c :: cs' else c :: update_first t f cs'
  end.

Definition set_xyz (sx sy sz : string) (normal_elem : Element) : Element :=
  set "z" sz (set "y" sy (set "x" sx normal_elem)).

Section WithBuiltins.
Context `{PyBuiltins}.

(** The positions of the vertex records, in order. *)
Definition read_position (vertex : Element) : res Vector3.t :=
  match find vertex "position" with
  | Some pos_elem =>
      x ← float_attr pos_elem "x";
      y ← float_attr pos_elem "y";
      z ← float_attr pos_elem "z";
      Ok (Vector3.mk x y z)
  | None => Ok (Vector3.mk 0 0 0)
  end.

Fixpoint read_positions (vertices : list Element) : res (list Vector3.t) :=
  match vertices with
  | [] => Ok []
  | vertex :: vs =>
      p ← read_position vertex;
      rest ← read_positions vs;
      Ok (p :: rest)
  end.

(** The [try] block of the loop over the faces. *)
Definition face_body (positions : list Vector3.t) (face : Element) (a : Acc)
    : res Acc :=
  let vertex_count := Z.of_nat (length positions) in
  v1_idx ← int_attr0 face "v1";
  v2_idx ← int_attr0 face "v2";
  v3_idx ← int_attr0 face "v3";
  if (v1_idx <? vertex_count) && (v2_idx <? vertex_count) && (v3_idx <? vertex_count)
  then
    p1 ← getitem positions v1_idx;
    p2 ← getitem positions v2_idx;
    p3 ← getitem positions v3_idx;
    let face_normal := calculate_face_normal p1 p2 p3 in
    n1 ← add_normal (vertex_normals a) v1_idx face_normal;
    n2 ← add_normal n1 v2_idx face_normal;
    n3 ← add_normal n2 v3_idx face_normal;
    c1 ← incr (vertex_face_count a) v1_idx;
    c2 ← incr c1 v2_idx;
    c3 ← incr c2 v3_idx;
    Ok {| vertex_normals := n3;
          vertex_face_count := c3;
          face_count := S (face_count a);
          warnings := warnings a |}
  else Ok (warn (InvalidFaceIndices (face_count a)) a).

(** The loop body with its [except (ValueError, TypeError)]: these are raised
    by [int] only, before the accumulators are touched. *)
Definition accumulate_face (positions : list Vector3.t) (face : Element) (a : Acc)
    : res Acc :=
  match face_body positions face a with
  | Raise ValueError | Raise TypeError => Ok (warn (FaceError (face_count a)) a)
  | r => r
  end.

Fixpoint accumulate (positions : list Vector3.t) (faces : list Element) (a : Acc)
    : res Acc :=
  match faces with
  | [] => Ok a
  | face :: fs =>
      a' ← accumulate_face positions face a;
      accumulate positions fs a'
  end.

Definition init_acc (vertex_count : nat) : Acc :=
  {| vertex_normals := replicate vertex_count (Vector3.mk 0 0 0);
     vertex_face_count := replicate vertex_count 0%nat;
     face_count := 0;
     warnings := [] |}.

(** The normal written for a vertex touched by [count > 0] faces. *)
Definition final_normal (acc : Vector3.t) (count : nat) : Vector3.t :=
  let avg_normal := Vector3.mul acc (1.0 / float_of_nat count)%float in
  Vector3.normalize avg_normal.

(** [normal_elem.set('x', ..); .set('y', ..); .set('z', ..)] on the normal
    field of a vertex record that has one. *)
Definition set_normal (sx sy sz : string) (vertex : Element) : Element :=
  match vertex with
  | Elem t a x y cs => Elem t a x y (update_first "normal" (set_xyz sx sy sz) cs)
  end.

(** [ET.SubElement(vertex, 'normal')] and the three [set] on it. *)
Definition create_normal (sx sy sz : string) (vertex : Element) : Element :=
  match vertex with
  | Elem t a x y cs => Elem t a x y (cs ++ [set_xyz sx sy sz (fresh "normal")])
  end.

(** The body of the write-back loop: the vertex record after it, and whether
    [updated_normals] was incremented. *)
Definition write_vertex (a : Acc) (i : nat) (vertex : Element) : res (Element * bool) :=
  count ← getitem (vertex_face_count a) (Z.of_nat i);
  if (0 <? count)%nat then
    acc ← getitem (vertex_normals a) (Z.of_nat i);
    let n := final_normal acc count in
    let sx := format_6f (Vector3.x n) in
    let sy := format_6f (Vector3.y n) in
    let sz := format_6f (Vector3.z n) in
    match find vertex "normal" with
    | Some _ => Ok (set_normal sx sy sz vertex, true)
    | None => Ok (create_normal sx sy sz vertex, true)
    end
  else
    match find vertex "normal" with
    | Some _ => Ok (set_normal "0.000000" "1.000000" "0.000000" vertex, false)
    | None => Ok (vertex, false)
    end.

(** [for i, vertex in enumerate(vertices)] over the children of the
    vertexbuffer tagged [vertex], mutated in place; the other children stay. *)
Fixpoint write_back (a : Acc) (cs : list Element) (i : nat) (updated_normals : nat)
    : res (list Element * nat) :=
  match cs with
  | [] => Ok ([], updated_normals)
  | c :: cs' =>
      if has_tag "vertex" c then
        '(c', updated) ← write_vertex a i c;
        '(rest, n) ← write_back a cs' (S i)
                       (if (updated : bool) then S updated_normals else updated_normals);
        Ok (c' :: rest, n)
      else
        '(rest, n) ← write_back a cs' i updated_normals;
        Ok (c :: rest, n)
  end.

(** The state of the pass: the tree, mutated in place, the running total and
    the warnings printed so far. *)
Record State := {
  root : Element;
  total_vertices_processed : nat;
  printed : list Warning
}.

Definition skip (w : Warning) (st : State) : State :=
  {| root := root st;
     total_vertices_processed := total_vertices_processed st;
     printed := printed st ++ [w] |}.

(** [submesh.get('usesharedvertices', 'false').lower() == 'true'] *)
Definition shared_flag (submesh : Element) : bool :=
  String.eqb (lower (get_default submesh "usesharedvertices" "false")) "true".

(** The geometry element of a submesh, as a reference into the tree. *)
Definition geometry_ref (root : Element) (psub : path) (submesh : Element)
    (uses_shared : bool) : option path :=
  if uses_shared then
    match find_desc root "sharedgeometry" with
    | Some p => Some p
    | None => find_desc_child root "mesh" "sharedvertexdata"
    end
  else
    match find_desc submesh "geometry" with
    | Some q => Some (psub ++ q)
    | None => None
    end.

(** The vertexbuffer the pass works on: [geometry.find('.//vertexbuffer')]. *)
Definition vertex_buffer_ref (root : Element) (pgeom : path) : option path :=
  match subtree root pgeom with
  | Some geometry =>
      match find_desc geometry "vertexbuffer" with
      | Some q => Some (pgeom ++ q)
      | None => None
      end
  | None => None
  end.

(** The faces of a submesh: [submesh.find('.//faces').findall('face')]. *)
Definition faces_of (submesh : Element) : option (list Element) :=
  match find_desc submesh "faces" with
  | Some q =>
      match subtree submesh q with
      | Some faces_elem => Some (findall faces_elem "face")
      | None => None
      end
  | None => None
  end.

(** What the pass does with the vertexbuffer of a submesh: it skips it with
    a warning, or leaves it mutated, with the count of updated normals and
    the warnings of its faces. *)
Inductive Outcome :=
| Skipped (w : Warning)
| Updated (vertex_buffer : Element) (updated_normals : nat) (ws : list Warning).

(** From the vertexbuffer on: positions, accumulation over the faces and the
    write-back. *)
Definition recalc_vertex_buffer (n : nat) (vertex_buffer : Element)
    (faces : option (list Element)) : res Outcome :=
  if negb (bool_decide (get vertex_buffer "normals" = Some "true")) then
    Ok (Skipped (NoNormals n))
  else
    let vertices := findall vertex_buffer "vertex" in
    positions ← read_positions vertices;
    let vertex_count := length positions in
    if (vertex_count =? 0)%nat then Ok (Skipped (NoPositions n))
    else
      match faces with
      | None => Ok (Skipped (NoFaces n))
      | Some faces =>
          a ← accumulate positions faces (init_acc vertex_count);
          '(cs, updated_normals) ← write_back a (children vertex_buffer) 0 0;
          match vertex_buffer with
          | Elem t at_ x y _ => Ok (Updated (Elem t at_ x y cs) updated_normals (warnings a))
          end
      end.

(** The body of the loop over the submeshes; [psub] is the reference of the
    submesh and [submesh_idx] its position in [submeshes]. *)
Definition process_submesh (st : State) (submesh_idx : nat) (psub : path) : res State :=
  let n := S submesh_idx in
  match subtree (root st) psub with
  | None => Ok st
  | Some submesh =>
      let uses_shared := shared_flag submesh in
      match geometry_ref (root st) psub submesh uses_shared with
      | None => Ok (skip (NoGeometry n) st)
      | Some pgeom =>
          match vertex_buffer_ref (root st) pgeom with
          | None => Ok (skip (NoVertexBuffer n) st)
          | Some pvb =>
              match subtree (root st) pvb with
              | None => Ok st
              | Some vertex_buffer =>
                  r ← recalc_vertex_buffer n vertex_buffer (faces_of submesh);
                  match r with
                  | Skipped w => Ok (skip w st)
                  | Updated vertex_buffer' updated_normals ws =>
                      Ok {| root := update_at pvb (fun _ => vertex_buffer') (root st);
                            total_vertices_processed :=
                              (total_vertices_processed st + updated_normals)%nat;
                            printed := printed st ++ ws |}
                  end
              end
          end
      end
  end.

Fixpoint process_submeshes (st : State) (submesh_idx : nat) (submeshes : list path)
    : res State :=
  match submeshes with
  | [] => Ok st
  | psub :: rest =>
      st' ← process_submesh st submesh_idx psub;
      process_submeshes st' (S submesh_idx) rest
  end.

(** The [try] block of [recalculate_normals] from the parsed tree up to the
    end of the loop over the submeshes: the tree in memory. *)
Definition run (tree : Element) : res State :=
  let submeshes := findall_desc tree "submesh" in
  process_submeshes
    {| root := tree; total_vertices_processed := 0; printed := [] |} 0 submeshes.

(** What the file holds after the call: what it held, the serialized tree,
    or the beginning of one. *)
Inductive File :=
| Untouched
| Written (tree : Element)
| Partial.

(** [tree.write(xml_file_path, ...)] and [return True], inside the [try]:
    [except Exception] returns [False]. *)
Definition save `{PyFiles} (tree : Element) : bool * File :=
  match tree_write tree with
  | Wrote => (true, Written tree)
  | NotOpened => (false, Untouched)
  | Interrupted => (false, Partial)
  end.

(** [recalculate_normals] from the parsed tree: the returned boolean and
    the file afterwards.  An exception of the loop is caught before the file
    is written. *)
Definition recalculate_normals `{PyFiles} (tree : Element) : bool * File :=
  match run tree with
  | Ok st => save (root st)
  | Raise _ => (false, Untouched)
  end.

End WithBuiltins.
End RecalcNormals.

(** ** A concrete instance of the builtins

    Exact on the literals it accepts: [int] on an optional minus sign and
    digits; [float] on an optional minus sign, digits and an optional
    fraction, with at most 15 digits in all (the quotient of two exactly
    represented numbers is rounded once, like the literal); [.6f] rounds the
    exact binary value to six decimals, half to even. *)

Module Concrete.

Definition digit_of (c : ascii) : option Z :=
  let n := Z.of_nat (nat_of_ascii c) in
  if (48 <=? n) && (n <=? 57) then Some (n - 48) else None.

Fixpoint digits_value (s : string) (acc : Z) : option Z :=
  match s with
  | EmptyString => Some acc
  | String c s' =>
      match digit_of c with
      | Some d => digits_value s' (10 * acc + d)
      | None => None
      end
  end.

Definition unsigned_int (s : string) : option Z :=
  match s with
  | EmptyString => None
  | _ => digits_value s 0
  end.

Definition split_sign (s : string) : bool * string :=
  match s with
  | String "-"%char s' => (true, s')
  | _ => (false, s)
  end.

Definition dec_int (s : string) : option Z :=
  let '(neg, body) := split_sign s in
  match unsigned_int body with
  | Some n => Some (if neg then - n else n)
  | None => None
  end.

(** The digits before and after the first dot. *)
Fixpoint split_dot (s : string) : string * option string :=
  match s with
  | EmptyString => (EmptyString, None)
  | String "."%char s' => (EmptyString, Some s')
  | String c s' => let '(a, b) := split_dot s' in (String c a, b)
  end.

Definition float_of_Z (n : Z) : float := PrimFloat.of_uint63 (Uint63.of_Z n).

Definition dec_float (s : string) : option float :=
  let '(neg, body) := split_sign s in
  let '(ip, fp) := split_dot body in
  let fp := default EmptyString fp in
  let k := (String.length ip + String.length fp)%nat in
  if ((String.length ip =? 0)%nat || (15 <? k)%nat)%bool then None
  else
    match digits_value (ip +:+ fp) 0 with
    | Some n =>
        let q := (float_of_Z n / float_of_Z (10 ^ Z.of_nat (String.length fp)))%float in
        Some (if neg then (- q)%float else q)
    | None => None
    end.

(** Zero-padded decimal of width 6. *)
Definition pad6 (n : Z) : string :=
  let s := str_int n in
  String.string_of_list_ascii (List.repeat "0"%char (6 - String.length s)) +:+ s.

Definition round_half_even (num den : Z) : Z :=
  let q := num / den in
  let r := num mod den in
  match 2 * r ?= den with
  | Lt => q
  | Gt => q + 1
  | Eq => if Z.even q then q else q + 1
  end.

Definition fixed6 (neg : bool) (n : Z) : string :=
  (if neg then "-" else "") +:+ str_int (n / 1000000) +:+ "." +:+ pad6 (n mod 1000000).

Definition fmt6 (x : float) : string :=
  match Prim2SF x with
  | S754_nan => "nan"
  | S754_infinity s => if s then "-inf" else "inf"
  | S754_zero s => fixed6 s 0
  | S754_finite s m e =>
      let n :=
        if 0 <=? e then Z.pos m * 1000000 * 2 ^ e
        else round_half_even (Z.pos m * 1000000) (2 ^ (- e)) in
      fixed6 s n
  end.

(** The allocator of the examples grants the lists below 2^31 slots. *)
Definition builtins : PyBuiltins :=
  {| py_float := dec_float; py_int := dec_int; format_6f := fmt6;
     allocates := fun n => n <? 2 ^ 31 |}.

(** An element without text, from the list of its attributes. *)
Definition node (t : string) (attrs : list (string * string)) (cs : list Element)
    : Element :=
  Elem t (list_to_map attrs) None None cs.

End Concrete.

(** ** The vocabulary of the properties of the exporter *)

Module MergeSpec.
Import MeshToObj.

Section WithBuiltins.
Context `{PyBuiltins}.

(** The sub-element of vertex record [i] of the fragment [vb] that supplies
    the position of vertex [i]: the fragment declares positions and its
    record [i] has one.  Likewise for normals and texture coordinates. *)
Definition supplied_position (vb : Element) (i : nat) : option Element :=
  if flag vb "positions" then findall vb "vertex" !! i ≫= (fun v => find v "position")
  else None.

Definition supplied_normal (vb : Element) (i : nat) : option Element :=
  if flag vb "normals" then findall vb "vertex" !! i ≫= (fun v => find v "normal")
  else None.

Definition declares_texcoords (vb : Element) : bool :=
  match tex_coords_of vb with
  | Ok t => 0 <? t
  | Raise _ => false
  end.

Definition supplied_texcoord (vb : Element) (i : nat) : option Element :=
  if declares_texcoords vb then findall vb "vertex" !! i ≫= find_texcoord
  else None.

(** What the last fragment, in declaration order, that supplies vertex [i]
    supplies. *)
Definition last_supplied (supplied : Element -> nat -> option Element)
    (vbs : list Element) (i : nat) : option Element :=
  last (omap (fun vb => supplied vb i) vbs).

(** The value of vertex [i] after the merge: the value read from the last
    supply, or the default. *)
Definition merged_value {A} (read : Element -> res A) (d : A)
    (supplied : Element -> nat -> option Element) (vbs : list Element) (i : nat) : A :=
  match last_supplied supplied vbs i with
  | Some e => match read e with Ok a => a | Raise _ => d end
  | None => d
  end.

(** The merged entry of vertex [i] is what the last supply gives, read; it
    stays unset when no fragment supplies the vertex. *)
Definition last_wins {A} (read : Element -> res A)
    (supplied : Element -> nat -> option Element) (vbs : list Element) (i : nat)
    (entry : option (option A)) : Prop :=
  match last_supplied supplied vbs i with
  | Some e => exists a, read e = Ok a /\ entry = Some (Some a)
  | None => entry = Some None
  end.

(** Of two fragments that supply vertex [i], with no supply after the
    second, the second decides the merged entry. *)
Definition later_overwrites {A} (read : Element -> res A)
    (supplied : Element -> nat -> option Element) (vbs : list Element) (i : nat)
    (entry : option (option A)) : Prop :=
  forall pre vbA mid vbB post ea eb,
    vbs = pre ++ vbA :: mid ++ vbB :: post ->
    supplied vbA i = Some ea ->
    supplied vbB i = Some eb ->
    Forall (fun vb => supplied vb i = None) post ->
    exists b, read eb = Ok b /\ entry = Some (Some b).

(** Some vertex of the block is supplied. *)
Definition received (supplied : Element -> nat -> option Element)
    (vertex_count : Z) (vbs : list Element) : Prop :=
  exists i, Z.of_nat i < vertex_count /\ is_Some (last_supplied supplied vbs i).

(** The 0-based indices of a face, as the file has them. *)
Definition source_face (face : Element) : res (Z * Z * Z) :=
  v1 ← int_attr face "v1";
  v2 ← int_attr face "v2";
  v3 ← int_attr face "v3";
  Ok (v1, v2, v3).

Fixpoint source_faces (fs : list Element) : res (list (Z * Z * Z)) :=
  match fs with
  | [] => Ok []
  | face :: fs' =>
      f ← source_face face;
      rest ← source_faces fs';
      Ok (f :: rest)
  end.

Definition submesh_source_faces (submesh_elem : Element) : res (list (Z * Z * Z)) :=
  match find submesh_elem "faces" with
  | Some faces_elem => source_faces (findall faces_elem "face")
  | None => Ok []
  end.

(** The number of vertices a geometry block has. *)
Definition block_size (geom_elem : Element) : res nat :=
  ovc ← vertex_count_of geom_elem;
  Ok (match ovc with Some vertex_count => Z.to_nat vertex_count | None => 0%nat end).

(** The geometry blocks [parse_mesh_xml] merges, in order: the shared one,
    then the local one of each submesh that does not use the shared
    vertices. *)
Definition mesh_blocks (root : Element) : list Element :=
  option_list (find root "sharedgeometry") ++
  match find root "submeshes" with
  | Some submeshes =>
      omap (fun sm => if flag sm "usesharedvertices" then None else find sm "geometry")
           (findall submeshes "submesh")
  | None => []
  end.

(** What a block contributes: its merged sequences, empty for a block with
    neither a count nor a fragment. *)
Definition block_contribution (geom_elem : Element)
    : res (list vec3 * list vec3 * list vec2) :=
  ovc ← vertex_count_of geom_elem;
  match ovc with
  | Some vertex_count => merge_block vertex_count geom_elem
  | None => Ok ([], [], [])
  end.

(** A block with a vertex and no normal. *)
Definition deficient (g : Element) : Prop :=
  exists verts texs, block_contribution g = Ok (verts, [], texs) /\ verts <> [].

End WithBuiltins.

(** [output = source_index + offset + 1] on the three indices of a face. *)
Definition shift (offset : Z) (f : Z * Z * Z) : Z * Z * Z :=
  let '(v1, v2, v3) := f in (v1 + offset + 1, v2 + offset + 1, v3 + offset + 1).

(** The field of record [i] among the vertex records [vs] numbered from
    [i0], when the fragment declares the attribute ([g]). *)
Definition supplied_from (sub : Element -> option Element) (g : bool)
    (vs : list Element) (i0 i : nat) : option Element :=
  if g then (if decide (i0 <= i)%nat then vs !! (i - i0)%nat ≫= sub else None) else None.

(** The flag [present] of the containers is set exactly when some entry of
    the container [proj] is. *)
Definition flag_tracks {A} (proj : Buffers -> list (option A))
    (present : Buffers -> bool) (b : Buffers) : Prop :=
  present b = true <-> exists i a, proj b !! i = Some (Some a).

(** The normal sequence never outgrows the vertex sequence, and once it is
    shorter it stays shorter. *)
Definition bounded (self : OgreXMLToOBJ) : Prop :=
  (length (normals self) <= length (vertices self))%nat.
Definition short (self : OgreXMLToOBJ) : Prop :=
  (length (normals self) < length (vertices self))%nat.

End MergeSpec.

(** ** The face lines of the OBJ format *)

Module ObjFormat.

(** The four encodings of a face line. *)
Inductive Encoding := PositionUvNormal | PositionUv | PositionNormal | PositionOnly.

#[export] Instance Encoding_eq_dec : EqDecision Encoding.
Proof. solve_decision. Defined.

(** The encoding the two mesh-wide booleans select. *)
Definition select_encoding (have_uvs have_normals : bool) : Encoding :=
  if have_uvs then if have_normals then PositionUvNormal else PositionUv
  else if have_normals then PositionNormal else PositionOnly.

Definition carries_normal (e : Encoding) : bool :=
  match e with
  | PositionUvNormal | PositionNormal => true
  | PositionUv | PositionOnly => false
  end.

(** The fields of [s] between the occurrences of [sep]. *)
Fixpoint split_on (sep : ascii) (s : string) : list string :=
  match s with
  | EmptyString => [EmptyString]
  | String c s' =>
      if Ascii.eqb c sep then EmptyString :: split_on sep s'
      else
        match split_on sep s' with
        | w :: ws => String c w :: ws
        | [] => [String c EmptyString]
        end
  end.

Definition nonempty (s : string) : bool :=
  match s with
  | EmptyString => false
  | String _ _ => true
  end.

(** A corner of a face: [p], [p/t], [p//n] or [p/t/n]. *)
Definition corner_encoding (corner : string) : option Encoding :=
  match split_on "/" corner with
  | [p] => if nonempty p then Some PositionOnly else None
  | [p; t] => if nonempty p && nonempty t then Some PositionUv else None
  | [p; t; n] =>
      if nonempty p && nonempty n then
        Some (if nonempty t then PositionUvNormal else PositionNormal)
      else None
  | _ => None
  end.

(** A line is a face line when it starts with [f] and a space. *)
Definition is_face_line (line : string) : bool :=
  match line with
  | String "f" (String " " _) => true
  | _ => false
  end.

(** The encoding of a written face line: [f], three corners of one encoding
    separated by a space, and the end of the line. *)
Definition line_encoding (line : string) : option Encoding :=
  match line with
  | String "f" (String " " rest) =>
      match split_on "010" rest with
      | [body; EmptyString] =>
          match List.map corner_encoding (split_on " " body) with
          | [Some e1; Some e2; Some e3] =>
              if decide (e1 = e2 /\ e2 = e3) then Some e1 else None
          | _ => None
          end
      | _ => None
      end
  | _ => None
  end.

(** [c] does not occur in [s]. *)
Fixpoint absent (c : ascii) (s : string) : bool :=
  match s with
  | EmptyString => true
  | String c' s' => negb (Ascii.eqb c' c) && absent c s'
  end.

(** A numeral: not empty, and without the separators of a face line. *)
Definition plain (s : string) : Prop :=
  absent "/" s = true /\ absent " " s = true /\ absent "010" s = true /\
  nonempty s = true.

End ObjFormat.

(** ** Subtractions that do not round *)

Module Exact.

(** The value of a finite float in units of 2^-1074, the spacing of the
    smallest floats: an integer. *)
Definition scaled (x : float) : option Z :=
  match Prim2SF x with
  | S754_zero _ => Some 0
  | S754_finite s m e => Some ((if s then -1 else 1) * (Z.pos m * 2 ^ (e + 1074)))
  | _ => None
  end.

(** [a - b] is computed without rounding: the operands and the result are
    finite, and the value of the result is the difference of theirs. *)
Definition exact_sub (a b : float) : bool :=
  match scaled a, scaled b, scaled (a - b) with
  | Some za, Some zb, Some zc => zc =? za - zb
  | _, _, _ => false
  end.

End Exact.

(** ** What the recalculation may change in a tree *)

Module Frame.

Definition is_xyz (k : string) : Prop := k = "x" \/ k = "y" \/ k = "z".

(** The attributes agree, except perhaps on the values of [x], [y] and
    [z]: the others are the same, and no attribute is removed. *)
Definition agree_off_xyz (a a' : gmap string string) : Prop :=
  (forall k, ~ is_xyz k -> a' !! k = a !! k) /\
  (forall k, is_Some (a !! k) -> is_Some (a' !! k)).

(** A normal field made by the pass: an element [normal] without text or
    children, with the three attributes [x], [y] and [z] and no other. *)
Definition created_normal (e : Element) : Prop :=
  tag e = "normal" /\ text e = None /\ tail e = None /\ children e = [] /\
  (forall k, ~ is_xyz k -> attrib e !! k = None) /\
  (forall k, is_xyz k -> is_Some (attrib e !! k)).

(** Where an element sits: it is a child of a vertexbuffer, or a child of
    a vertex record (a child tagged [vertex] of a vertexbuffer), or it is
    elsewhere. *)
Inductive Place := Elsewhere | InBuffer | InRecord.

(** An element tagged [t] at place [f] is a vertex record. *)
Definition record (f : Place) (t : string) : bool :=
  match f with
  | InBuffer => String.eqb t "vertex"
  | _ => false
  end.

(** An element tagged [t] at place [f] is a normal of a vertex record. *)
Definition normal_at (f : Place) (t : string) : bool :=
  match f with
  | InRecord => String.eqb t "normal"
  | _ => false
  end.

(** The place of the children of an element tagged [t] at place [f]. *)
Definition below (f : Place) (t : string) : Place :=
  if String.eqb t "vertexbuffer" then InBuffer
  else if record f t then InRecord
  else Elsewhere.

(** [preserved f e e']: [e'] is [e], at place [f], up to the normal fields
    of the vertex records.  Tag, text and tail are the same.  The
    attributes are the same, except the [x], [y], [z] of a normal of a vertex
    record.  The children are preserved in turn, in order, and the only
    child whose attributes may differ is the first one tagged [normal].
    Children are added after the others, and only to a vertex record that
    has no child tagged [normal]: then one created normal field is added. *)
#[warnings="-register-all"]
Inductive preserved : Place -> Element -> Element -> Prop :=
| preserved_elem (f : Place) t a a' x y cs cs' extra :
    (if normal_at f t then agree_off_xyz a a' else a' = a) ->
    Forall2 (preserved (below f t)) cs cs' ->
    (forall i c c', cs !! i = Some c -> cs' !! i = Some c' ->
       attrib c' <> attrib c ->
       List.find (has_tag "normal") (take i cs) = None) ->
    Forall created_normal extra ->
    (extra <> [] ->
       record f t = true /\ List.find (has_tag "normal") cs = None /\
       length extra = 1%nat) ->
    preserved f (Elem t a x y cs) (Elem t a' x y (cs' ++ extra)).

(** The place of the element [p] names below [e], itself at place [f]. *)
Fixpoint place_of (f : Place) (e : Element) (p : path) : Place :=
  match p with
  | [] => f
  | i :: p' =>
      match children e !! i with
      | Some c => place_of (below f (tag e)) c p'
      | None => f
      end
  end.

(** [q] names a vertex record of [e]: a child tagged [vertex] of an element
    tagged [vertexbuffer]. *)
Definition record_at (e : Element) (q : path) : Prop :=
  exists q' j vb v,
    q = q' ++ [j] /\ subtree e q' = Some vb /\ tag vb = "vertexbuffer" /\
    children vb !! j = Some v /\ tag v = "vertex".

(** [p] names the normal field of a vertex record of [e]: the first child
    tagged [normal] of the record. *)
Definition normal_field (e : Element) (p : path) : Prop :=
  exists q i v d,
    p = q ++ [i] /\ record_at e q /\ subtree e q = Some v /\
    children v !! i = Some d /\ tag d = "normal" /\
    List.find (has_tag "normal") (take i (children v)) = None.

(** Two references part when neither leads to the other. *)
Definition parts_from (p q : path) : Prop :=
  ~ (exists r, q = p ++ r) /\ ~ (exists r, p = q ++ r).

End Frame.

(** ** The first descendant with a tag, by recursion on the tree *)

Module Descendants.

(** The proper descendants of the children [l], numbered from [i]. *)
Fixpoint iter_from (i : nat) (l : list Element) : list path :=
  match l with
  | [] => []
  | c :: l' => ([i] :: List.map (cons i) (iter_paths c)) ++ iter_from (S i) l'
  end.

(** The first descendant with tag [t] in document order: a child with the
    tag, or else its first such descendant, or else the one of the next
    children. *)
Fixpoint first_desc (t : string) (e : Element) : option path :=
  match e with
  | Elem _ _ _ _ cs =>
      (fix go (i : nat) (l : list Element) : option path :=
         match l with
         | [] => None
         | c :: l' =>
             if has_tag t c then Some [i]
             else
               match first_desc t c with
               | Some p => Some (i :: p)
               | None => go (S i) l'
               end
         end) 0%nat cs
  end.

Fixpoint first_from (t : string) (i : nat) (l : list Element) : option path :=
  match l with
  | [] => None
  | c :: l' =>
      if has_tag t c then Some [i]
      else
        match first_desc t c with
        | Some p => Some (i :: p)
        | None => first_from t (S i) l'
        end
  end.

End Descendants.

(** ** Data of the examples *)

Module Examples.
Import Concrete.

(** The texture coordinate [k/1024]. *)
Definition texel (k : nat) : float := (float_of_nat k / 1024)%float.

(** A vertex record with a position and, when [n] is given, a normal. *)
Definition vertex_record (x y z : string) (n : option (string * string * string))
    : Element :=
  node "vertex" []
    (node "position" [("x", x); ("y", y); ("z", z)] [] ::
     match n with
     | Some (nx, ny, nz) => [node "normal" [("x", nx); ("y", ny); ("z", nz)] []]
     | None => []
     end).

Definition face (v1 v2 v3 : string) : Element :=
  node "face" [("v1", v1); ("v2", v2); ("v3", v3)] [].

(** A mesh of one submesh with local geometry: one vertexbuffer declaring
    positions and normals, and the given faces. *)
Definition mesh_of (vertices faces : list Element) : Element :=
  node "mesh" []
    [node "submeshes" []
       [node "submesh" [("material", "m"); ("usesharedvertices", "false")]
          [node "faces" [] faces;
           node "geometry" []
             [node "vertexbuffer" [("positions", "true"); ("normals", "true")]
                vertices]]]].

(** The triangle (0,0,0), (1,0,0), (0,1,0), its normals pointing elsewhere. *)
Definition single_triangle : Element :=
  mesh_of
    [vertex_record "0" "0" "0" (Some ("1", "0", "0"));
     vertex_record "1" "0" "0" (Some ("1", "0", "0"));
     vertex_record "0" "1" "0" (Some ("1", "0", "0"))]
    [face "0" "1" "2"].

Definition up : option (string * string * string) :=
  Some ("0.000000", "0.000000", "1.000000").

Definition single_triangle_recalculated : Element :=
  mesh_of
    [vertex_record "0" "0" "0" up;
     vertex_record "1" "0" "0" up;
     vertex_record "0" "1" "0" up]
    [face "0" "1" "2"].

(** A geometry block of two vertices in two fragments.  The first fragment
    declares positions and normals: it supplies both positions and a normal
    for vertex 0.  The second declares normals only and supplies another
    normal for vertex 0.  No fragment has a texture coordinate. *)
Definition two_fragments : Element :=
  node "geometry" [("vertexcount", "2")]
    [node "vertexbuffer" [("positions", "true"); ("normals", "true")]
       [vertex_record "1" "2" "3" (Some ("1", "0", "0"));
        vertex_record "4" "5" "6" None];
     node "vertexbuffer" [("normals", "true")]
       [node "vertex" [] [node "normal" [("x", "0"); ("y", "0"); ("z", "1")] []]]].

(** A geometry block of [n] vertices given by their positions. *)
Definition positions_block (t : string) (ps : list (string * string * string))
    : Element :=
  node t [("vertexcount", str_int (Z.of_nat (length ps)))]
    [node "vertexbuffer" [("positions", "true")]
       (List.map (fun '(x, y, z) => vertex_record x y z None) ps)].

Definition local_submesh (g : Element) (fs : list Element) : Element :=
  node "submesh" [("usesharedvertices", "false")] [node "faces" [] fs; g].

(** A shared block of N = 2 vertices, then a submesh with a local block of
    M1 = 1 vertex and a submesh with a local block of M2 = 3 vertices. *)
Definition shared_block : Element :=
  positions_block "sharedgeometry" [("0", "0", "0"); ("1", "0", "0")].
Definition local_block_1 : Element :=
  positions_block "geometry" [("2", "0", "0")].
Definition local_block_2 : Element :=
  positions_block "geometry" [("3", "0", "0"); ("3", "1", "0"); ("3", "0", "1")].
Definition submesh_1 : Element := local_submesh local_block_1 [face "0" "0" "0"].
Definition submesh_2 : Element := local_submesh local_block_2 [face "0" "1" "2"].
Definition shared_and_two_local : Element :=
  node "mesh" [] [shared_block; node "submeshes" [] [submesh_1; submesh_2]].

(** A mesh of two submeshes: the block of the first has three vertices with
    normals, the block of the second is empty (no vertex, so no normal). *)
Definition empty_block : Element := node "geometry" [("vertexcount", "0")] [].
Definition normals_block : Element :=
  node "geometry" [("vertexcount", "3")]
    [node "vertexbuffer" [("positions", "true"); ("normals", "true")]
       [vertex_record "0" "0" "0" (Some ("0", "0", "1"));
        vertex_record "1" "0" "0" (Some ("0", "0", "1"));
        vertex_record "0" "1" "0" (Some ("0", "0", "1"))]].
Definition with_empty_block : Element :=
  node "mesh" []
    [node "submeshes" []
       [local_submesh normals_block [face "0" "1" "2"];
        local_submesh empty_block []]].

(** The same mesh when the second block has one vertex and no normal. *)
Definition bare_block : Element := positions_block "geometry" [("5", "5", "5")].
Definition with_bare_block : Element :=
  node "mesh" []
    [node "submeshes" []
       [local_submesh normals_block [face "0" "1" "2"];
        local_submesh bare_block [face "0" "0" "0"]]].

(** The triangle again, in a vertexbuffer that also carries texture
    coordinates; its second vertex has no normal field yet. *)
Definition textured_vertex (x y z u v : string) (n : option (string * string * string))
    : Element :=
  node "vertex" []
    (node "position" [("x", x); ("y", y); ("z", z)] [] ::
     node "texcoord" [("u", u); ("v", v)] [] ::
     match n with
     | Some (nx, ny, nz) => [node "normal" [("x", nx); ("y", ny); ("z", nz)] []]
     | None => []
     end).

Definition textured_triangle (n0 n1 n2 : option (string * string * string)) : Element :=
  node "mesh" []
    [node "submeshes" []
       [node "submesh" [("material", "m"); ("usesharedvertices", "false")]
          [node "faces" [("count", "1")] [face "0" "1" "2"];
           node "geometry" [("vertexcount", "3")]
             [node "vertexbuffer"
                [("positions", "true"); ("normals", "true"); ("texture_coords", "1")]
                [textured_vertex "0" "0" "0" "0" "0" n0;
                 textured_vertex "1" "0" "0" "1" "0" n1;
                 textured_vertex "0" "1" "0" "0" "1" n2]]]]].

(** A submesh whose block has two vertexbuffers: the first declares the
    positions, the second one the normals. *)
Definition split_buffers_submesh : Element :=
  node "submesh" [("usesharedvertices", "false")]
    [node "faces" [] [face "0" "1" "2"];
     node "geometry" [("vertexcount", "3")]
       [node "vertexbuffer" [("positions", "true")]
          [vertex_record "0" "0" "0" None;
           vertex_record "1" "0" "0" None;
           vertex_record "0" "1" "0" None];
        node "vertexbuffer" [("normals", "true")]
          [node "vertex" [] [node "normal" [("x", "1"); ("y", "0"); ("z", "0")] []];
           node "vertex" [] [node "normal" [("x", "1"); ("y", "0"); ("z", "0")] []];
           node "vertex" [] [node "normal" [("x", "1"); ("y", "0"); ("z", "0")] []]]]].

Definition split_buffers : Element :=
  node "mesh" [] [node "submeshes" [] [split_buffers_submesh]].

(** The same block when the first vertexbuffer declares normals as well: the
    pass works on it, and the second vertexbuffer keeps its normals. *)
Definition two_buffers_submesh : Element :=
  node "submesh" [("usesharedvertices", "false")]
    [node "faces" [] [face "0" "1" "2"];
     node "geometry" [("vertexcount", "3")]
       [node "vertexbuffer" [("positions", "true"); ("normals", "true")]
          [vertex_record "0" "0" "0" None;
           vertex_record "1" "0" "0" None;
           vertex_record "0" "1" "0" None];
        node "vertexbuffer" [("normals", "true")]
          [node "vertex" [] [node "normal" [("x", "1"); ("y", "0"); ("z", "0")] []]]]].

Definition two_buffers : Element :=
  node "mesh" [] [node "submeshes" [] [two_buffers_submesh]].

Definition start (tree : Element) : RecalcNormals.State :=
  {| RecalcNormals.root := tree;
     RecalcNormals.total_vertices_processed := 0;
     RecalcNormals.printed := [] |}.

(** The triangle with one more face whose first index is negative. *)
Definition triangle_vertices : list Element :=
  [vertex_record "0" "0" "0" (Some ("1", "0", "0"));
   vertex_record "1" "0" "0" (Some ("1", "0", "0"));
   vertex_record "0" "1" "0" (Some ("1", "0", "0"))].

Definition triangle_positions : list Vector3.t :=
  [Vector3.mk 0 0 0; Vector3.mk 1 0 0; Vector3.mk 0 1 0].

Definition with_index_before_start : Element :=
  mesh_of triangle_vertices [face "-4" "0" "1"; face "0" "1" "2"].

(** The triangle and a fourth vertex that no face uses and that has no
    normal field. *)
Definition with_loose_vertex (n : option (string * string * string)) : Element :=
  mesh_of
    [vertex_record "0" "0" "0" n;
     vertex_record "1" "0" "0" n;
     vertex_record "0" "1" "0" n;
     vertex_record "5" "5" "5" None]
    [face "0" "1" "2"].

End Examples.

(** ** The blocks of a mesh and what they contribute *)

Module Blocks.
Import MeshToObj MergeSpec.

(** The merged sequences of one block. *)
Definition Contribution : Type := list vec3 * list vec3 * list vec2.

Definition verts_of (c : Contribution) : list vec3 := c.1.1.
Definition norms_of (c : Contribution) : list vec3 := c.1.2.
Definition texs_of (c : Contribution) : list vec2 := c.2.

Section WithBuiltins.
Context `{PyBuiltins}.

(** The contributions of the blocks [gs], in order. *)
Fixpoint block_contributions (gs : list Element) : res (list Contribution) :=
  match gs with
  | [] => Ok []
  | g :: gs' =>
      c ← block_contribution g;
      cs ← block_contributions gs';
      Ok (c :: cs)
  end.

(** The size of the block [og], 0 when there is none. *)
Definition size_or_zero (og : option Element) : nat :=
  match og with
  | Some g => match block_size g with Ok n => n | Raise _ => 0%nat end
  | None => 0%nat
  end.

End WithBuiltins.

(** The elements [submesh] that [parse_mesh_xml] visits, in order. *)
Definition submesh_elems (root : Element) : list Element :=
  match find root "submeshes" with
  | Some submeshes => findall submeshes "submesh"
  | None => []
  end.

(** The block the faces of a submesh index: the shared one, or its own. *)
Definition indexed_block (root sm : Element) : option Element :=
  if flag sm "usesharedvertices" then find root "sharedgeometry"
  else find sm "geometry".

(** The three indices of a face lie in [lo, hi). *)
Definition within (lo hi : Z) (f : Z * Z * Z) : Prop :=
  let '(v1, v2, v3) := f in
  (lo <= v1 < hi) /\ (lo <= v2 < hi) /\ (lo <= v3 < hi).

(** The local block of a submesh, when it has one that is merged. *)
Definition local_block (sm : Element) : option Element :=
  if flag sm "usesharedvertices" then None else find sm "geometry".

(** A block with vertices has normals (texture coordinates). *)
Definition with_normals (c : Contribution) : Prop :=
  verts_of c <> [] -> norms_of c <> [].
Definition with_uvs (c : Contribution) : Prop :=
  verts_of c <> [] -> texs_of c <> [].

Section WellIndexed.
Context `{PyBuiltins}.

(** The faces of a submesh, as the file has them, index vertices of its
    block. *)
Definition well_indexed (root sm : Element) : Prop :=
  forall srcs,
    submesh_source_faces sm = Ok srcs ->
    Forall (within 0 (Z.of_nat (size_or_zero (indexed_block root sm)))) srcs.

End WellIndexed.

(** The name of the material of the submesh at position [idx]. *)
Definition material_of (idx : nat) (sm : Element) : string :=
  get_default sm "material" ("material_" ++ str_int (Z.of_nat idx)).

(** The attributes that hold the indices of a face, in the order they are
    read. *)
Definition index_keys : list string := ["v1"; "v2"; "v3"].

End Blocks.


(** ** The lines of the written OBJ file, by kind *)

Module ObjLines.
Import MeshToObj.

(** [s.startswith(p)] *)
Fixpoint starts_with (p s : string) : bool :=
  match p, s with
  | EmptyString, _ => true
  | String a p', String b s' => Ascii.eqb a b && starts_with p' s'
  | String _ _, EmptyString => false
  end.


(** [sum(len(sm['faces']) for sm in self.submeshes)] *)
Definition total_faces (self : OgreXMLToOBJ) : nat :=
  fold_left (fun n sm => (n + length (faces sm))%nat) (submeshes self) 0%nat.


End ObjLines.

(** ** The vocabulary of the properties of the accumulators *)

Module AccSpec.
Import RecalcNormals.

Section WithBuiltins.
Context `{PyBuiltins}.

(** None of the three indices of a face is below [lo]. *)
Definition no_index_below (lo : Z) (face : Element) : Prop :=
  forall k v, In k ["v1"; "v2"; "v3"] -> int_attr0 face k = Ok v -> lo <= v.

End WithBuiltins.

(** The number of vertices that some counted face touches. *)
Definition touched (counts : list nat) : nat :=
  length (List.filter (fun c => (0 <? c)%nat) counts).

(** The accumulators are as long as the vertex list, the counts add up to
    three per counted face, and each of the [seen] faces met so far was
    counted or reported. *)
Definition consistent (n seen : nat) (a : Acc) : Prop :=
  length (vertex_normals a) = n /\
  length (vertex_face_count a) = n /\
  sum_list (vertex_face_count a) = (3 * face_count a)%nat /\
  (face_count a + length (warnings a))%nat = seen.

End AccSpec.

(** ** Trees on which the recalculation raises nothing *)

Module TreeSpec.

Section WithBuiltins.
Context `{PyBuiltins}.

(** [float(e.get(k, 0))] returns. *)
Definition converts (e : Element) (k : string) : bool :=
  match float_attr e k with
  | Ok _ => true
  | Raise _ => false
  end.

(** The index [k] of a face is not a negative integer. *)
Definition not_negative (face : Element) (k : string) : bool :=
  match int_attr0 face k with
  | Ok v => 0 <=? v
  | Raise _ => true
  end.

(** What the pass needs of an element: the coordinates of a [position]
    convert, and a [face] has no negative index. *)
Definition sound (e : Element) : bool :=
  (if String.eqb (tag e) "position"
   then converts e "x" && converts e "y" && converts e "z" else true)
  && (if String.eqb (tag e) "face"
      then not_negative e "v1" && not_negative e "v2" && not_negative e "v3"
      else true).

(** [int(e.get(k))] returns. *)
Definition has_int (e : Element) (k : string) : bool :=
  match int_attr e k with
  | Ok _ => true
  | Raise _ => false
  end.

(** [[None] * n] returns: [n] fits an index-sized integer, and the list is
    empty or the allocator grants it. *)
Definition granted (n : Z) : bool :=
  (- 2 ^ 63 <=? n) && (n <? 2 ^ 63) && ((n <=? 0) || allocates n).

(** What the exporter needs of an element: the coordinates of a [position],
    of a [normal] and of a texture coordinate convert, the vertex count of a
    geometry block (its [vertexcount], which is an integer when it is there,
    or else the number of vertex records of its first vertexbuffer) is one
    whose lists are granted, the [texture_coords] of a vertexbuffer
    converts, and a [face] has its three integer indices. *)
Definition readable (e : Element) : bool :=
  (if String.eqb (tag e) "position" || String.eqb (tag e) "normal"
   then converts e "x" && converts e "y" && converts e "z" else true)
  && (if String.prefix "texcoord" (tag e)
      then converts e "u" && converts e "v" else true)
  && (if String.eqb (tag e) "geometry" || String.eqb (tag e) "sharedgeometry"
      then match MeshToObj.vertex_count_of e with
           | Ok (Some n) => granted n
           | Ok None => true
           | Raise _ => false
           end
      else true)
  && (if String.eqb (tag e) "vertexbuffer"
      then match MeshToObj.tex_coords_of e with Ok _ => true | Raise _ => false end
      else true)
  && (if String.eqb (tag e) "face"
      then has_int e "v1" && has_int e "v2" && has_int e "v3" else true).

End WithBuiltins.

(** [P] holds of an element and of all its descendants. *)
Fixpoint all_elements (P : Element -> bool) (e : Element) : bool :=
  match e with
  | Elem _ _ _ _ cs => P e && forallb (all_elements P) cs
  end.

End TreeSpec.

(** ** MeshToObj.py: write_mtl and convert *)

Module Materials.
Import MeshToObj.

(** What the two methods use of [pathlib] and [os.path], and of the files
    on disk: [rglob pattern] is what [Path.cwd().rglob(pattern)] yields, in
    order, and [relpath path start] is [os.path.relpath(path, start)]. *)
Class PyPaths := {
  stem : string -> string;
  name : string -> string;
  parent : string -> string;
  with_suffix : string -> string -> string;
  rglob : string -> list string;
  relpath : string -> string -> string
}.

(** Suffix to MTL map type, in the order of the dictionary. *)
Definition suffix_to_map : list (string * string) :=
  [("_d", "map_Kd"); ("_e", "map_Ke"); ("_n", "map_Bump"); ("_s", "map_Ks")].

Definition exts : list string :=
  [".tga"; ".png"; ".jpg"; ".jpeg"; ".dds"; ".tif"; ".tiff"; ".bmp"].

(** [if tex:] on a value that is [None] or a string. *)
Definition truthy (tex : option (option string)) : option string :=
  match tex with
  | Some (Some s) => if ObjFormat.nonempty s then Some s else None
  | _ => None
  end.

Section WithPaths.
Context `{PyPaths}.

(** [find_tex]: the loop over the extensions; the inner loop returns at the
    first path. *)
Fixpoint find_tex_in (output_file base_name suffix : string) (exts : list string)
    : option string :=
  match exts with
  | [] => None
  | ext :: exts' =>
      match rglob (base_name ++ suffix ++ ext) with
      | path :: _ => Some (relpath path (parent output_file))
      | [] => find_tex_in output_file base_name suffix exts'
      end
  end.

Definition find_tex (output_file base_name suffix : string) : option string :=
  find_tex_in output_file base_name suffix exts.

(** [{suffix: find_tex(suffix) for suffix in suffix_to_map.keys()}] *)
Definition found_textures (output_file base_name : string)
    : gmap string (option string) :=
  list_to_map
    (List.map (fun '(suffix, _) => (suffix, find_tex output_file base_name suffix))
       suffix_to_map).

(** [for suffix, map_key in suffix_to_map.items()] *)
Definition write_textures (found : gmap string (option string)) (f : list string)
    : list string :=
  fold_left
    (fun f '(suffix, map_key) =>
       match truthy (found !! suffix) with
       | Some tex => write f (map_key ++ " " ++ tex ++ nl)
       | None => f
       end)
    suffix_to_map f.

(** The body of the loop over [self.submeshes]. *)
Definition write_material (found : gmap string (option string)) (submesh : Submesh)
    (f : list string) : list string :=
  let mat_name := material submesh in
  let f := write f ("newmtl " ++ mat_name ++ nl) in
  let f := write f ("Ka 1.0 1.0 1.0" ++ nl) in
  let f := write f ("Kd 0.8 0.8 0.8" ++ nl) in
  let f := write f ("Ks 0.5 0.5 0.5" ++ nl) in
  let f := write f ("Ns 32.0" ++ nl) in
  let f := write f ("d 1.0" ++ nl) in
  let f := write f ("illum 2" ++ nl) in
  let f := write_textures found f in
  write f nl.

(** [write_mtl]: the strings written to [output_file]. *)
Definition write_mtl (self : OgreXMLToOBJ) (output_file : string) : list string :=
  let base_name := stem output_file in
  let found_textures := found_textures output_file base_name in
  let f := [] in
  let f := write f ("# Material library for Ogre mesh" ++ nl ++ nl) in
  fold_left (fun f submesh => write_material found_textures submesh f) (submeshes self) f.

(** The files [convert] writes: the material library, if any, with its
    path, and the OBJ file. *)
Record Written := {
  mtl : option (string * list string);
  obj : list string
}.



End WithPaths.



End Materials.

(** ** MeshToObj.py, main: the name of the OBJ file in batch mode *)

Module BatchNames.

(** [s.replace(old, new)] for a non-empty [old]: the occurrences of [old] are
    replaced from the left, without overlap; [skip] counts the characters of
    an occurrence that are still to be passed over. *)
Fixpoint replace_from (old new : string) (skip : nat) (s : string) : string :=
  match s with
  | EmptyString => EmptyString
  | String c s' =>
      match skip with
      | S k => replace_from old new k s'
      | O =>
          if ObjLines.starts_with old s
          then new ++ replace_from old new (String.length old - 1) s'
          else String c (replace_from old new 0 s')
      end
  end.

Definition replace (old new s : string) : string := replace_from old new 0 s.

(** [xml_path.name.replace('.mesh.xml', '.obj').replace('.xml', '.obj')] *)
Definition obj_name (name : string) : string :=
  replace ".xml" ".obj" (replace ".mesh.xml" ".obj" name).

End BatchNames.

(** ** More data for the examples *)

Module Samples.
Import Concrete Examples.

(** A fragment of two well-formed vertex records, and the same fragment with
    a third record whose position is not a number. *)
Definition fragment_of_two : Element :=
  node "vertexbuffer" [("positions", "true")]
    [vertex_record "1" "2" "3" None; vertex_record "4" "5" "6" None].
Definition fragment_with_bad_third : Element :=
  node "vertexbuffer" [("positions", "true")]
    [vertex_record "1" "2" "3" None; vertex_record "4" "5" "6" None;
     vertex_record "abc" "0" "0" None].

(** A block that declares no vertex and still holds a malformed record. *)
Definition block_of_none : Element :=
  node "geometry" [("vertexcount", "-1")]
    [node "vertexbuffer" [("positions", "true"); ("normals", "true")]
       [vertex_record "abc" "0" "0" (Some ("x", "y", "z"))]].

(** Four faces on the triangle: the second has an index beyond the last
    vertex and the third an index that is not a number. *)
Definition mixed_faces : list Element :=
  [face "0" "1" "2"; face "0" "1" "7"; face "0" "x" "2"; face "2" "1" "0"].

(** The vertexbuffer of the triangle, and two faces on it: one with an index
    that counts from the end, one with an index beyond the last vertex. *)
Definition triangle_buffer : Element :=
  node "vertexbuffer" [("positions", "true"); ("normals", "true")] triangle_vertices.
Definition wrapping_faces : list Element :=
  [face "-1" "0" "1"; face "0" "1" "9"].

(** A flat directory of texture files, for plain file names with one
    extension: a pattern matches the files of that name. *)
Definition texture_files : list string := ["tank_d.png"; "tank_d.tga"; "tank_n.png"].

Fixpoint before_last_dot (s : string) : string :=
  match s with
  | EmptyString => EmptyString
  | String c s' =>
      if ObjFormat.absent "." s' then
        if Ascii.eqb c "." then EmptyString else String c (before_last_dot s')
      else String c (before_last_dot s')
  end.

Definition flat_directory : Materials.PyPaths :=
  {| Materials.stem := before_last_dot;
     Materials.name := fun p => p;
     Materials.parent := fun _ => ".";
     Materials.with_suffix := fun p suffix => (before_last_dot p ++ suffix)%string;
     Materials.rglob := fun pattern => List.filter (String.eqb pattern) texture_files;
     Materials.relpath := fun path _ => path |}.

(** A converter holding one submesh record. *)
Definition one_material : MeshToObj.OgreXMLToOBJ :=
  {| MeshToObj.vertices := []; MeshToObj.normals := []; MeshToObj.uvs := [];
     MeshToObj.submeshes :=
       [{| MeshToObj.material := "hull"; MeshToObj.faces := []; MeshToObj.index := 0 |}] |}.

(** A face element that lacks its third index, and one without indices. *)
Definition face_without_v3 : Element := node "face" [("v1", "0"); ("v2", "1")] [].
Definition face_without_indices : Element := node "face" [] [].

End Samples.

(** * Properties *)

(** ** The error monad *)

Lemma bind_Ok {A B} (m : res A) (k : A -> res B) (b : B) :
  m ≫= k = Ok b <-> exists a, m = Ok a /\ k a = Ok b.
Proof.
  destruct m as [a|e]; simpl; split.
  - intros Hk. exists a. auto.
  - intros (a' & Ha & Hk). congruence.
  - discriminate.
  - intros (a' & Ha & _). discriminate.
Qed.

Lemma of_option_Ok {A} (e : exn) (o : option A) (a : A) :
  of_option e o = Ok a <-> o = Some a.
Proof. destruct o; simpl; split; congruence. Qed.

(** Splits the hypotheses that a sequence of calls returned. *)
Ltac inv_res :=
  repeat
    match goal with
    | H : Ok _ = Ok _ |- _ => injection H as H
    | H : Raise _ = Ok _ |- _ => discriminate H
    | H : _ ≫= _ = Ok _ |- _ =>
        let a := fresh "r" in
        let Ha := fresh "Hr" in
        apply bind_Ok in H; destruct H as (a & Ha & H)
    | H : of_option _ _ = Ok _ |- _ => apply of_option_Ok in H
    | H : (_, _) = (_, _) |- _ => injection H as ? ?
    end.

(** ** Floats *)

Lemma SFcompare_antisym (a b : spec_float) :
  SFcompare b a = option_map CompOpp (SFcompare a b).
Proof.
  destruct a as [sa|sa| |sa ma ea], b as [sb|sb| |sb mb eb]; simpl;
    try (destruct sa; reflexivity); try (destruct sb; reflexivity);
    try (destruct sa, sb; reflexivity); try reflexivity.
  change (PosDef.Pos.compare_cont Eq mb ma) with (Pos.compare mb ma).
  change (PosDef.Pos.compare_cont Eq ma mb) with (Pos.compare ma mb).
  rewrite (Z.compare_antisym eb ea), (Pos.compare_antisym mb ma).
  destruct sa, sb; simpl; try reflexivity;
    destruct (eb ?= ea)%Z; simpl; try reflexivity;
    destruct (mb ?= ma)%positive; reflexivity.
Qed.

(** At or below a bound is not above it. *)
Lemma leb_true_ltb_false (a b : float) :
  (a <=? b)%float = true -> (b <? a)%float = false.
Proof.
  rewrite leb_spec, ltb_spec. unfold SFleb, SFltb.
  rewrite (SFcompare_antisym (Prim2SF a) (Prim2SF b)).
  destruct (SFcompare (Prim2SF a) (Prim2SF b)) as [[]|]; simpl; congruence.
Qed.

(** ** Texture coordinates: the V flip (C5) *)

Section TexcoordFlip.
Context `{PyBuiltins}.
Import MeshToObj.

Lemma merge_vertex_local_uvs_length hp hn ht i vertex b b' :
  merge_vertex hp hn ht i vertex b = Ok b' ->
  length (local_uvs b') = length (local_uvs b).
Proof.
  unfold merge_vertex. intros Hm. inv_res.
  assert (Hb1 : local_uvs r = local_uvs b).
  { destruct hp; [destruct (find vertex "position")|]; inv_res; subst; reflexivity. }
  assert (Hb2 : local_uvs r0 = local_uvs r).
  { destruct hn; [destruct (find vertex "normal")|]; inv_res; subst; reflexivity. }
  destruct ht; [destruct (find_texcoord vertex)|]; inv_res; subst; simpl;
    rewrite ?length_insert, Hb2, Hb1; reflexivity.
Qed.

(** What the merger stores for a vertex record with a texture coordinate,
    when the fragment declares texture coordinates. *)
Lemma merge_vertex_stores_uv hp hn i vertex texcoord b b' :
  find_texcoord vertex = Some texcoord ->
  (i < length (local_uvs b))%nat ->
  merge_vertex hp hn true i vertex b = Ok b' ->
  exists u v,
    float_attr texcoord "u" = Ok u /\ float_attr texcoord "v" = Ok v /\
    local_uvs b' !! i = Some (Some (u, (1.0 - v)%float)).
Proof.
  intros Hfind Hi Hm. unfold merge_vertex in Hm. inv_res.
  assert (Hb1 : local_uvs r = local_uvs b).
  { destruct hp; [destruct (find vertex "position")|]; inv_res; subst; reflexivity. }
  assert (Hb2 : local_uvs r0 = local_uvs r).
  { destruct hn; [destruct (find vertex "normal")|]; inv_res; subst; reflexivity. }
  rewrite Hfind in Hm. inv_res. unfold read_uv in Hr1. inv_res. subst.
  exists r2, r3. repeat split; auto. simpl.
  apply list_lookup_insert_eq. rewrite Hb2, Hb1. exact Hi.
Qed.

End TexcoordFlip.

(** On the coordinates [k/1024] both subtractions are exact. *)
Lemma flip_v_texel (k : nat) :
  (k <= 1024)%nat ->
  MeshToObj.flip_v (MeshToObj.flip_v (Examples.texel k)) = Examples.texel k.
Proof.
  intros Hk.
  assert (Hall : forallb
            (fun k => PrimFloat.Leibniz.eqb
                        (MeshToObj.flip_v (MeshToObj.flip_v (Examples.texel k)))
                        (Examples.texel k))
            (seq 0 1025) = true) by (vm_compute; reflexivity).
  rewrite forallb_forall in Hall.
  apply FloatAxioms.Leibniz.eqb_spec, Hall, in_seq. lia.
Qed.

(** *** Floats of the same value *)

Section ExactFloats.
Import Exact.

Lemma digits2_pos_log2 m : Z.pos (SpecFloat.digits2_pos m) = Z.log2 (Z.pos m) + 1.
Proof.
  assert (Hsize : forall p, SpecFloat.digits2_pos p = Pos.size p).
  { induction p; simpl; congruence. }
  destruct m; simpl; rewrite ?Hsize; lia.
Qed.

Lemma bounded_exponent m e :
  SpecFloat.bounded prec emax m e = true ->
  e = Z.max (Z.log2 (Z.pos m) + 1 + e - 53) (- 1074) /\ 0 <= e + 1074.
Proof.
  unfold SpecFloat.bounded, SpecFloat.canonical_mantissa, SpecFloat.fexp,
    SpecFloat.emin, prec, emax.
  intros Hb. apply andb_true_iff in Hb. destruct Hb as [Hb _].
  apply Z.eqb_eq in Hb. rewrite digits2_pos_log2 in Hb. lia.
Qed.

(** A value has one canonical mantissa and exponent. *)
Lemma canonical_unique m1 e1 m2 e2 :
  SpecFloat.bounded prec emax m1 e1 = true ->
  SpecFloat.bounded prec emax m2 e2 = true ->
  Z.pos m1 * 2 ^ (e1 + 1074) = Z.pos m2 * 2 ^ (e2 + 1074) ->
  m1 = m2 /\ e1 = e2.
Proof.
  intros H1 H2 Heq.
  destruct (bounded_exponent _ _ H1) as [He1 Hp1].
  destruct (bounded_exponent _ _ H2) as [He2 Hp2].
  assert (Hlog : Z.log2 (Z.pos m1) + e1 = Z.log2 (Z.pos m2) + e2).
  { pose proof (Z.log2_mul_pow2 (Z.pos m1) (e1 + 1074) ltac:(lia) Hp1) as L1.
    pose proof (Z.log2_mul_pow2 (Z.pos m2) (e2 + 1074) ltac:(lia) Hp2) as L2.
    rewrite Heq in L1. lia. }
  assert (e1 = e2) by lia. subst e2. split; [|reflexivity].
  apply Z.mul_cancel_r in Heq; [congruence|].
  apply Z.pow_nonzero; lia.
Qed.

Lemma finite_bounded x s m e :
  Prim2SF x = S754_finite s m e -> SpecFloat.bounded prec emax m e = true.
Proof.
  intros Hx. pose proof (FloatAxioms.Prim2SF_valid x) as Hv.
  rewrite Hx in Hv. exact Hv.
Qed.

Lemma finite_scaled_pos x s m e :
  Prim2SF x = S754_finite s m e -> 0 < Z.pos m * 2 ^ (e + 1074).
Proof.
  intros Hx. destruct (bounded_exponent _ _ (finite_bounded _ _ _ _ Hx)) as [_ He].
  apply Z.mul_pos_pos; [lia|]. apply Z.pow_pos_nonneg; lia.
Qed.

Lemma scaled_zero x : scaled x = Some 0 -> exists s, Prim2SF x = S754_zero s.
Proof.
  unfold scaled. destruct (Prim2SF x) as [s| | |s m e] eqn:Hx; try discriminate.
  - eauto.
  - intros Hz. injection Hz as Hz. pose proof (finite_scaled_pos _ _ _ _ Hx).
    destruct s; lia.
Qed.

(** Two finite floats of the same value are equal for [==]; they are the
    same float unless the value is zero. *)
Lemma scaled_inj x y z :
  scaled x = Some z -> scaled y = Some z ->
  (x =? y)%float = true /\ (z <> 0 -> x = y).
Proof.
  intros Hx Hy. rewrite FloatAxioms.eqb_spec.
  destruct (Z.eq_dec z 0) as [->|Hz].
  - destruct (scaled_zero _ Hx) as [sx Hsx]. destruct (scaled_zero _ Hy) as [sy Hsy].
    rewrite Hsx, Hsy. split; [reflexivity|congruence].
  - unfold scaled in Hx, Hy.
    destruct (Prim2SF x) as [sx| | |sx mx ex] eqn:Hpx; try discriminate;
      [congruence|].
    destruct (Prim2SF y) as [sy| | |sy my ey] eqn:Hpy; try discriminate;
      [congruence|].
    injection Hx as Hx. injection Hy as Hy.
    pose proof (finite_scaled_pos _ _ _ _ Hpx).
    pose proof (finite_scaled_pos _ _ _ _ Hpy).
    assert (sx = sy) by (destruct sx, sy; lia). subst sy.
    assert (Hm : Z.pos mx * 2 ^ (ex + 1074) = Z.pos my * 2 ^ (ey + 1074))
      by (destruct sx; lia).
    destruct (canonical_unique _ _ _ _ (finite_bounded _ _ _ _ Hpx)
                (finite_bounded _ _ _ _ Hpy) Hm) as [-> ->].
    assert (Hxy : x = y) by (apply FloatAxioms.Prim2SF_inj; congruence).
    split; [|intros _; exact Hxy].
    unfold SFeqb, SFcompare. rewrite Z.compare_refl.
    replace (Pos.compare_cont Eq my my) with Eq
      by (symmetry; apply Pos.compare_cont_refl).
    destruct sx; reflexivity.
Qed.

Lemma exact_sub_value a b :
  exact_sub a b = true ->
  exists za zb, scaled a = Some za /\ scaled b = Some zb /\
    scaled (a - b) = Some (za - zb).
Proof.
  unfold exact_sub.
  destruct (scaled a) as [za|]; [|discriminate].
  destruct (scaled b) as [zb|]; [|discriminate].
  destruct (scaled (a - b)) as [zc|]; [|discriminate].
  intros Hz. apply Z.eqb_eq in Hz. subst. eauto.
Qed.

(** When neither subtraction rounds, two flips give the coordinate back. *)
Lemma flip_v_twice_exact v :
  exact_sub 1 v = true -> exact_sub 1 (MeshToObj.flip_v v) = true ->
  (MeshToObj.flip_v (MeshToObj.flip_v v) =? v)%float = true /\
  (v <> neg_zero -> MeshToObj.flip_v (MeshToObj.flip_v v) = v).
Proof.
  intros H1 H2.
  destruct (exact_sub_value _ _ H1) as (z1 & zv & Hz1 & Hzv & Hf).
  destruct (exact_sub_value _ _ H2) as (z1' & zf & Hz1' & Hzf & Hff).
  fold (MeshToObj.flip_v v) in Hf.
  fold (MeshToObj.flip_v (MeshToObj.flip_v v)) in Hff.
  assert (z1' = z1) by congruence. subst z1'.
  assert (zf = z1 - zv) by congruence. subst zf.
  replace (z1 - (z1 - zv)) with zv in Hff by lia.
  destruct (scaled_inj _ _ _ Hff Hzv) as [Heq Hsame].
  split; [exact Heq|]. intros Hneg.
  destruct (Z.eq_dec zv 0) as [->|Hnz]; [|auto].
  destruct (scaled_zero _ Hzv) as [s Hs].
  destruct s.
  - destruct Hneg. apply FloatAxioms.Prim2SF_inj. rewrite Hs. reflexivity.
  - assert (v = 0%float) as ->
      by (apply FloatAxioms.Prim2SF_inj; rewrite Hs; reflexivity).
    reflexivity.
Qed.

End ExactFloats.

(** C5, as the code has it: the texture coordinate the merger stores for a
    vertex has V equal to 1.0 minus the source V, in binary64 arithmetic.
    Whenever neither of the two subtractions rounds, the flip applied twice
    gives back a V equal to the original one, and the same float unless the
    original is -0.0; no subtraction rounds for the coordinates k/1024 of
    the unit interval. *)
Theorem texcoord_v_flipped `{PyBuiltins} hp hn i vertex texcoord b b' :
  MeshToObj.find_texcoord vertex = Some texcoord ->
  (i < length (MeshToObj.local_uvs b))%nat ->
  MeshToObj.merge_vertex hp hn true i vertex b = Ok b' ->
  (exists u v,
     float_attr texcoord "u" = Ok u /\ float_attr texcoord "v" = Ok v /\
     MeshToObj.local_uvs b' !! i = Some (Some (u, (1.0 - v)%float))) /\
  (forall k, (k <= 1024)%nat ->
     MeshToObj.flip_v (MeshToObj.flip_v (Examples.texel k)) = Examples.texel k) /\
  (forall v,
     Exact.exact_sub 1 v = true ->
     Exact.exact_sub 1 (MeshToObj.flip_v v) = true ->
     (MeshToObj.flip_v (MeshToObj.flip_v v) =? v)%float = true /\
     (v <> neg_zero -> MeshToObj.flip_v (MeshToObj.flip_v v) = v)).
Proof.
  intros Hfind Hi Hm. split; [|split].
  - eapply merge_vertex_stores_uv; eauto.
  - apply flip_v_texel.
  - apply flip_v_twice_exact.
Qed.

(** The theorem at the vertex record [<texcoord u="0.25" v="0.75"/>], and
    its last part at the coordinates 0.7 and 0.9, which are not of the form
    k/1024, and at -0.0, which comes back as 0.0. *)
Lemma texcoord_v_flipped_witness :
  exists b',
    MeshToObj.merge_vertex (H := Concrete.builtins) false false true 0
      (Concrete.node "vertex" []
         [Concrete.node "texcoord" [("u", "0.25"); ("v", "0.75")] []])
      (MeshToObj.empty_buffers 1) = Ok b' /\
    MeshToObj.local_uvs b' !! 0%nat = Some (Some (0.25, 0.25)%float) /\
    MeshToObj.flip_v (MeshToObj.flip_v 0.7) = 0.7%float /\
    MeshToObj.flip_v (MeshToObj.flip_v 0.9) = 0.9%float /\
    (MeshToObj.flip_v (MeshToObj.flip_v neg_zero) =? neg_zero)%float = true /\
    MeshToObj.flip_v (MeshToObj.flip_v neg_zero) = 0%float.
Proof.
  eexists. split; [reflexivity|].
  destruct (texcoord_v_flipped (H := Concrete.builtins) false false 0
              (Concrete.node "vertex" []
                 [Concrete.node "texcoord" [("u", "0.25"); ("v", "0.75")] []])
              (Concrete.node "texcoord" [("u", "0.25"); ("v", "0.75")] [])
              (MeshToObj.empty_buffers 1) _ eq_refl (le_n 1) eq_refl)
    as ((u & v & Hu & Hv & Hl) & _ & Hexact).
  vm_compute in Hu, Hv. injection Hu as <-. injection Hv as <-.
  split; [exact Hl|].
  split; [apply (Hexact 0.7%float); [reflexivity|reflexivity|discriminate]|].
  split; [apply (Hexact 0.9%float); [reflexivity|reflexivity|discriminate]|].
  split; [apply (Hexact neg_zero); reflexivity|reflexivity].
Defined.

(** C5 as stated fails: V = 0.1 read from the file comes back from two flips
    as 0.09999999999999998; the second subtraction rounds. *)
Lemma flip_v_not_involutive :
  exists v,
    py_float (PyBuiltins := Concrete.builtins) "0.1" = Some v /\
    MeshToObj.flip_v (MeshToObj.flip_v v) = 0.09999999999999998%float /\
    MeshToObj.flip_v (MeshToObj.flip_v v) <> v.
Proof.
  eexists. split; [reflexivity|]. split; [reflexivity|].
  vm_compute. discriminate.
Qed.

(** ** Face normals (C6) *)

Lemma normalize_fallback (v : Vector3.t) :
  (Vector3.length v <=? 0.000001)%float = true ->
  Vector3.normalize v = Vector3.mk 0 0 1.
Proof.
  intros Hle. unfold Vector3.normalize.
  rewrite (leb_true_ltb_false _ _ Hle). reflexivity.
Qed.

Lemma normalize_divides (v : Vector3.t) :
  (0.000001 <? Vector3.length v)%float = true ->
  Vector3.normalize v =
    Vector3.mk (Vector3.x v / Vector3.length v) (Vector3.y v / Vector3.length v)
               (Vector3.z v / Vector3.length v).
Proof. intros Hlt. unfold Vector3.normalize. rewrite Hlt. reflexivity. Qed.

(** C6: the face normal of p1, p2, p3 is the normalized cross product of
    p2 - p1 and p3 - p1, coordinate by coordinate in binary64 arithmetic:
    with a = p2 - p1, b = p3 - p1 and c = (ay bz - az by, az bx - ax bz,
    ax by - ay bx), it is c divided by its length sqrt(cx cx + cy cy + cz cz)
    when that length is above 1e-6, and the fallback (0,0,1), with no
    division, when it is at or below.  The triangle (0,0,0), (1,0,0),
    (0,1,0) has the face normal (0,0,1), and so has the same triangle moved
    to (1,2,3); the triangle (1,1,1), (1,1,3), (1,4,1) has (-1,0,0).  The
    recalculation of a mesh made of the first triangle averages (0,0,1) for
    each of its three vertices and writes 0.000000 0.000000 1.000000 into
    their normal fields; this is the tree that is saved. *)
Theorem face_normal_normalized_cross (p1 p2 p3 : Vector3.t) :
  let c := Vector3.cross (Vector3.sub p2 p1) (Vector3.sub p3 p1) in
  let ax := (Vector3.x p2 - Vector3.x p1)%float in
  let ay := (Vector3.y p2 - Vector3.y p1)%float in
  let az := (Vector3.z p2 - Vector3.z p1)%float in
  let bx := (Vector3.x p3 - Vector3.x p1)%float in
  let by_ := (Vector3.y p3 - Vector3.y p1)%float in
  let bz := (Vector3.z p3 - Vector3.z p1)%float in
  let cx := (ay * bz - az * by_)%float in
  let cy := (az * bx - ax * bz)%float in
  let cz := (ax * by_ - ay * bx)%float in
  let len := PrimFloat.sqrt (cx * cx + cy * cy + cz * cz) in
  RecalcNormals.calculate_face_normal p1 p2 p3 = Vector3.normalize c /\
  ((Vector3.length c <=? 0.000001)%float = true ->
   RecalcNormals.calculate_face_normal p1 p2 p3 = Vector3.mk 0 0 1) /\
  ((0.000001 <? Vector3.length c)%float = true ->
   RecalcNormals.calculate_face_normal p1 p2 p3 =
     Vector3.mk (Vector3.x c / Vector3.length c) (Vector3.y c / Vector3.length c)
                (Vector3.z c / Vector3.length c)) /\
  Vector3.sub p2 p1 = Vector3.mk ax ay az /\
  Vector3.sub p3 p1 = Vector3.mk bx by_ bz /\
  c = Vector3.mk cx cy cz /\
  Vector3.length c = len /\
  RecalcNormals.calculate_face_normal p1 p2 p3 =
    (if (0.000001 <? len)%float
     then Vector3.mk (cx / len) (cy / len) (cz / len)
     else Vector3.mk 0 0 1) /\
  RecalcNormals.calculate_face_normal
    (Vector3.mk 0 0 0) (Vector3.mk 1 0 0) (Vector3.mk 0 1 0) = Vector3.mk 0 0 1 /\
  RecalcNormals.calculate_face_normal
    (Vector3.mk 1 2 3) (Vector3.mk 2 2 3) (Vector3.mk 1 3 3) = Vector3.mk 0 0 1 /\
  RecalcNormals.calculate_face_normal
    (Vector3.mk 1 1 1) (Vector3.mk 1 1 3) (Vector3.mk 1 4 1) = Vector3.mk (-1) 0 0 /\
  (exists acc,
     RecalcNormals.accumulate (H := Concrete.builtins) Examples.triangle_positions
       [Examples.face "0" "1" "2"] (RecalcNormals.init_acc 3) = Ok acc /\
     List.map (fun '(n, k) => RecalcNormals.final_normal n k)
       (List.combine (RecalcNormals.vertex_normals acc)
          (RecalcNormals.vertex_face_count acc)) =
     [Vector3.mk 0 0 1; Vector3.mk 0 0 1; Vector3.mk 0 0 1]) /\
  (exists st,
     RecalcNormals.run (H := Concrete.builtins) Examples.single_triangle = Ok st /\
     RecalcNormals.root st = Examples.single_triangle_recalculated) /\
  (forall F : PyFiles,
     RecalcNormals.recalculate_normals (H := Concrete.builtins)
       Examples.single_triangle =
     RecalcNormals.save Examples.single_triangle_recalculated).
Proof.
  intros c ax ay az bx by_ bz cx cy cz len.
  split; [reflexivity|]. split; [apply normalize_fallback|].
  split; [apply normalize_divides|].
  do 5 (split; [reflexivity|]).
  split; [vm_compute; reflexivity|].
  split; [vm_compute; reflexivity|].
  split; [vm_compute; reflexivity|].
  split; [eexists; split; [vm_compute; reflexivity|vm_compute; reflexivity]|].
  assert (Hrun : RecalcNormals.run (H := Concrete.builtins) Examples.single_triangle =
                 Ok {| RecalcNormals.root := Examples.single_triangle_recalculated;
                       RecalcNormals.total_vertices_processed := 3;
                       RecalcNormals.printed := [] |})
    by (vm_compute; reflexivity).
  split; [eexists; split; [exact Hrun|reflexivity]|].
  intros F. unfold RecalcNormals.recalculate_normals. rewrite Hrun. reflexivity.
Qed.

(** The branches of the theorem are taken: a triangle collapsed to a point
    falls back to (0,0,1); the triangle of the claim moved to (1,2,3) has the
    edges (1,0,0) and (0,1,0) and is divided by the length 1 of their cross
    product. *)
Lemma face_normal_normalized_cross_witness :
  RecalcNormals.calculate_face_normal
    (Vector3.mk 2 2 2) (Vector3.mk 2 2 2) (Vector3.mk 2 2 2) = Vector3.mk 0 0 1 /\
  RecalcNormals.calculate_face_normal
    (Vector3.mk 1 2 3) (Vector3.mk 2 2 3) (Vector3.mk 1 3 3) =
    Vector3.mk (0 / 1) (0 / 1) (1 / 1) /\
  Vector3.sub (Vector3.mk 2 2 3) (Vector3.mk 1 2 3) = Vector3.mk 1 0 0 /\
  Vector3.sub (Vector3.mk 1 3 3) (Vector3.mk 1 2 3) = Vector3.mk 0 1 0.
Proof.
  split; [|split; [|split]].
  - destruct (face_normal_normalized_cross
                (Vector3.mk 2 2 2) (Vector3.mk 2 2 2) (Vector3.mk 2 2 2))
      as (_ & Hfallback & _).
    apply Hfallback. vm_compute. reflexivity.
  - destruct (face_normal_normalized_cross
                (Vector3.mk 1 2 3) (Vector3.mk 2 2 3) (Vector3.mk 1 3 3))
      as (_ & _ & Hdivide & _).
    rewrite Hdivide by (vm_compute; reflexivity). vm_compute. reflexivity.
  - destruct (face_normal_normalized_cross
                (Vector3.mk 1 2 3) (Vector3.mk 2 2 3) (Vector3.mk 1 3 3))
      as (_ & _ & _ & Hsub & _).
    rewrite Hsub. vm_compute. reflexivity.
  - destruct (face_normal_normalized_cross
                (Vector3.mk 1 2 3) (Vector3.mk 2 2 3) (Vector3.mk 1 3 3))
      as (_ & _ & _ & _ & Hsub & _).
    rewrite Hsub. vm_compute. reflexivity.
Defined.

(** ** The merger: one attribute at a time (C3, C4) *)

Section Merger.
Context `{PyBuiltins}.
Import MeshToObj MergeSpec.

(** What one vertex record does to the three containers. *)
Lemma merge_vertex_verts hp hn ht i vertex b b' :
  merge_vertex hp hn ht i vertex b = Ok b' ->
  match (if hp then find vertex "position" else None) with
  | Some e => exists a, read_xyz e = Ok a /\ local_verts b' = <[i := Some a]> (local_verts b)
  | None => local_verts b' = local_verts b
  end.
Proof.
  unfold merge_vertex. intros Hm. inv_res.
  assert (Hb2 : local_verts r0 = local_verts r).
  { destruct hn; [destruct (find vertex "normal")|]; inv_res; subst; reflexivity. }
  assert (Hb3 : local_verts b' = local_verts r0).
  { destruct ht; [destruct (find_texcoord vertex)|]; inv_res; subst; reflexivity. }
  rewrite Hb3, Hb2.
  destruct hp; [destruct (find vertex "position")|]; inv_res; subst; eauto.
Qed.

Lemma merge_vertex_normals hp hn ht i vertex b b' :
  merge_vertex hp hn ht i vertex b = Ok b' ->
  match (if hn then find vertex "normal" else None) with
  | Some e =>
      exists a, read_xyz e = Ok a /\
                local_normals b' = <[i := Some a]> (local_normals b)
  | None => local_normals b' = local_normals b
  end.
Proof.
  unfold merge_vertex. intros Hm. inv_res.
  assert (Hb1 : local_normals r = local_normals b).
  { destruct hp; [destruct (find vertex "position")|]; inv_res; subst; reflexivity. }
  assert (Hb3 : local_normals b' = local_normals r0).
  { destruct ht; [destruct (find_texcoord vertex)|]; inv_res; subst; reflexivity. }
  rewrite Hb3, <- Hb1.
  destruct hn; [destruct (find vertex "normal")|]; inv_res; subst; eauto.
Qed.

Lemma merge_vertex_uvs hp hn ht i vertex b b' :
  merge_vertex hp hn ht i vertex b = Ok b' ->
  match (if ht then find_texcoord vertex else None) with
  | Some e => exists a, read_uv e = Ok a /\ local_uvs b' = <[i := Some a]> (local_uvs b)
  | None => local_uvs b' = local_uvs b
  end.
Proof.
  unfold merge_vertex. intros Hm. inv_res.
  assert (Hb1 : local_uvs r = local_uvs b).
  { destruct hp; [destruct (find vertex "position")|]; inv_res; subst; reflexivity. }
  assert (Hb2 : local_uvs r0 = local_uvs r).
  { destruct hn; [destruct (find vertex "normal")|]; inv_res; subst; reflexivity. }
  rewrite <- Hb1, <- Hb2.
  destruct ht; [destruct (find_texcoord vertex)|]; inv_res; subst; eauto.
Qed.

(** The same argument serves the three attributes: [proj] is the container,
    [gate] the declaration of the fragment that opens it, [sub] the field of
    a vertex record and [read] its conversion. *)
Section Attribute.
Context {A : Type}.
Variable proj : Buffers -> list (option A).
Variable gate : bool -> bool -> bool -> bool.
Variable sub : Element -> option Element.
Variable read : Element -> res A.
Variable supplied : Element -> nat -> option Element.

Hypothesis step : forall hp hn ht i vertex b b',
  merge_vertex hp hn ht i vertex b = Ok b' ->
  match (if gate hp hn ht then sub vertex else None) with
  | Some e => exists a, read e = Ok a /\ proj b' = <[i := Some a]> (proj b)
  | None => proj b' = proj b
  end.

Hypothesis supplied_gate : forall vb t i,
  tex_coords_of vb = Ok t ->
  supplied vb i =
    if gate (flag vb "positions") (flag vb "normals") (0 <? t)
    then findall vb "vertex" !! i ≫= sub else None.

Lemma step_length hp hn ht i vertex b b' :
  merge_vertex hp hn ht i vertex b = Ok b' -> length (proj b') = length (proj b).
Proof.
  intros Hm. apply step in Hm.
  destruct (if gate hp hn ht then sub vertex else None).
  - destruct Hm as (a & _ & ->). apply length_insert.
  - rewrite Hm. reflexivity.
Qed.

Lemma merge_vertex_list_length hp hn ht vc i0 vs b b' :
  merge_vertex_list hp hn ht vc i0 vs b = Ok b' -> length (proj b') = length (proj b).
Proof.
  revert i0 b. induction vs as [|vertex vs IH]; intros i0 b Hm; simpl in Hm.
  - inv_res. subst. reflexivity.
  - destruct (vc <=? Z.of_nat i0); inv_res; subst; [reflexivity|].
    rewrite (IH _ _ Hm). eapply step_length; eauto.
Qed.

Lemma merge_vertex_list_attr hp hn ht vc i0 vs b b' i :
  merge_vertex_list hp hn ht vc i0 vs b = Ok b' ->
  Z.of_nat i < vc -> (i < length (proj b))%nat ->
  match supplied_from sub (gate hp hn ht) vs i0 i with
  | Some e => exists a, read e = Ok a /\ proj b' !! i = Some (Some a)
  | None => proj b' !! i = proj b !! i
  end.
Proof.
  revert i0 b. induction vs as [|vertex vs IH]; intros i0 b Hm Hi Hlen; simpl in Hm.
  - inv_res. subst. unfold supplied_from.
    destruct (gate hp hn ht); [|reflexivity].
    destruct (decide (i0 <= i)%nat); [|reflexivity].
    rewrite lookup_nil. reflexivity.
  - destruct (vc <=? Z.of_nat i0) eqn:Hbreak.
    + inv_res. subst. unfold supplied_from.
      destruct (gate hp hn ht); [|reflexivity].
      destruct (decide (i0 <= i)%nat); [lia|reflexivity].
    + inv_res.
      pose proof (step_length _ _ _ _ _ _ _ Hr) as Hlen'.
      pose proof (step _ _ _ _ _ _ _ Hr) as Hstep.
      specialize (IH (S i0) r Hm Hi ltac:(lia)).
      unfold supplied_from in *.
      destruct (gate hp hn ht).
      * destruct (decide (S i0 <= i)%nat) as [Hgt|Hle].
        { destruct (decide (i0 <= i)%nat); [|lia].
          replace (i - i0)%nat with (S (i - S i0)) by lia. simpl.
          destruct (vs !! (i - S i0)%nat ≫= sub); [exact IH|].
          rewrite IH.
          destruct (sub vertex); [destruct Hstep as (a & _ & ->)|rewrite Hstep];
            [apply list_lookup_insert_ne; lia|reflexivity]. }
        { destruct (decide (i0 <= i)%nat) as [Hge|Hlt].
          - assert (i = i0) by lia. subst i.
            replace (i0 - i0)%nat with 0%nat by lia. simpl.
            destruct (sub vertex).
            + destruct Hstep as (a & Ha & Hp). exists a. split; [exact Ha|].
              rewrite IH, Hp. apply list_lookup_insert_eq. exact Hlen.
            + rewrite IH, Hstep. reflexivity.
          - rewrite IH.
            destruct (sub vertex); [destruct Hstep as (a & _ & ->)|rewrite Hstep];
              [apply list_lookup_insert_ne; lia|reflexivity]. }
      * rewrite IH, Hstep. reflexivity.
Qed.

(** One fragment. *)
Lemma merge_vertexbuffer_length vc vb b b' :
  merge_vertexbuffer vc vb b = Ok b' -> length (proj b') = length (proj b).
Proof.
  unfold merge_vertexbuffer. intros Hm. inv_res.
  eapply merge_vertex_list_length; eauto.
Qed.

Lemma merge_vertexbuffer_attr vc vb b b' i :
  merge_vertexbuffer vc vb b = Ok b' ->
  Z.of_nat i < vc -> (i < length (proj b))%nat ->
  match supplied vb i with
  | Some e => exists a, read e = Ok a /\ proj b' !! i = Some (Some a)
  | None => proj b' !! i = proj b !! i
  end.
Proof.
  unfold merge_vertexbuffer. intros Hm Hi Hlen. inv_res.
  rewrite (supplied_gate _ _ i Hr).
  pose proof (merge_vertex_list_attr _ _ _ _ _ _ _ _ i Hm Hi Hlen) as Hl.
  unfold supplied_from in Hl.
  destruct (gate _ _ _); [|exact Hl].
  destruct (decide (0 <= i)%nat); [|lia].
  replace (i - 0)%nat with i in Hl by lia. exact Hl.
Qed.

(** All the fragments of a block: the last supply wins. *)
Lemma last_supplied_cons vb vbs i :
  last_supplied supplied (vb :: vbs) i =
    match last_supplied supplied vbs i with
    | Some e => Some e
    | None => supplied vb i
    end.
Proof.
  unfold last_supplied. cbn [omap list_omap].
  destruct (supplied vb i) as [e|]; [|destruct (last _); reflexivity].
  apply last_cons.
Qed.

Lemma merge_vertexbuffers_length vc vbs b b' :
  merge_vertexbuffers vc vbs b = Ok b' -> length (proj b') = length (proj b).
Proof.
  revert b. induction vbs as [|vb vbs IH]; intros b Hm; simpl in Hm; inv_res.
  - subst. reflexivity.
  - rewrite (IH _ Hm). eapply merge_vertexbuffer_length; eauto.
Qed.

Lemma merge_vertexbuffers_attr vc vbs b b' i :
  merge_vertexbuffers vc vbs b = Ok b' ->
  Z.of_nat i < vc -> (i < length (proj b))%nat ->
  match last_supplied supplied vbs i with
  | Some e => exists a, read e = Ok a /\ proj b' !! i = Some (Some a)
  | None => proj b' !! i = proj b !! i
  end.
Proof.
  revert b. induction vbs as [|vb vbs IH]; intros b Hm Hi Hlen; simpl in Hm; inv_res.
  - subst. reflexivity.
  - rewrite last_supplied_cons.
    pose proof (merge_vertexbuffer_length _ _ _ _ Hr) as Hlen'.
    pose proof (merge_vertexbuffer_attr _ _ _ _ i Hr Hi Hlen) as Hvb.
    specialize (IH r Hm Hi ltac:(lia)).
    destruct (last_supplied supplied vbs i); [exact IH|].
    rewrite IH. exact Hvb.
Qed.

End Attribute.
End Merger.

(** *** The three attributes *)

Section MergedBlock.
Context `{PyBuiltins}.
Import MeshToObj MergeSpec.

Lemma supplied_texcoord_gate vb t i :
  tex_coords_of vb = Ok t ->
  supplied_texcoord vb i =
    if 0 <? t then findall vb "vertex" !! i ≫= find_texcoord else None.
Proof. intros Ht. unfold supplied_texcoord, declares_texcoords. rewrite Ht. reflexivity. Qed.

Lemma merged_positions vc vbs b b' i :
  merge_vertexbuffers vc vbs b = Ok b' ->
  Z.of_nat i < vc -> (i < length (local_verts b))%nat ->
  match last_supplied supplied_position vbs i with
  | Some e => exists a, read_xyz e = Ok a /\ local_verts b' !! i = Some (Some a)
  | None => local_verts b' !! i = local_verts b !! i
  end.
Proof.
  apply (merge_vertexbuffers_attr local_verts (fun hp _ _ => hp)
           (fun v => find v "position") read_xyz supplied_position).
  - apply merge_vertex_verts.
  - reflexivity.
Qed.

Lemma merged_normals vc vbs b b' i :
  merge_vertexbuffers vc vbs b = Ok b' ->
  Z.of_nat i < vc -> (i < length (local_normals b))%nat ->
  match last_supplied supplied_normal vbs i with
  | Some e => exists a, read_xyz e = Ok a /\ local_normals b' !! i = Some (Some a)
  | None => local_normals b' !! i = local_normals b !! i
  end.
Proof.
  apply (merge_vertexbuffers_attr local_normals (fun _ hn _ => hn)
           (fun v => find v "normal") read_xyz supplied_normal).
  - apply merge_vertex_normals.
  - reflexivity.
Qed.

Lemma merged_uvs vc vbs b b' i :
  merge_vertexbuffers vc vbs b = Ok b' ->
  Z.of_nat i < vc -> (i < length (local_uvs b))%nat ->
  match last_supplied supplied_texcoord vbs i with
  | Some e => exists a, read_uv e = Ok a /\ local_uvs b' !! i = Some (Some a)
  | None => local_uvs b' !! i = local_uvs b !! i
  end.
Proof.
  apply (merge_vertexbuffers_attr local_uvs (fun _ _ ht => ht)
           find_texcoord read_uv supplied_texcoord).
  - apply merge_vertex_uvs.
  - intros vb t j Ht. apply supplied_texcoord_gate, Ht.
Qed.

Lemma merged_verts_length vc vbs b b' :
  merge_vertexbuffers vc vbs b = Ok b' ->
  length (local_verts b') = length (local_verts b).
Proof.
  apply (merge_vertexbuffers_length local_verts (fun hp _ _ => hp)
           (fun v => find v "position") read_xyz).
  apply merge_vertex_verts.
Qed.

Lemma merged_normals_length vc vbs b b' :
  merge_vertexbuffers vc vbs b = Ok b' ->
  length (local_normals b') = length (local_normals b).
Proof.
  apply (merge_vertexbuffers_length local_normals (fun _ hn _ => hn)
           (fun v => find v "normal") read_xyz).
  apply merge_vertex_normals.
Qed.

Lemma merged_uvs_length vc vbs b b' :
  merge_vertexbuffers vc vbs b = Ok b' ->
  length (local_uvs b') = length (local_uvs b).
Proof.
  apply (merge_vertexbuffers_length local_uvs (fun _ _ ht => ht) find_texcoord read_uv).
  apply merge_vertex_uvs.
Qed.

(** From the empty containers the entry of a vertex is its last supply. *)
Lemma empty_buffers_lookup (n i : nat) :
  (i < n)%nat ->
  local_verts (empty_buffers n) !! i = Some None /\
  local_normals (empty_buffers n) !! i = Some None /\
  local_uvs (empty_buffers n) !! i = Some None.
Proof.
  intros Hi. simpl. repeat split; apply lookup_replicate_2; exact Hi.
Qed.

Lemma list_repeat_Ok {A} (x : A) n l :
  list_repeat x n = Ok l -> l = replicate (Z.to_nat n) x.
Proof.
  unfold list_repeat. intros Hl.
  destruct ((n <? - 2 ^ 63) || (2 ^ 63 <=? n)); [discriminate|].
  destruct (n <=? 0) eqn:Hn.
  - injection Hl as <-. apply Z.leb_le in Hn.
    replace (Z.to_nat n) with 0%nat by lia. reflexivity.
  - destruct (allocates n); [|discriminate]. injection Hl as <-. reflexivity.
Qed.

(** The containers that were allocated are the empty ones. *)
Lemma allocate_buffers_Ok vc b0 :
  allocate_buffers vc = Ok b0 -> b0 = empty_buffers (Z.to_nat vc).
Proof.
  unfold allocate_buffers. intros Hb. inv_res. subst.
  apply list_repeat_Ok in Hr, Hr0, Hr1. subst. reflexivity.
Qed.

(** The lists of a count that fits an index and that the allocator grants
    are allocated. *)
Lemma allocate_buffers_granted vc :
  TreeSpec.granted vc = true ->
  allocate_buffers vc = Ok (empty_buffers (Z.to_nat vc)).
Proof.
  unfold TreeSpec.granted, allocate_buffers, list_repeat. intros Hg.
  apply andb_true_iff in Hg. destruct Hg as [Hg Ha].
  apply andb_true_iff in Hg. destruct Hg as [Hlo Hhi].
  apply Z.leb_le in Hlo. apply Z.ltb_lt in Hhi.
  replace (vc <? - 2 ^ 63) with false by (symmetry; apply Z.ltb_ge; lia).
  replace (2 ^ 63 <=? vc) with false by (symmetry; apply Z.leb_gt; lia).
  simpl. destruct (vc <=? 0) eqn:Hn.
  - apply Z.leb_le in Hn. replace (Z.to_nat vc) with 0%nat by lia. reflexivity.
  - simpl in Ha. rewrite Ha. reflexivity.
Qed.

(** A block that was merged was merged from the empty containers. *)
Lemma merge_block_Ok vc geom_elem c :
  merge_block vc geom_elem = Ok c ->
  exists b,
    merge_vertexbuffers vc (findall geom_elem "vertexbuffer")
      (empty_buffers (Z.to_nat vc)) = Ok b /\
    c = (fill_defaults (0, 0, 0)%float (local_verts b),
         if any_normals b then fill_defaults (0, 1, 0)%float (local_normals b) else [],
         if any_uvs b then fill_defaults (0, 0)%float (local_uvs b) else []).
Proof.
  unfold merge_block. intros Hb. inv_res.
  apply allocate_buffers_Ok in Hr. subst. eauto.
Qed.

Lemma merged_entries vc vbs b i :
  merge_vertexbuffers vc vbs (empty_buffers (Z.to_nat vc)) = Ok b ->
  Z.of_nat i < vc ->
  last_wins read_xyz supplied_position vbs i (local_verts b !! i) /\
  last_wins read_xyz supplied_normal vbs i (local_normals b !! i) /\
  last_wins read_uv supplied_texcoord vbs i (local_uvs b !! i).
Proof.
  intros Hm Hi.
  assert (Hn : (i < Z.to_nat vc)%nat) by lia.
  destruct (empty_buffers_lookup _ _ Hn) as (Hv0 & Hn0 & Hu0).
  unfold last_wins. repeat split.
  - pose proof (merged_positions _ _ _ _ i Hm Hi) as Hp.
    simpl in Hp. rewrite length_replicate in Hp. specialize (Hp Hn).
    destruct (last_supplied supplied_position vbs i); [exact Hp|].
    rewrite Hp. apply lookup_replicate_2, Hn.
  - pose proof (merged_normals _ _ _ _ i Hm Hi) as Hp.
    simpl in Hp. rewrite length_replicate in Hp. specialize (Hp Hn).
    destruct (last_supplied supplied_normal vbs i); [exact Hp|].
    rewrite Hp. apply lookup_replicate_2, Hn.
  - pose proof (merged_uvs _ _ _ _ i Hm Hi) as Hp.
    simpl in Hp. rewrite length_replicate in Hp. specialize (Hp Hn).
    destruct (last_supplied supplied_texcoord vbs i); [exact Hp|].
    rewrite Hp. apply lookup_replicate_2, Hn.
Qed.

End MergedBlock.

(** *** The flags [any_normals] and [any_uvs] *)

Section Presence.
Context `{PyBuiltins}.
Import MeshToObj MergeSpec.
Context {A : Type}.
Variable proj : Buffers -> list (option A).
Variable present : Buffers -> bool.
Variable gate : bool -> bool -> bool -> bool.
Variable sub : Element -> option Element.
Variable read : Element -> res A.

Hypothesis step : forall hp hn ht i vertex b b',
  merge_vertex hp hn ht i vertex b = Ok b' ->
  match (if gate hp hn ht then sub vertex else None) with
  | Some e => exists a, read e = Ok a /\ proj b' = <[i := Some a]> (proj b)
  | None => proj b' = proj b
  end.

Hypothesis step_present : forall hp hn ht i vertex b b',
  merge_vertex hp hn ht i vertex b = Ok b' ->
  match (if gate hp hn ht then sub vertex else None) with
  | Some _ => present b' = true
  | None => present b' = present b
  end.

Lemma merge_vertex_tracks hp hn ht i vertex b b' :
  merge_vertex hp hn ht i vertex b = Ok b' ->
  (i < length (proj b))%nat ->
  flag_tracks proj present b -> flag_tracks proj present b'.
Proof.
  intros Hm Hi Hb. pose proof (step _ _ _ _ _ _ _ Hm) as Hs.
  pose proof (step_present _ _ _ _ _ _ _ Hm) as Hp. unfold flag_tracks in *.
  destruct (if gate hp hn ht then sub vertex else None).
  - destruct Hs as (a & _ & Hs). rewrite Hp, Hs. split; [|reflexivity].
    intros _. exists i, a. apply list_lookup_insert_eq, Hi.
  - rewrite Hp, Hs. exact Hb.
Qed.

Lemma merge_vertex_list_tracks hp hn ht vc i0 vs b b' :
  merge_vertex_list hp hn ht vc i0 vs b = Ok b' ->
  length (proj b) = Z.to_nat vc ->
  flag_tracks proj present b -> flag_tracks proj present b'.
Proof.
  revert i0 b. induction vs as [|vertex vs IH]; intros i0 b Hm Hlen Hb; simpl in Hm.
  - inv_res. subst. exact Hb.
  - destruct (vc <=? Z.of_nat i0) eqn:Hbreak; inv_res; [subst; exact Hb|].
    apply (IH _ _ Hm).
    + rewrite <- Hlen. eapply step_length; eauto.
    + eapply merge_vertex_tracks; eauto. lia.
Qed.

Lemma merge_vertexbuffers_tracks vc vbs b b' :
  merge_vertexbuffers vc vbs b = Ok b' ->
  length (proj b) = Z.to_nat vc ->
  flag_tracks proj present b -> flag_tracks proj present b'.
Proof.
  revert b. induction vbs as [|vb vbs IH]; intros b Hm Hlen Hb; simpl in Hm; inv_res.
  - subst. exact Hb.
  - unfold merge_vertexbuffer in Hr. inv_res.
    apply (IH _ Hm).
    + rewrite <- Hlen. eapply merge_vertex_list_length; eauto.
    + eapply merge_vertex_list_tracks; eauto.
Qed.

End Presence.

Section Flags.
Context `{PyBuiltins}.
Import MeshToObj MergeSpec.

Lemma merge_vertex_any_normals hp hn ht i vertex b b' :
  merge_vertex hp hn ht i vertex b = Ok b' ->
  match (if hn then find vertex "normal" else None) with
  | Some _ => any_normals b' = true
  | None => any_normals b' = any_normals b
  end.
Proof.
  unfold merge_vertex. intros Hm. inv_res.
  assert (Hb1 : any_normals r = any_normals b).
  { destruct hp; [destruct (find vertex "position")|]; inv_res; subst; reflexivity. }
  assert (Hb3 : any_normals b' = any_normals r0).
  { destruct ht; [destruct (find_texcoord vertex)|]; inv_res; subst; reflexivity. }
  rewrite Hb3, <- Hb1.
  destruct hn; [destruct (find vertex "normal")|]; inv_res; subst; eauto.
Qed.

Lemma merge_vertex_any_uvs hp hn ht i vertex b b' :
  merge_vertex hp hn ht i vertex b = Ok b' ->
  match (if ht then find_texcoord vertex else None) with
  | Some _ => any_uvs b' = true
  | None => any_uvs b' = any_uvs b
  end.
Proof.
  unfold merge_vertex. intros Hm. inv_res.
  assert (Hb1 : any_uvs r = any_uvs b).
  { destruct hp; [destruct (find vertex "position")|]; inv_res; subst; reflexivity. }
  assert (Hb2 : any_uvs r0 = any_uvs r).
  { destruct hn; [destruct (find vertex "normal")|]; inv_res; subst; reflexivity. }
  rewrite <- Hb1, <- Hb2.
  destruct ht; [destruct (find_texcoord vertex)|]; inv_res; subst; eauto.
Qed.

(** After the merge, [any_normals] says that some vertex received a normal,
    and [any_uvs] that some vertex received a texture coordinate. *)
Lemma any_normals_received vc vbs b :
  merge_vertexbuffers vc vbs (empty_buffers (Z.to_nat vc)) = Ok b ->
  any_normals b = true <-> received supplied_normal vc vbs.
Proof.
  intros Hm.
  assert (Ht : flag_tracks local_normals any_normals b).
  { apply (merge_vertexbuffers_tracks local_normals any_normals (fun _ hn _ => hn)
             (fun v => find v "normal") read_xyz merge_vertex_normals
             merge_vertex_any_normals vc vbs _ _ Hm).
    - simpl. apply length_replicate.
    - split; [discriminate|]. simpl. intros (i & a & Hl).
      apply lookup_replicate in Hl. destruct Hl as [Hl _]. discriminate. }
  pose proof (merged_normals_length _ _ _ _ Hm) as Hlen.
  simpl in Hlen. rewrite length_replicate in Hlen.
  unfold flag_tracks in Ht. rewrite Ht. unfold received. split.
  - intros (i & a & Hl).
    assert (Hi : Z.of_nat i < vc).
    { apply lookup_lt_Some in Hl. lia. }
    exists i. split; [exact Hi|].
    destruct (merged_entries _ _ _ i Hm Hi) as (_ & Hw & _). unfold last_wins in Hw.
    destruct (last_supplied supplied_normal vbs i); [eauto|congruence].
  - intros (i & Hi & [e He]).
    destruct (merged_entries _ _ _ i Hm Hi) as (_ & Hw & _). unfold last_wins in Hw.
    rewrite He in Hw. destruct Hw as (a & _ & Hl). eauto.
Qed.

Lemma any_uvs_received vc vbs b :
  merge_vertexbuffers vc vbs (empty_buffers (Z.to_nat vc)) = Ok b ->
  any_uvs b = true <-> received supplied_texcoord vc vbs.
Proof.
  intros Hm.
  assert (Ht : flag_tracks local_uvs any_uvs b).
  { apply (merge_vertexbuffers_tracks local_uvs any_uvs (fun _ _ ht => ht)
             find_texcoord read_uv merge_vertex_uvs merge_vertex_any_uvs vc vbs _ _ Hm).
    - simpl. apply length_replicate.
    - split; [discriminate|]. simpl. intros (i & a & Hl).
      apply lookup_replicate in Hl. destruct Hl as [Hl _]. discriminate. }
  pose proof (merged_uvs_length _ _ _ _ Hm) as Hlen.
  simpl in Hlen. rewrite length_replicate in Hlen.
  unfold flag_tracks in Ht. rewrite Ht. unfold received. split.
  - intros (i & a & Hl).
    assert (Hi : Z.of_nat i < vc).
    { apply lookup_lt_Some in Hl. lia. }
    exists i. split; [exact Hi|].
    destruct (merged_entries _ _ _ i Hm Hi) as (_ & _ & Hw). unfold last_wins in Hw.
    destruct (last_supplied supplied_texcoord vbs i); [eauto|congruence].
  - intros (i & Hi & [e He]).
    destruct (merged_entries _ _ _ i Hm Hi) as (_ & _ & Hw). unfold last_wins in Hw.
    rewrite He in Hw. destruct Hw as (a & _ & Hl). eauto.
Qed.

End Flags.

(** *** Overwrite on merge (C4) *)

Section Overwrite.
Context `{PyBuiltins}.
Import MeshToObj MergeSpec.

Lemma last_supplied_app supplied l1 l2 i :
  last_supplied supplied (l1 ++ l2) i =
    match last_supplied supplied l2 i with
    | Some e => Some e
    | None => last_supplied supplied l1 i
    end.
Proof. unfold last_supplied. rewrite omap_app. apply last_app. Qed.

Lemma last_supplied_none supplied l i :
  Forall (fun vb => supplied vb i = None) l -> last_supplied supplied l i = None.
Proof.
  unfold last_supplied. induction 1 as [|vb l Hvb _ IH]; [reflexivity|].
  cbn [omap list_omap]. rewrite Hvb. exact IH.
Qed.

Lemma last_supplied_later supplied pre vbA mid vbB post i eb :
  supplied vbB i = Some eb ->
  Forall (fun vb => supplied vb i = None) post ->
  last_supplied supplied (pre ++ vbA :: mid ++ vbB :: post) i = Some eb.
Proof.
  intros HB Hpost.
  change (vbA :: mid ++ vbB :: post) with ([vbA] ++ mid ++ [vbB] ++ post).
  rewrite !last_supplied_app, (last_supplied_none _ _ _ Hpost).
  unfold last_supplied at 1. cbn [omap list_omap]. rewrite HB. reflexivity.
Qed.

Lemma last_wins_later_overwrites {A} (read : Element -> res A) supplied vbs i entry :
  last_wins read supplied vbs i entry -> later_overwrites read supplied vbs i entry.
Proof.
  intros Hw pre vbA mid vbB post ea eb -> _ HB Hpost. unfold last_wins in Hw.
  rewrite (last_supplied_later _ _ _ _ _ _ _ _ HB Hpost) in Hw. exact Hw.
Qed.

End Overwrite.

(** C4: in a geometry block, the merged position, normal and texture
    coordinate of a vertex are those of the last fragment, in declaration
    order, that declares the attribute and has it in its record of the vertex;
    so of two fragments that both supply the vertex the later one overwrites
    the earlier one, whatever the earlier one stored. *)
Theorem later_fragment_overwrites `{PyBuiltins} vc vbs b i :
  MeshToObj.merge_vertexbuffers vc vbs (MeshToObj.empty_buffers (Z.to_nat vc)) = Ok b ->
  Z.of_nat i < vc ->
  (MergeSpec.last_wins MeshToObj.read_xyz MergeSpec.supplied_position vbs i
     (MeshToObj.local_verts b !! i) /\
   MergeSpec.later_overwrites MeshToObj.read_xyz MergeSpec.supplied_position vbs i
     (MeshToObj.local_verts b !! i)) /\
  (MergeSpec.last_wins MeshToObj.read_xyz MergeSpec.supplied_normal vbs i
     (MeshToObj.local_normals b !! i) /\
   MergeSpec.later_overwrites MeshToObj.read_xyz MergeSpec.supplied_normal vbs i
     (MeshToObj.local_normals b !! i)) /\
  (MergeSpec.last_wins MeshToObj.read_uv MergeSpec.supplied_texcoord vbs i
     (MeshToObj.local_uvs b !! i) /\
   MergeSpec.later_overwrites MeshToObj.read_uv MergeSpec.supplied_texcoord vbs i
     (MeshToObj.local_uvs b !! i)).
Proof.
  intros Hm Hi. destruct (merged_entries _ _ _ i Hm Hi) as (Hv & Hn & Hu).
  repeat split; auto using last_wins_later_overwrites.
Qed.

(** In [two_fragments] both fragments supply a normal for vertex 0: the
    normal (0,0,1) of the second one is the merged normal. *)
Lemma later_fragment_overwrites_witness :
  exists b,
    MeshToObj.merge_vertexbuffers (H := Concrete.builtins) 2
      (findall Examples.two_fragments "vertexbuffer") (MeshToObj.empty_buffers 2) = Ok b /\
    MeshToObj.local_normals b !! 0%nat = Some (Some (0, 0, 1)%float).
Proof.
  eexists. split; [reflexivity|].
  destruct (later_fragment_overwrites (H := Concrete.builtins) 2
              (findall Examples.two_fragments "vertexbuffer") _ 0 eq_refl eq_refl)
    as (_ & (_ & Hlater) & _).
  destruct (Hlater [] _ [] _ [] _ _ eq_refl eq_refl eq_refl (Forall_nil_2 _))
    as (a & Hread & Hentry).
  vm_compute in Hread. injection Hread as <-. exact Hentry.
Defined.

(** *** Defaults and the all-or-nothing rule (C3) *)

Section AllOrNothing.
Context `{PyBuiltins}.
Import MeshToObj MergeSpec.

Lemma fill_defaults_lookup {A} (read : Element -> res A) (d : A) supplied vbs i
    (l : list (option A)) :
  last_wins read supplied vbs i (l !! i) ->
  fill_defaults d l !! i = Some (merged_value read d supplied vbs i).
Proof.
  unfold last_wins, merged_value, fill_defaults. intros Hw.
  rewrite list_lookup_fmap.
  destruct (last_supplied supplied vbs i).
  - destruct Hw as (a & -> & ->). reflexivity.
  - rewrite Hw. reflexivity.
Qed.

Lemma fill_defaults_length {A} (d : A) (l : list (option A)) :
  length (fill_defaults d l) = length l.
Proof. apply length_fmap. Qed.

End AllOrNothing.

(** C3: after the fragments of a geometry block are merged, the position
    sequence has one entry per vertex, the merged position or (0,0,0) when
    none was supplied; the normal sequence is empty when no vertex received a
    normal and otherwise has the length of the position sequence, the unset
    entries being (0,1,0); the uv sequence follows the same rule with (0,0). *)
Theorem merged_block_all_or_nothing `{PyBuiltins} vc geom_elem verts norms texs :
  MeshToObj.merge_block vc geom_elem = Ok (verts, norms, texs) ->
  let vbs := findall geom_elem "vertexbuffer" in
  (length verts = Z.to_nat vc /\
   forall i, Z.of_nat i < vc ->
     verts !! i =
       Some (MergeSpec.merged_value MeshToObj.read_xyz (0, 0, 0)%float
               MergeSpec.supplied_position vbs i)) /\
  ((~ MergeSpec.received MergeSpec.supplied_normal vc vbs -> norms = []) /\
   (MergeSpec.received MergeSpec.supplied_normal vc vbs ->
    length norms = length verts /\
    forall i, Z.of_nat i < vc ->
      norms !! i =
        Some (MergeSpec.merged_value MeshToObj.read_xyz (0, 1, 0)%float
                MergeSpec.supplied_normal vbs i))) /\
  ((~ MergeSpec.received MergeSpec.supplied_texcoord vc vbs -> texs = []) /\
   (MergeSpec.received MergeSpec.supplied_texcoord vc vbs ->
    length texs = length verts /\
    forall i, Z.of_nat i < vc ->
      texs !! i =
        Some (MergeSpec.merged_value MeshToObj.read_uv (0, 0)%float
                MergeSpec.supplied_texcoord vbs i))).
Proof.
  intros Hb vbs. apply merge_block_Ok in Hb. destruct Hb as (r & Hr & Hc).
  injection Hc as -> -> ->. fold vbs in Hr.
  pose proof (merged_verts_length _ _ _ _ Hr) as Hlv.
  pose proof (merged_normals_length _ _ _ _ Hr) as Hln.
  pose proof (merged_uvs_length _ _ _ _ Hr) as Hlu.
  simpl in Hlv, Hln, Hlu.
  rewrite length_replicate in Hlv. rewrite length_replicate in Hln.
  rewrite length_replicate in Hlu.
  pose proof (any_normals_received _ _ _ Hr) as Hnr.
  pose proof (any_uvs_received _ _ _ Hr) as Hur.
  split; [|split].
  - split; [rewrite fill_defaults_length; exact Hlv|].
    intros i Hi. apply fill_defaults_lookup.
    apply (merged_entries _ _ _ i Hr Hi).
  - split.
    + intros Hno. destruct (MeshToObj.any_normals r); [|reflexivity].
      destruct Hno. apply Hnr. reflexivity.
    + intros Hyes. apply Hnr in Hyes. rewrite Hyes.
      split; [rewrite !fill_defaults_length; congruence|].
      intros i Hi. apply fill_defaults_lookup.
      apply (merged_entries _ _ _ i Hr Hi).
  - split.
    + intros Hno. destruct (MeshToObj.any_uvs r); [|reflexivity].
      destruct Hno. apply Hur. reflexivity.
    + intros Hyes. apply Hur in Hyes. rewrite Hyes.
      split; [rewrite !fill_defaults_length; congruence|].
      intros i Hi. apply fill_defaults_lookup.
      apply (merged_entries _ _ _ i Hr Hi).
Qed.

(** The block [two_fragments]: two positions; a normal was received, so
    there are two normals, the one of vertex 1 being the default; no texture
    coordinate was received, so there is none. *)
Lemma merged_block_all_or_nothing_witness :
  MeshToObj.merge_block (H := Concrete.builtins) 2 Examples.two_fragments =
    Ok ([(1, 2, 3); (4, 5, 6)], [(0, 0, 1); (0, 1, 0)], [])%float /\
  length [(0, 0, 1); (0, 1, 0)]%float = length [(1, 2, 3); (4, 5, 6)]%float.
Proof.
  split; [reflexivity|].
  destruct (merged_block_all_or_nothing (H := Concrete.builtins) 2
              Examples.two_fragments _ _ _ eq_refl) as (_ & (_ & Hnorm) & _).
  apply Hnorm. exists 0%nat. split; [reflexivity|]. vm_compute. eauto.
Defined.

(** ** Vertex-index offsets (C2) *)

Section Offsets.
Context `{PyBuiltins}.
Import MeshToObj MergeSpec.

Lemma read_face_shift offset face f :
  read_face offset face = Ok f ->
  exists src, source_face face = Ok src /\ f = shift offset src.
Proof.
  unfold read_face, source_face. intros Hf. inv_res. subst.
  rewrite Hr, Hr0, Hr1. simpl. eexists. split; reflexivity.
Qed.

Lemma read_faces_shift offset fs l :
  read_faces offset fs = Ok l ->
  exists srcs, source_faces fs = Ok srcs /\ l = List.map (shift offset) srcs.
Proof.
  revert l. induction fs as [|face fs IH]; intros l Hl; simpl in Hl; inv_res; subst.
  - exists []. split; reflexivity.
  - destruct (read_face_shift _ _ _ Hr) as (src & Hsrc & ->).
    destruct (IH _ Hr0) as (srcs & Hsrcs & ->).
    exists (src :: srcs). simpl. rewrite Hsrc, Hsrcs. split; reflexivity.
Qed.

Lemma merge_block_lengths vc geom_elem verts norms texs :
  merge_block vc geom_elem = Ok (verts, norms, texs) ->
  length verts = Z.to_nat vc /\
  (norms = [] \/ length norms = length verts) /\
  (texs = [] \/ length texs = length verts).
Proof.
  intros Hb. apply merge_block_Ok in Hb. destruct Hb as (r & Hr & Hc).
  injection Hc as -> -> ->.
  pose proof (merged_verts_length _ _ _ _ Hr) as Hlv.
  pose proof (merged_normals_length _ _ _ _ Hr) as Hln.
  pose proof (merged_uvs_length _ _ _ _ Hr) as Hlu.
  simpl in Hlv, Hln, Hlu.
  rewrite length_replicate in Hlv. rewrite length_replicate in Hln.
  rewrite length_replicate in Hlu.
  rewrite !fill_defaults_length. repeat split; auto.
  - destruct (any_normals r); [right|left]; auto.
    rewrite fill_defaults_length. congruence.
  - destruct (any_uvs r); [right|left]; auto.
    rewrite fill_defaults_length. congruence.
Qed.

(** A geometry block appends as many vertices as its size, and no submesh. *)
Lemma parse_geometry_appends self geom_elem self' vc :
  _parse_geometry self geom_elem = Ok (self', vc) ->
  exists verts norms texs,
    block_size geom_elem = Ok (length verts) /\
    vertices self' = vertices self ++ verts /\
    normals self' = normals self ++ norms /\
    uvs self' = uvs self ++ texs /\
    (norms = [] \/ length norms = length verts) /\
    (texs = [] \/ length texs = length verts) /\
    submeshes self' = submeshes self.
Proof.
  unfold _parse_geometry, block_size. intros Hg. inv_res. rewrite Hr. simpl.
  destruct r as [vertex_count|]; inv_res.
  - destruct r as [[verts norms] texs]. inv_res. subst. simpl.
    exists verts, norms, texs.
    destruct (merge_block_lengths _ _ _ _ _ Hr0) as (Hlv & Hn & Hu).
    rewrite <- Hlv. repeat split; auto.
  - subst. exists [], [], []. rewrite !app_nil_r. repeat split; auto.
Qed.

Lemma submesh_geometry_offset self submesh_elem self' offset :
  submesh_geometry self submesh_elem = Ok (self', offset) ->
  offset = (if flag submesh_elem "usesharedvertices" then 0
            else Z.of_nat (length (vertices self))) /\
  submeshes self' = submeshes self /\
  exists appended,
    vertices self' = vertices self ++ appended /\
    (flag submesh_elem "usesharedvertices" = true -> appended = []) /\
    (flag submesh_elem "usesharedvertices" = false ->
     forall geom, find submesh_elem "geometry" = Some geom ->
                  block_size geom = Ok (length appended)).
Proof.
  unfold submesh_geometry. intros Hs.
  destruct (flag submesh_elem "usesharedvertices"); simpl in Hs.
  - inv_res. subst. repeat split; auto. exists []. rewrite app_nil_r.
    repeat split; auto. discriminate.
  - destruct (find submesh_elem "geometry") as [geom|]; inv_res.
    + destruct r as [s vc]. inv_res. subst.
      destruct (parse_geometry_appends _ _ _ _ Hr)
        as (verts & norms & texs & Hsize & Hv & _ & _ & _ & _ & Hsm).
      repeat split; auto. exists verts. repeat split; auto; [discriminate|].
      intros _ geom' Hg. injection Hg as <-. exact Hsize.
    + subst. repeat split; auto. exists []. rewrite app_nil_r.
      repeat split; auto; discriminate.
Qed.

Lemma parse_submesh_offset self submesh_elem idx self' :
  _parse_submesh self submesh_elem idx = Ok self' ->
  exists sm srcs appended,
    submeshes self' = submeshes self ++ [sm] /\
    vertices self' = vertices self ++ appended /\
    (flag submesh_elem "usesharedvertices" = true -> appended = []) /\
    (flag submesh_elem "usesharedvertices" = false ->
     forall geom, find submesh_elem "geometry" = Some geom ->
                  block_size geom = Ok (length appended)) /\
    submesh_source_faces submesh_elem = Ok srcs /\
    faces sm =
      List.map
        (shift (if flag submesh_elem "usesharedvertices" then 0
                else Z.of_nat (length (vertices self)))) srcs.
Proof.
  unfold _parse_submesh. intros Hp. inv_res. destruct r as [s offset]. inv_res.
  destruct (submesh_geometry_offset _ _ _ _ Hr) as (-> & Hsm & app & Hv & Hsh & Hloc).
  assert (Hfaces : exists srcs,
             submesh_source_faces submesh_elem = Ok srcs /\
             r = List.map
                    (shift (if flag submesh_elem "usesharedvertices" then 0
                            else Z.of_nat (length (vertices self)))) srcs).
  { unfold submesh_source_faces.
    destruct (find submesh_elem "faces") as [faces_elem|].
    - apply read_faces_shift, Hr0.
    - inv_res. subst. exists []. split; reflexivity. }
  destruct Hfaces as (srcs & Hsrcs & ->). subst self'. simpl.
  eexists _, srcs, app. rewrite Hsm. repeat split; eauto.
Qed.

End Offsets.

(** C2: a submesh that does not use the shared vertices has for offset the
    length of the global vertex sequence before its own block is appended,
    one that uses them has offset 0 and appends nothing, and every face index
    of its output is the source index plus the offset plus 1.  So after a
    shared block of N vertices, a first submesh with a local block of M1
    vertices has offset N and a second one, with a local block of M2
    vertices, has offset N + M1. *)
Theorem vertex_index_offsets `{PyBuiltins} :
  (forall self submesh_elem idx self',
     MeshToObj._parse_submesh self submesh_elem idx = Ok self' ->
     exists sm srcs appended,
       MeshToObj.submeshes self' = MeshToObj.submeshes self ++ [sm] /\
       MeshToObj.vertices self' = MeshToObj.vertices self ++ appended /\
       (MeshToObj.flag submesh_elem "usesharedvertices" = true -> appended = []) /\
       MergeSpec.submesh_source_faces submesh_elem = Ok srcs /\
       MeshToObj.faces sm =
         List.map
           (MergeSpec.shift
              (if MeshToObj.flag submesh_elem "usesharedvertices" then 0
               else Z.of_nat (length (MeshToObj.vertices self)))) srcs) /\
  (forall root shared sms s1 s2 g1 g2 N M1 M2 self',
     find root "sharedgeometry" = Some shared ->
     find root "submeshes" = Some sms ->
     findall sms "submesh" = [s1; s2] ->
     MeshToObj.flag s1 "usesharedvertices" = false ->
     MeshToObj.flag s2 "usesharedvertices" = false ->
     find s1 "geometry" = Some g1 ->
     find s2 "geometry" = Some g2 ->
     MergeSpec.block_size shared = Ok N ->
     MergeSpec.block_size g1 = Ok M1 ->
     MergeSpec.block_size g2 = Ok M2 ->
     MeshToObj.parse_mesh_xml MeshToObj.init root = Ok self' ->
     exists sm1 sm2 srcs1 srcs2,
       MeshToObj.submeshes self' = [sm1; sm2] /\
       MergeSpec.submesh_source_faces s1 = Ok srcs1 /\
       MergeSpec.submesh_source_faces s2 = Ok srcs2 /\
       MeshToObj.faces sm1 = List.map (MergeSpec.shift (Z.of_nat N)) srcs1 /\
       MeshToObj.faces sm2 = List.map (MergeSpec.shift (Z.of_nat (N + M1))) srcs2 /\
       length (MeshToObj.vertices self') = (N + M1 + M2)%nat).
Proof.
  split.
  - intros self submesh_elem idx self' Hp.
    destruct (parse_submesh_offset _ _ _ _ Hp)
      as (sm & srcs & app & Hsm & Hv & Hsh & _ & Hsrc & Hf).
    exists sm, srcs, app. repeat split; auto.
  - intros root shared sms s1 s2 g1 g2 N M1 M2 self'
      Hshared Hsms Hlist Hf1 Hf2 Hg1 Hg2 HN HM1 HM2 Hp.
    unfold MeshToObj.parse_mesh_xml in Hp. rewrite Hshared, Hsms, Hlist in Hp.
    inv_res. destruct r0 as [s0 vc0]. inv_res. subst r. simpl in Hp. inv_res.
    destruct (parse_geometry_appends _ _ _ _ Hr0)
      as (v0 & _ & _ & Hsize0 & Hv0 & _ & _ & _ & _ & Hsm0).
    rewrite HN in Hsize0. injection Hsize0 as ->.
    destruct (parse_submesh_offset _ _ _ _ Hr)
      as (sm1 & srcs1 & a1 & Hsm1 & Hv1 & _ & Hloc1 & Hsrc1 & Hfaces1).
    specialize (Hloc1 Hf1 _ Hg1). rewrite HM1 in Hloc1. injection Hloc1 as ->.
    subst self'.
    destruct (parse_submesh_offset _ _ _ _ Hr1)
      as (sm2 & srcs2 & a2 & Hsm2 & Hv2 & _ & Hloc2 & Hsrc2 & Hfaces2).
    specialize (Hloc2 Hf2 _ Hg2). rewrite HM2 in Hloc2. injection Hloc2 as ->.
    rewrite Hf1 in Hfaces1. rewrite Hf2 in Hfaces2.
    simpl in Hv0, Hsm0.
    exists sm1, sm2, srcs1, srcs2. repeat split; auto.
    + rewrite Hsm2, Hsm1, Hsm0. reflexivity.
    + rewrite Hfaces1, Hv0. reflexivity.
    + rewrite Hfaces2, Hv1, Hv0, length_app. reflexivity.
    + rewrite Hv2, Hv1, Hv0, !length_app. reflexivity.
Qed.

(** The mesh [shared_and_two_local]: N = 2, M1 = 1, M2 = 3.  The face
    (0,0,0) of the first submesh comes out as (3,3,3) and the face (0,1,2) of
    the second as (4,5,6). *)
Lemma vertex_index_offsets_witness :
  exists self' sm1 sm2,
    MeshToObj.parse_mesh_xml (H := Concrete.builtins) MeshToObj.init
      Examples.shared_and_two_local = Ok self' /\
    MeshToObj.submeshes self' = [sm1; sm2] /\
    MeshToObj.faces sm1 = [(3, 3, 3)] /\
    MeshToObj.faces sm2 = [(4, 5, 6)].
Proof.
  destruct (vertex_index_offsets (H := Concrete.builtins)) as [_ Hscenario].
  destruct (Hscenario Examples.shared_and_two_local Examples.shared_block
              (Concrete.node "submeshes" [] [Examples.submesh_1; Examples.submesh_2])
              Examples.submesh_1 Examples.submesh_2
              Examples.local_block_1 Examples.local_block_2 2%nat 1%nat 3%nat
              _ eq_refl eq_refl eq_refl eq_refl eq_refl eq_refl eq_refl
              eq_refl eq_refl eq_refl eq_refl)
    as (sm1 & sm2 & srcs1 & srcs2 & Hsm & Hs1 & Hs2 & Hf1 & Hf2 & _).
  vm_compute in Hs1, Hs2. injection Hs1 as <-. injection Hs2 as <-.
  eexists _, sm1, sm2. split; [reflexivity|]. split; [exact Hsm|].
  split; [exact Hf1|exact Hf2].
Defined.

(** ** Face lines (C1) *)

Section FaceLineEncoding.
Import ObjFormat MeshToObj.

Lemma split_on_not_nil sep s : split_on sep s <> [].
Proof.
  destruct s as [|c s]; simpl; [discriminate|].
  destruct (Ascii.eqb c sep); [discriminate|].
  destruct (split_on sep s); discriminate.
Qed.

Lemma append_nil_l (s : string) : "" +:+ s = s.
Proof. reflexivity. Qed.

Lemma append_cons (c : ascii) (a b : string) : String c a +:+ b = String c (a +:+ b).
Proof. reflexivity. Qed.

(** A piece without the separator joins the first field of what follows. *)
Lemma split_on_prepend sep a b :
  absent sep a = true ->
  split_on sep (a +:+ b) =
    match split_on sep b with
    | w :: ws => (a +:+ w) :: ws
    | [] => [a]
    end.
Proof.
  induction a as [|c a IH]; intros Ha.
  - rewrite append_nil_l. pose proof (split_on_not_nil sep b) as Hnil.
    destruct (split_on sep b); [destruct Hnil|]; reflexivity.
  - simpl in Ha. apply andb_true_iff in Ha. destruct Ha as [Hc Ha].
    apply negb_true_iff in Hc. rewrite append_cons. simpl.
    rewrite Hc, (IH Ha).
    destruct (split_on sep b); reflexivity.
Qed.

Lemma uint_digits (d : Decimal.uint) :
  absent "/" (NilEmpty.string_of_uint d) = true /\
  absent " " (NilEmpty.string_of_uint d) = true /\
  absent "010" (NilEmpty.string_of_uint d) = true.
Proof. induction d; simpl; auto. Qed.

Lemma uint_plain (d : Decimal.uint) : plain (NilZero.string_of_uint d).
Proof.
  destruct (uint_digits d) as (H1 & H2 & H3).
  unfold plain. destruct d; simpl in *; auto.
Qed.

Lemma str_int_plain (n : Z) : plain (str_int n).
Proof.
  unfold str_int. destruct (Z.to_int n) as [d|d]; simpl.
  - apply uint_plain.
  - destruct (uint_plain d) as (H1 & H2 & H3 & H4). unfold plain. simpl. auto.
Qed.

Lemma nonempty_append a b : nonempty a = true -> nonempty (a +:+ b) = true.
Proof. destruct a; [discriminate|reflexivity]. Qed.

Ltac split_fields :=
  repeat (rewrite split_on_prepend by assumption;
          cbn [split_on]; simpl Ascii.eqb; cbv iota).

(** The line written for a face has the encoding the two booleans select. *)
Lemma face_line_encoding (hu hn : bool) (face : Z * Z * Z) :
  line_encoding (face_line hu hn face) = Some (select_encoding hu hn) /\
  is_face_line (face_line hu hn face) = true.
Proof.
  destruct face as [[v1 v2] v3]. unfold face_line.
  destruct (str_int_plain v1) as (A0 & B0 & C0 & D0).
  destruct (str_int_plain v2) as (A1 & B1 & C1 & D1).
  destruct (str_int_plain v3) as (A2 & B2 & C2 & D2).
  generalize dependent (str_int v1). generalize dependent (str_int v2).
  generalize dependent (str_int v3). intros f2 A2 B2 C2 D2 f1 A1 B1 C1 D1 f0 A0 B0 C0 D0.
  unfold is_face_line, line_encoding, nl.
  destruct hu, hn; cbn [andb]; rewrite ?append_cons, ?append_nil_l;
    (split; [|reflexivity]); split_fields; cbn [List.map]; unfold corner_encoding;
    split_fields; rewrite ?nonempty_append by assumption; reflexivity.
Qed.

End FaceLineEncoding.

Section WrittenLines.
Context `{PyBuiltins}.
Import ObjFormat MeshToObj.

Lemma fold_left_write {A} (g : A -> string) (l : list A) (f : list string) :
  fold_left (fun f x => write f (g x)) l f = f ++ List.map g l.
Proof.
  revert f. induction l as [|x l IH]; intros f; simpl.
  - rewrite app_nil_r. reflexivity.
  - rewrite IH. unfold write. rewrite <- app_assoc. reflexivity.
Qed.

(** What [write_submesh] appends: its header, then one line per face, then
    an empty line. *)
Lemma write_submesh_lines hu hn base_name mtl_file idx submesh f :
  exists header,
    write_submesh hu hn base_name mtl_file idx submesh f =
      f ++ header ++ List.map (face_line hu hn) (faces submesh) ++ [nl] /\
    Forall (fun line => is_face_line line = false) header.
Proof.
  unfold write_submesh. rewrite fold_left_write. unfold write.
  destruct mtl_file as [m|].
  - eexists [_; _; _; _]. split.
    + rewrite <- !app_assoc. reflexivity.
    + repeat constructor.
  - eexists [_; _; _]. split.
    + rewrite <- !app_assoc. reflexivity.
    + repeat constructor.
Qed.

Lemma write_submeshes_lines hu hn base_name mtl_file idx sms f line :
  In line (write_submeshes hu hn base_name mtl_file idx sms f) ->
  In line f \/ is_face_line line = false \/
  exists sm face, In sm sms /\ In face (faces sm) /\ line = face_line hu hn face.
Proof.
  revert idx f. induction sms as [|sm sms IH]; intros idx f Hin; simpl in Hin.
  - left. exact Hin.
  - apply IH in Hin. destruct Hin as [Hin|[Hin|(sm' & face & Hsm & Hface & ->)]].
    + destruct (write_submesh_lines hu hn base_name mtl_file idx sm f)
        as (header & Heq & Hheader).
      rewrite Heq, !in_app_iff in Hin. destruct Hin as [Hin|[Hin|[Hin|Hin]]].
      * left. exact Hin.
      * right. left. rewrite Forall_forall in Hheader. apply Hheader.
        apply list_elem_of_In. exact Hin.
      * right. right. apply in_map_iff in Hin. destruct Hin as (face & <- & Hface).
        exists sm, face. simpl. auto.
      * right. left. destruct Hin as [<-|[]]. reflexivity.
    + right. left. exact Hin.
    + right. right. exists sm', face. simpl. auto.
Qed.

Lemma write_submeshes_keeps hu hn base_name mtl_file idx sms f line :
  In line f -> In line (write_submeshes hu hn base_name mtl_file idx sms f).
Proof.
  revert idx f. induction sms as [|sm sms IH]; intros idx f Hin; simpl; [exact Hin|].
  apply IH. destruct (write_submesh_lines hu hn base_name mtl_file idx sm f)
    as (header & -> & _).
  apply in_app_iff. left. exact Hin.
Qed.

Lemma write_submeshes_faces hu hn base_name mtl_file idx sms f sm face :
  In sm sms -> In face (faces sm) ->
  In (face_line hu hn face) (write_submeshes hu hn base_name mtl_file idx sms f).
Proof.
  revert idx f. induction sms as [|sm' sms IH]; intros idx f Hsm Hface; [destruct Hsm|].
  simpl. destruct Hsm as [->|Hsm].
  - apply write_submeshes_keeps.
    destruct (write_submesh_lines hu hn base_name mtl_file idx sm f)
      as (header & -> & _).
    rewrite !in_app_iff. right. right. left. apply in_map. exact Hface.
  - apply IH; assumption.
Qed.

(** The lines of the output that are face lines are those of the faces. *)
Lemma write_obj_face_lines self base_name mtl_file line :
  In line (write_obj self base_name mtl_file) ->
  is_face_line line = true ->
  exists sm face,
    In sm (submeshes self) /\ In face (faces sm) /\
    line = face_line (have_uvs self) (have_normals self) face.
Proof.
  unfold write_obj. intros Hin Hface.
  apply write_submeshes_lines in Hin.
  destruct Hin as [Hin|[Hin|Hin]]; [|congruence|exact Hin].
  exfalso. cbv zeta in Hin. rewrite !fold_left_write in Hin. unfold write in Hin.
  assert (Hno : forall l : string, is_face_line l = false -> l <> line) by congruence.
  rewrite !in_app_iff in Hin. simpl in Hin.
  repeat match goal with
         | H : _ \/ _ |- _ => destruct H as [H|H]
         | H : In _ (List.map _ _) |- _ =>
             apply in_map_iff in H; destruct H as (? & H & _)
         | H : In _ (match ?m with Some _ => _ | None => _ end) |- _ =>
             destruct m; simpl in H
         | H : In _ (_ ++ _) |- _ => apply in_app_iff in H
         | H : In _ [] |- _ => destruct H
         | H : False |- _ => destruct H
         | H : _ = line |- _ => revert H; apply Hno; reflexivity
         end.
Qed.

End WrittenLines.

Section MeshWideFlags.
Context `{PyBuiltins}.
Import ObjFormat MeshToObj MergeSpec.

Lemma have_normals_iff self :
  have_normals self = true <->
  normals self <> [] /\ length (normals self) = length (vertices self).
Proof.
  unfold have_normals. rewrite andb_true_iff, Nat.eqb_eq, Nat.ltb_lt.
  destruct (normals self); simpl; split; intros [H1 H2]; split;
    auto; try lia; try congruence.
Qed.

Lemma have_uvs_iff self :
  have_uvs self = true <->
  uvs self <> [] /\ length (uvs self) = length (vertices self).
Proof.
  unfold have_uvs. rewrite andb_true_iff, Nat.eqb_eq, Nat.ltb_lt.
  destruct (uvs self); simpl; split; intros [H1 H2]; split;
    auto; try lia; try congruence.
Qed.

Lemma parse_geometry_contribution self g self' vc :
  _parse_geometry self g = Ok (self', vc) ->
  exists verts norms texs,
    block_contribution g = Ok (verts, norms, texs) /\
    vertices self' = vertices self ++ verts /\
    normals self' = normals self ++ norms /\
    (norms = [] \/ length norms = length verts).
Proof.
  unfold _parse_geometry, block_contribution. intros Hg. inv_res. rewrite Hr. simpl.
  destruct r as [vertex_count|]; inv_res.
  - destruct r as [[verts norms] texs]. inv_res. subst. simpl.
    exists verts, norms, texs.
    destruct (merge_block_lengths _ _ _ _ _ Hr0) as (_ & Hn & _). auto.
  - subst. exists [], [], []. rewrite !app_nil_r. auto.
Qed.

Lemma parse_geometry_short self g self' vc :
  _parse_geometry self g = Ok (self', vc) ->
  bounded self ->
  bounded self' /\ (short self -> short self') /\ (deficient g -> short self').
Proof.
  intros Hg Hb. unfold bounded, short in *.
  destruct (parse_geometry_contribution _ _ _ _ Hg)
    as (verts & norms & texs & Hc & -> & -> & Hn).
  rewrite !length_app. repeat split.
  - destruct Hn as [-> | ->]; simpl; lia.
  - destruct Hn as [-> | ->]; simpl; lia.
  - intros (verts' & texs' & Hc' & Hne). rewrite Hc in Hc'.
    injection Hc' as -> -> ->. destruct verts'; [congruence|]. simpl. lia.
Qed.

Lemma submesh_geometry_short self sm s offset :
  submesh_geometry self sm = Ok (s, offset) ->
  bounded self ->
  bounded s /\ (short self -> short s) /\
  (forall g, (if flag sm "usesharedvertices" then None else find sm "geometry") = Some g ->
             deficient g -> short s).
Proof.
  unfold submesh_geometry. intros Hs Hb.
  destruct (flag sm "usesharedvertices"); simpl in Hs.
  - inv_res. subst. repeat split; auto. discriminate.
  - destruct (find sm "geometry") as [geom|].
    + apply bind_Ok in Hs. destruct Hs as ([s' vc] & Hg & Hs). inv_res. subst.
      destruct (parse_geometry_short _ _ _ _ Hg Hb) as (Hb' & Hs' & Hd').
      repeat split; auto. intros g Heq. injection Heq as <-. exact Hd'.
    + inv_res. subst. repeat split; auto. discriminate.
Qed.

Lemma parse_submesh_short self sm idx self' :
  _parse_submesh self sm idx = Ok self' ->
  bounded self ->
  bounded self' /\ (short self -> short self') /\
  (forall g, (if flag sm "usesharedvertices" then None else find sm "geometry") = Some g ->
             deficient g -> short self').
Proof.
  unfold _parse_submesh. intros Hp Hb.
  apply bind_Ok in Hp. destruct Hp as ([s offset] & Hg & Hp).
  apply bind_Ok in Hp. destruct Hp as (local_faces & _ & Hp).
  injection Hp as <-.
  exact (submesh_geometry_short _ _ _ _ Hg Hb).
Qed.

Lemma parse_submeshes_short self idx sms self' :
  parse_submeshes self idx sms = Ok self' ->
  bounded self ->
  bounded self' /\ (short self -> short self') /\
  (forall g,
     In g (omap (fun sm => if flag sm "usesharedvertices" then None
                           else find sm "geometry") sms) ->
     deficient g -> short self').
Proof.
  revert self idx. induction sms as [|sm sms IH]; intros self idx Hp Hb; simpl in Hp.
  - inv_res. subst. repeat split; auto. intros g [].
  - inv_res.
    destruct (parse_submesh_short _ _ _ _ Hr Hb) as (Hb1 & Hs1 & Hd1).
    destruct (IH _ _ Hp Hb1) as (Hb2 & Hs2 & Hd2).
    repeat split; auto. intros g Hg Hdef. cbn [omap list_omap] in Hg.
    destruct (if flag sm "usesharedvertices" then None else find sm "geometry")
      as [g0|] eqn:Hg0.
    + destruct Hg as [<-|Hg]; [|eapply Hd2; eauto].
      apply Hs2. eapply Hd1; eauto.
    + eapply Hd2; eauto.
Qed.

(** A block with a vertex and no normal leaves the mesh without normals. *)
Lemma deficient_block_disables_normals root self' g :
  parse_mesh_xml init root = Ok self' ->
  In g (mesh_blocks root) -> deficient g -> have_normals self' = false.
Proof.
  unfold parse_mesh_xml, mesh_blocks. intros Hp Hg Hdef.
  assert (Hshort : short self').
  { inv_res.
    assert (Hb0 : bounded init) by (unfold bounded; simpl; lia).
    assert (Hr' : bounded r /\
                  (In g (option_list (find root "sharedgeometry")) -> short r)).
    { destruct (find root "sharedgeometry") as [shared|]; inv_res.
      - destruct r0 as [s vc]. inv_res. subst.
        destruct (parse_geometry_short _ _ _ _ Hr0 Hb0) as (Hb & _ & Hd).
        split; [exact Hb|]. intros [<-|[]]. exact (Hd Hdef).
      - subst. split; [exact Hb0|]. intros []. }
    destruct Hr' as [Hb Hsh]. apply in_app_iff in Hg.
    destruct (find root "submeshes") as [sms|].
    - destruct (parse_submeshes_short _ _ _ _ Hp Hb) as (_ & Hs & Hd).
      destruct Hg as [Hg|Hg]; [apply Hs, Hsh, Hg|eapply Hd; eauto].
    - inv_res. subst. destruct Hg as [Hg|[]]. apply Hsh, Hg. }
  unfold short in Hshort. unfold have_normals.
  apply andb_false_iff. left. apply Nat.eqb_neq. lia.
Qed.

End MeshWideFlags.

(** C1, as the code has it: the exporter's two mesh-wide booleans are true
    exactly when the corresponding global sequence is non-empty and as long
    as the global vertex sequence; every face of every submesh is written as
    a face line, and every face line of the output has the one of the four
    encodings that the two booleans select; if a geometry block with at least
    one vertex contributes no normals, no face line of the mesh carries a
    normal reference. *)
Theorem face_lines_follow_mesh_flags `{PyBuiltins} :
  (forall self,
     (MeshToObj.have_normals self = true <->
      MeshToObj.normals self <> [] /\
      length (MeshToObj.normals self) = length (MeshToObj.vertices self)) /\
     (MeshToObj.have_uvs self = true <->
      MeshToObj.uvs self <> [] /\
      length (MeshToObj.uvs self) = length (MeshToObj.vertices self))) /\
  (forall self base_name mtl_file sm face,
     In sm (MeshToObj.submeshes self) -> In face (MeshToObj.faces sm) ->
     In (MeshToObj.face_line (MeshToObj.have_uvs self) (MeshToObj.have_normals self) face)
        (MeshToObj.write_obj self base_name mtl_file)) /\
  (forall self base_name mtl_file line,
     In line (MeshToObj.write_obj self base_name mtl_file) ->
     ObjFormat.is_face_line line = true ->
     ObjFormat.line_encoding line =
       Some (ObjFormat.select_encoding
               (MeshToObj.have_uvs self) (MeshToObj.have_normals self))) /\
  (forall root self' g verts texs base_name mtl_file line,
     MeshToObj.parse_mesh_xml MeshToObj.init root = Ok self' ->
     In g (MergeSpec.mesh_blocks root) ->
     MergeSpec.block_contribution g = Ok (verts, [], texs) ->
     verts <> [] ->
     In line (MeshToObj.write_obj self' base_name mtl_file) ->
     ObjFormat.is_face_line line = true ->
     exists e, ObjFormat.line_encoding line = Some e /\
               ObjFormat.carries_normal e = false).
Proof.
  split; [|split; [|split]].
  - intros self. split; [apply have_normals_iff|apply have_uvs_iff].
  - intros self base_name mtl_file sm face Hsm Hface.
    unfold MeshToObj.write_obj. eapply write_submeshes_faces; eauto.
  - intros self base_name mtl_file line Hin Hface.
    destruct (write_obj_face_lines _ _ _ _ Hin Hface) as (sm & face & _ & _ & ->).
    apply face_line_encoding.
  - intros root self' g verts texs base_name mtl_file line Hp Hg Hc Hne Hin Hface.
    destruct (write_obj_face_lines _ _ _ _ Hin Hface) as (sm & face & _ & _ & ->).
    assert (Hn : MeshToObj.have_normals self' = false).
    { eapply deficient_block_disables_normals; eauto. exists verts, texs. auto. }
    rewrite Hn. eexists. split; [apply face_line_encoding|].
    destruct (MeshToObj.have_uvs self'); reflexivity.
Qed.

(** The mesh [with_bare_block]: the block of its second submesh has one
    vertex and no normal, and the face of the first submesh, whose block has
    normals, is written without a normal reference. *)
Lemma face_lines_follow_mesh_flags_witness :
  exists self',
    MeshToObj.parse_mesh_xml (H := Concrete.builtins) MeshToObj.init
      Examples.with_bare_block = Ok self' /\
    In ("f 1 2 3" +:+ MeshToObj.nl)
       (MeshToObj.write_obj (H := Concrete.builtins) self' "out" None) /\
    exists e,
      ObjFormat.line_encoding ("f 1 2 3" +:+ MeshToObj.nl) = Some e /\
      ObjFormat.carries_normal e = false.
Proof.
  eexists. split; [reflexivity|]. split; [vm_compute; tauto|].
  destruct (face_lines_follow_mesh_flags (H := Concrete.builtins))
    as (_ & _ & _ & Hblock).
  eapply (Hblock Examples.with_bare_block _ Examples.bare_block
           [(5, 5, 5)%float] [] "out" None).
  - reflexivity.
  - vm_compute. tauto.
  - reflexivity.
  - discriminate.
  - vm_compute. tauto.
  - reflexivity.
Defined.

(** C1 as stated fails: in [with_empty_block] one geometry block contributes
    no normals (it has no vertex) while a non-empty block does, and the face
    line of the mesh carries normal references. *)
Lemma empty_block_keeps_normals :
  exists self',
    MeshToObj.parse_mesh_xml (H := Concrete.builtins) MeshToObj.init
      Examples.with_empty_block = Ok self' /\
    MergeSpec.mesh_blocks Examples.with_empty_block =
      [Examples.normals_block; Examples.empty_block] /\
    MergeSpec.block_contribution (H := Concrete.builtins) Examples.empty_block =
      Ok ([], [], []) /\
    (exists verts norms,
       MergeSpec.block_contribution (H := Concrete.builtins) Examples.normals_block =
         Ok (verts, norms, []) /\ verts <> [] /\ norms <> []) /\
    In ("f 1//1 2//2 3//3" +:+ MeshToObj.nl)
       (MeshToObj.write_obj (H := Concrete.builtins) self' "out" None) /\
    ObjFormat.line_encoding ("f 1//1 2//2 3//3" +:+ MeshToObj.nl) =
      Some ObjFormat.PositionNormal /\
    ObjFormat.carries_normal ObjFormat.PositionNormal = true.
Proof.
  eexists. split; [reflexivity|]. split; [reflexivity|]. split; [reflexivity|].
  split; [eexists _, _; split; [reflexivity|split; discriminate]|].
  split; [vm_compute; tauto|]. split; reflexivity.
Qed.

(** ** Trees *)

Section Trees.
Import Frame.

(** Induction on an element with the property of its children. *)
Lemma Element_ind' (P : Element -> Prop) :
  (forall t a x y cs, Forall P cs -> P (Elem t a x y cs)) ->
  forall e, P e.
Proof.
  intros HP.
  refine (fix IH (e : Element) : P e :=
            match e with
            | Elem t a x y cs =>
                HP t a x y cs
                  ((fix go (l : list Element) : Forall P l :=
                      match l with
                      | [] => Forall_nil_2 P
                      | c :: l' => Forall_cons_2 P c l' (IH c) (go l')
                      end) cs)
            end).
Qed.

Lemma subtree_app e p r :
  subtree e (p ++ r) =
    match subtree e p with
    | Some d => subtree d r
    | None => None
    end.
Proof.
  revert e. induction p as [|i p IH]; intros e; simpl; [reflexivity|].
  destruct (children e !! i); [apply IH|reflexivity].
Qed.

(** The element a reference names after it was mutated, and below it. *)
Lemma subtree_update_at e p f d r :
  subtree e p = Some d ->
  subtree (update_at p f e) (p ++ r) = subtree (f d) r.
Proof.
  revert e. induction p as [|i p IH]; intros e Hd; simpl in *.
  - injection Hd as ->. reflexivity.
  - destruct e as [t a x y cs]. simpl in *.
    destruct (cs !! i) as [c|] eqn:Hc; [|discriminate].
    rewrite list_lookup_insert_eq by (eapply lookup_lt_Some; eauto).
    apply IH, Hd.
Qed.

(** References that part from [p] name what they named. *)
Lemma subtree_update_at_other e p f q :
  parts_from p q -> subtree (update_at p f e) q = subtree e q.
Proof.
  revert e q. induction p as [|i p IH]; intros e q [Hpq Hqp].
  - destruct Hpq. exists q. reflexivity.
  - destruct q as [|j q]; [destruct Hqp; exists (i :: p); reflexivity|].
    destruct e as [t a x y cs]. simpl.
    destruct (cs !! i) as [c|] eqn:Hc; [|reflexivity].
    destruct (decide (i = j)) as [->|Hne].
    + rewrite list_lookup_insert_eq by (eapply lookup_lt_Some; eauto).
      rewrite Hc. apply IH. split.
      * intros [r ->]. apply Hpq. exists r. reflexivity.
      * intros [r ->]. apply Hqp. exists r. reflexivity.
    + rewrite list_lookup_insert_ne by exact Hne. reflexivity.
Qed.

End Trees.

(** ** The frame of the recalculation (C9) *)

Section FrameRelation.
Import Frame.

Lemma agree_off_xyz_refl a : agree_off_xyz a a.
Proof. split; auto. Qed.

Lemma agree_off_xyz_trans a b c :
  agree_off_xyz a b -> agree_off_xyz b c -> agree_off_xyz a c.
Proof.
  intros [Hab Hab'] [Hbc Hbc']. split.
  - intros k Hk. rewrite (Hbc k Hk). apply Hab, Hk.
  - intros k Hk. apply Hbc', Hab', Hk.
Qed.

Lemma attrs_refl (b : bool) a : if b then agree_off_xyz a a else a = a.
Proof. destruct b; [apply agree_off_xyz_refl|reflexivity]. Qed.

Lemma preserved_refl f e : preserved f e e.
Proof.
  revert f. induction e as [t a x y cs IH] using Element_ind'. intros f.
  rewrite <- (app_nil_r cs) at 2. constructor.
  - apply attrs_refl.
  - induction IH as [|c cs Hc _ IHcs]; constructor; auto.
  - congruence.
  - constructor.
  - congruence.
Qed.

Lemma preserved_tag f e e' : preserved f e e' -> tag e' = tag e.
Proof. intros Hp. inversion Hp; reflexivity. Qed.

(** The attributes of an element that is not the normal of a vertex record
    are the same. *)
Lemma preserved_attrib f e e' :
  preserved f e e' -> normal_at f (tag e) = false -> attrib e' = attrib e.
Proof.
  intros Hp Hn. inversion Hp as [? t a a' x y cs cs' extra Ha]; subst.
  simpl in *. rewrite Hn in Ha. exact Ha.
Qed.

Lemma find_tag_app t (l k : list Element) :
  List.find (has_tag t) (l ++ k) =
    match List.find (has_tag t) l with
    | Some c => Some c
    | None => List.find (has_tag t) k
    end.
Proof.
  induction l as [|c l IH]; simpl; [reflexivity|].
  destruct (has_tag t c); [reflexivity|exact IH].
Qed.

(** Children that are preserved have the tags they had. *)
Lemma preserved_find_none f t cs cs' :
  Forall2 (preserved f) cs cs' ->
  List.find (has_tag t) cs = None <-> List.find (has_tag t) cs' = None.
Proof.
  induction 1 as [|c c' cs cs' Hc _ IH]; simpl; [tauto|].
  unfold has_tag at 1 3. rewrite (preserved_tag _ _ _ Hc).
  destruct (String.eqb (tag c) t); [split; discriminate|exact IH].
Qed.

Lemma not_record_normal f : record f "normal" = false.
Proof. destruct f; reflexivity. Qed.

Lemma created_normal_preserved f e e' :
  created_normal e -> preserved f e e' -> created_normal e'.
Proof.
  intros (Htag & Htext & Htail & Hcs & Hattr & Hxyz) Hp.
  inversion Hp as [? t a a' x y cs cs' extra Ha Hcs' Hfst Hex Hv]; subst.
  simpl in Htag, Htext, Htail, Hcs, Hattr, Hxyz. subst.
  apply Forall2_nil_inv_l in Hcs'. subst cs'.
  assert (extra = []) as ->.
  { destruct extra; [reflexivity|].
    destruct Hv as (Hrec & _); [discriminate|].
    rewrite not_record_normal in Hrec. discriminate. }
  assert (Hagree : agree_off_xyz a a').
  { destruct (normal_at f "normal"); [exact Ha|]. subst. apply agree_off_xyz_refl. }
  destruct Hagree as [Hoff Hkept].
  unfold created_normal. simpl. repeat split; auto.
  intros k Hk. rewrite (Hoff k Hk). auto.
Qed.

Lemma preserved_trans f e1 e2 e3 :
  preserved f e1 e2 -> preserved f e2 e3 -> preserved f e1 e3.
Proof.
  revert f e2 e3. induction e1 as [t a x y cs IH] using Element_ind'.
  intros f e2 e3 H12 H23.
  inversion H12 as [? ? ? a2 ? ? ? cs2 extra2 Ha2 Hcs2 Hfst2 Hex2 Hv2]; subst.
  inversion H23 as [? ? ? a3 ? ? ? cs3 extra3 Ha3 Hcs3 Hfst3 Hex3 Hv3]; subst.
  apply Forall2_app_inv_l in Hcs3.
  destruct Hcs3 as (k1 & k2 & Hk1 & Hk2 & ->).
  rewrite <- app_assoc. constructor.
  - destruct (normal_at f t).
    + eapply agree_off_xyz_trans; eauto.
    + congruence.
  - clear - IH Hcs2 Hk1. revert cs2 k1 Hcs2 Hk1.
    induction IH as [|c cs Hc _ IHcs]; intros cs2 k1 Hcs2 Hk1.
    + apply Forall2_nil_inv_l in Hcs2. subst.
      apply Forall2_nil_inv_l in Hk1. subst. constructor.
    + apply Forall2_cons_inv_l in Hcs2. destruct Hcs2 as (c2 & cs2' & Hc2 & Hcs2' & ->).
      apply Forall2_cons_inv_l in Hk1. destruct Hk1 as (c3 & k1' & Hc3 & Hk1' & ->).
      constructor; eauto.
  - intros i c c3 Hc Hc3 Hne.
    destruct (Forall2_lookup_l _ _ _ _ _ Hcs2 Hc) as (c2 & Hc2 & _).
    destruct (decide (attrib c2 = attrib c)) as [Heq|Hne2].
    + assert (Hnone : List.find (has_tag "normal") (take i (cs2 ++ extra2)) = None).
      { apply (Hfst3 i c2 c3).
        - apply lookup_app_l_Some, Hc2.
        - apply lookup_app_l_Some, Hc3.
        - congruence. }
      rewrite take_app_le in Hnone by (apply lookup_lt_Some in Hc2; lia).
      eapply preserved_find_none; [apply Forall2_take; exact Hcs2|exact Hnone].
    + eapply Hfst2; eauto.
  - apply Forall_app. split; [|exact Hex3].
    clear - Hex2 Hk2. induction Hk2 as [|c c' l l' Hc _ IHl]; [constructor|].
    apply Forall_cons in Hex2. destruct Hex2 as [Hcr Hex2].
    constructor; [eapply created_normal_preserved; eauto|auto].
  - intros Hne. destruct extra2 as [|c extra2].
    + apply Forall2_nil_inv_l in Hk2. subst. simpl in *.
      destruct (Hv3 Hne) as (Hrec & Hnone & Hlen).
      rewrite app_nil_r in Hnone. repeat split; auto.
      eapply preserved_find_none; eauto.
    + destruct Hv2 as (Hrec & Hnone & Hlen); [discriminate|].
      destruct extra2; [|discriminate].
      apply Forall2_cons_inv_l in Hk2. destruct Hk2 as (c' & k2' & _ & Hk2' & ->).
      apply Forall2_nil_inv_l in Hk2'. subst k2'.
      destruct extra3 as [|c3 extra3]; [auto|].
      exfalso. destruct Hv3 as (_ & Hnone3 & _); [discriminate|].
      rewrite find_tag_app in Hnone3.
      apply Forall_cons in Hex2. destruct Hex2 as [(Htag & _) _].
      destruct (List.find (has_tag "normal") cs2); [discriminate|].
      simpl in Hnone3. unfold has_tag in Hnone3. rewrite Htag in Hnone3.
      discriminate.
Qed.

Lemma attrib_update_at p f e :
  p <> [] -> attrib (update_at p f e) = attrib e.
Proof. destruct p, e; [congruence|reflexivity]. Qed.

(** A change allowed at the element a reference names, and that leaves its
    attributes, is allowed in the tree. *)
Lemma preserved_update_at f e p d d' :
  subtree e p = Some d -> preserved (place_of f e p) d d' ->
  attrib d' = attrib d ->
  preserved f e (update_at p (fun _ => d') e).
Proof.
  revert f e. induction p as [|i p IH]; intros f e Hd Hp Hattr; simpl in *.
  - injection Hd as ->. exact Hp.
  - destruct e as [t a x y cs]. simpl in *.
    destruct (cs !! i) as [c|] eqn:Hc; [|discriminate].
    rewrite <- (app_nil_r (<[i:=_]> cs)). constructor.
    + apply attrs_refl.
    + rewrite <- (list_insert_id cs i c Hc) at 1.
      apply Forall2_insert; [|apply IH; assumption].
      clear. induction cs; constructor; auto using preserved_refl.
    + intros j cj cj' Hcj Hcj' Hne. exfalso. apply Hne.
      destruct (decide (i = j)) as [->|Hij].
      * rewrite list_lookup_insert_eq in Hcj' by (eapply lookup_lt_Some; eauto).
        injection Hcj' as <-. rewrite Hc in Hcj. injection Hcj as <-.
        destruct p as [|k p].
        -- simpl in *. injection Hd as ->. exact Hattr.
        -- apply attrib_update_at. discriminate.
      * rewrite list_lookup_insert_ne in Hcj' by exact Hij. congruence.
    + constructor.
    + congruence.
Qed.

End FrameRelation.

Section PassFrame.
Context `{PyBuiltins}.
Import Frame RecalcNormals.

Lemma agree_off_xyz_set a sx sy sz :
  agree_off_xyz a (<["z" := sz]> (<["y" := sy]> (<["x" := sx]> a))).
Proof.
  split.
  - intros k Hk. unfold is_xyz in Hk.
    rewrite !lookup_insert_ne; [reflexivity| | |]; intros <-; tauto.
  - intros k Hk. rewrite !lookup_insert_is_Some'. auto.
Qed.

Lemma preserved_list_refl f cs : Forall2 (preserved f) cs cs.
Proof. induction cs; constructor; auto using preserved_refl. Qed.

(** Setting the three attributes of a normal of a vertex record. *)
Lemma preserved_set_xyz sx sy sz e :
  has_tag "normal" e = true -> preserved InRecord e (set_xyz sx sy sz e).
Proof.
  destruct e as [t a x y cs]. unfold has_tag, set_xyz. simpl. intros Ht.
  rewrite <- (app_nil_r cs) at 2. constructor.
  - simpl. rewrite Ht. apply agree_off_xyz_set.
  - apply preserved_list_refl.
  - congruence.
  - constructor.
  - congruence.
Qed.

Lemma preserved_update_first sx sy sz cs :
  Forall2 (preserved InRecord) cs (update_first "normal" (set_xyz sx sy sz) cs).
Proof.
  induction cs as [|c cs IH]; simpl; [constructor|].
  destruct (has_tag "normal" c) eqn:Ht; constructor; auto.
  - apply preserved_set_xyz, Ht.
  - apply preserved_list_refl.
  - apply preserved_refl.
Qed.

(** [update_first] changes the first child with the tag only. *)
Lemma update_first_changed t g cs i c c' :
  cs !! i = Some c -> update_first t g cs !! i = Some c' -> c' <> c ->
  List.find (has_tag t) (take i cs) = None.
Proof.
  revert i. induction cs as [|c0 cs IH]; intros i Hc Hc' Hne; [discriminate|].
  simpl in Hc'. destruct (has_tag t c0) eqn:Ht.
  - destruct i as [|i]; [reflexivity|]. simpl in *. congruence.
  - destruct i as [|i]; [reflexivity|]. simpl in *. rewrite Ht. eapply IH; eauto.
Qed.

Lemma created_normal_set_xyz sx sy sz :
  created_normal (set_xyz sx sy sz (fresh "normal")).
Proof.
  unfold created_normal, set_xyz, fresh. simpl. repeat split; auto.
  - intros k Hk. unfold is_xyz in Hk.
    rewrite !lookup_insert_ne; [apply lookup_empty| | |]; intros <-; tauto.
  - intros k Hk. rewrite !lookup_insert_is_Some'.
    destruct Hk as [-> | [-> | ->]]; auto.
Qed.

Lemma preserved_set_normal sx sy sz vertex :
  has_tag "vertex" vertex = true ->
  preserved InBuffer vertex (set_normal sx sy sz vertex).
Proof.
  destruct vertex as [t a x y cs]. unfold has_tag, set_normal. simpl. intros Ht.
  apply String.eqb_eq in Ht. subst t.
  rewrite <- (app_nil_r (update_first _ _ _)). constructor.
  - reflexivity.
  - apply preserved_update_first.
  - intros i c c' Hc Hc' Hne. eapply update_first_changed; eauto. congruence.
  - constructor.
  - congruence.
Qed.

Lemma preserved_create_normal sx sy sz vertex :
  has_tag "vertex" vertex = true -> find vertex "normal" = None ->
  preserved InBuffer vertex (create_normal sx sy sz vertex).
Proof.
  destruct vertex as [t a x y cs]. unfold has_tag, create_normal, find. simpl.
  intros Ht Hnone. apply String.eqb_eq in Ht. subst t.
  constructor.
  - reflexivity.
  - apply preserved_list_refl.
  - congruence.
  - constructor; [apply created_normal_set_xyz|constructor].
  - intros _. auto.
Qed.

Lemma write_vertex_preserved a i vertex vertex' updated :
  has_tag "vertex" vertex = true ->
  write_vertex a i vertex = Ok (vertex', updated) ->
  preserved InBuffer vertex vertex'.
Proof.
  unfold write_vertex. intros Ht Hw. inv_res.
  destruct (0 <? r)%nat; inv_res;
    destruct (find vertex "normal") eqn:Hfind; inv_res; subst;
    auto using preserved_set_normal, preserved_create_normal, preserved_refl.
Qed.

Lemma write_back_preserved a cs i n cs' m :
  write_back a cs i n = Ok (cs', m) -> Forall2 (preserved InBuffer) cs cs'.
Proof.
  revert i n cs' m. induction cs as [|c cs IH]; intros i n cs' m Hw; simpl in Hw.
  - inv_res. subst. constructor.
  - destruct (has_tag "vertex" c) eqn:Ht.
    + apply bind_Ok in Hw. destruct Hw as ([c' updated] & Hc & Hw).
      apply bind_Ok in Hw. destruct Hw as ([rest k] & Hrest & Hw).
      inv_res. subst. constructor; [|eapply IH; eauto].
      eapply write_vertex_preserved; eauto.
    + apply bind_Ok in Hw. destruct Hw as ([rest k] & Hrest & Hw).
      inv_res. subst. constructor; [apply preserved_refl|eapply IH; eauto].
Qed.

Lemma normal_at_vertexbuffer f : normal_at f "vertexbuffer" = false.
Proof. destruct f; reflexivity. Qed.

Lemma recalc_vertex_buffer_preserved f n vertex_buffer faces vertex_buffer' k ws :
  tag vertex_buffer = "vertexbuffer" ->
  recalc_vertex_buffer n vertex_buffer faces = Ok (Updated vertex_buffer' k ws) ->
  preserved f vertex_buffer vertex_buffer' /\
  attrib vertex_buffer' = attrib vertex_buffer.
Proof.
  unfold recalc_vertex_buffer. intros Htag Hr.
  destruct (negb _); [discriminate|].
  apply bind_Ok in Hr. destruct Hr as (positions & _ & Hr).
  destruct (length positions =? 0)%nat; [discriminate|].
  destruct faces as [faces|]; [|discriminate].
  apply bind_Ok in Hr. destruct Hr as (acc & _ & Hr).
  apply bind_Ok in Hr. destruct Hr as ([cs updated] & Hw & Hr).
  destruct vertex_buffer as [t a x y cs0]. injection Hr as <- <- <-.
  simpl in Htag. subst t. split; [|reflexivity].
  pose proof (write_back_preserved _ _ _ _ _ _ Hw) as Hcs. simpl in Hcs.
  rewrite <- (app_nil_r cs). constructor.
  - rewrite normal_at_vertexbuffer. reflexivity.
  - exact Hcs.
  - intros i c c' Hc Hc' Hne. exfalso. apply Hne.
    destruct (Forall2_lookup_l _ _ _ _ _ Hcs Hc) as (c'' & Hc'' & Hcc).
    assert (c'' = c') by congruence. subst c''.
    eapply preserved_attrib; [exact Hcc|reflexivity].
  - constructor.
  - congruence.
Qed.

(** The reference [find('.//t')] returns names an element with the tag. *)
Lemma find_desc_names e t q :
  find_desc e t = Some q -> exists d, subtree e q = Some d /\ tag d = t.
Proof.
  unfold find_desc, findall_desc. intros Hq.
  assert (Hin : In q (List.filter (tag_at e t) (iter_paths e))).
  { destruct (List.filter _ _) as [|q' l]; [discriminate|].
    injection Hq as ->. left. reflexivity. }
  apply filter_In in Hin. destruct Hin as [_ Htag]. unfold tag_at in Htag.
  destruct (subtree e q) as [d|]; [|discriminate].
  exists d. split; [reflexivity|]. apply String.eqb_eq, Htag.
Qed.

Lemma vertex_buffer_ref_tag root pgeom pvb vb :
  vertex_buffer_ref root pgeom = Some pvb -> subtree root pvb = Some vb ->
  tag vb = "vertexbuffer".
Proof.
  unfold vertex_buffer_ref. intros Hr Hvb.
  destruct (subtree root pgeom) as [geometry|] eqn:Hg; [|discriminate].
  destruct (find_desc geometry "vertexbuffer") as [q|] eqn:Hq; [|discriminate].
  injection Hr as <-. rewrite subtree_app, Hg in Hvb.
  destruct (find_desc_names _ _ _ Hq) as (d & Hd & Ht). congruence.
Qed.

Lemma process_submesh_preserved st idx psub st' :
  process_submesh st idx psub = Ok st' -> preserved Elsewhere (root st) (root st').
Proof.
  unfold process_submesh. intros Hp.
  destruct (subtree (root st) psub) as [submesh|];
    [|inv_res; subst; apply preserved_refl].
  destruct (geometry_ref _ _ _ _) as [pgeom|];
    [|inv_res; subst; apply preserved_refl].
  destruct (vertex_buffer_ref _ _) as [pvb|] eqn:Hpvb;
    [|inv_res; subst; apply preserved_refl].
  destruct (subtree (root st) pvb) as [vb|] eqn:Hvb;
    [|inv_res; subst; apply preserved_refl].
  apply bind_Ok in Hp. destruct Hp as (r & Hr & Hp).
  destruct r as [w|vb' k ws]; inv_res; subst; simpl; [apply preserved_refl|].
  pose proof (vertex_buffer_ref_tag _ _ _ _ Hpvb Hvb) as Htag.
  destruct (recalc_vertex_buffer_preserved
              (place_of Elsewhere (root st) pvb) _ _ _ _ _ _ Htag Hr) as [Hpres Hattr].
  eapply preserved_update_at; eauto.
Qed.

Lemma process_submeshes_preserved st idx submeshes st' :
  process_submeshes st idx submeshes = Ok st' ->
  preserved Elsewhere (root st) (root st').
Proof.
  revert st idx. induction submeshes as [|psub rest IH]; intros st idx Hp; simpl in Hp.
  - inv_res. subst. apply preserved_refl.
  - inv_res. eapply preserved_trans.
    + eapply process_submesh_preserved; eauto.
    + eapply IH; eauto.
Qed.

Lemma run_preserved tree st :
  run tree = Ok st -> preserved Elsewhere tree (root st).
Proof. unfold run. intros Hp. apply process_submeshes_preserved in Hp. exact Hp. Qed.

End PassFrame.

(** *** What the relation says, element by element *)

Section FrameReading.
Import Frame.

Lemma preserved_fields f d d' :
  preserved f d d' ->
  tag d' = tag d /\ text d' = text d /\ tail d' = tail d /\
  agree_off_xyz (attrib d) (attrib d') /\
  (attrib d' <> attrib d -> normal_at f (tag d) = true) /\
  (length (children d) <= length (children d'))%nat /\
  (length (children d') <> length (children d) ->
   record f (tag d) = true /\ find d "normal" = None /\
   length (children d') = S (length (children d))).
Proof.
  intros Hp. inversion Hp as [? t a a' x y cs cs' extra Ha Hcs Hfst Hex Hv]; subst.
  simpl. pose proof (Forall2_length _ _ _ Hcs) as Hlen.
  do 3 (split; [reflexivity|]).
  split; [|split; [|split]].
  - destruct (normal_at f t); [exact Ha|]. subst. apply agree_off_xyz_refl.
  - intros Hne. destruct (normal_at f t); [reflexivity|]. congruence.
  - rewrite length_app. lia.
  - intros Hmore. destruct extra as [|c extra]; [rewrite app_nil_r in Hmore; lia|].
    destruct Hv as (Hrec & Hnone & Hone); [discriminate|].
    repeat split; auto. rewrite length_app, Hone. lia.
Qed.

(** Every element of the tree is still there, at its place. *)
Lemma preserved_subtree f e e' p d :
  preserved f e e' -> subtree e p = Some d ->
  exists d', subtree e' p = Some d' /\ preserved (place_of f e p) d d'.
Proof.
  revert f e e'. induction p as [|i p IH]; intros f e e' Hp Hd; simpl in Hd.
  - injection Hd as ->. exists e'. split; [reflexivity|exact Hp].
  - inversion Hp as [? t a a' x y cs cs' extra Ha Hcs Hfst Hex Hv]; subst. simpl in *.
    destruct (cs !! i) as [c|] eqn:Hc; [|discriminate].
    destruct (Forall2_lookup_l _ _ _ _ _ Hcs Hc) as (c' & Hc' & Hcc').
    rewrite (lookup_app_l_Some _ _ _ _ Hc').
    eapply IH; eauto.
Qed.

Lemma subtree_snoc e q i :
  subtree e (q ++ [i]) =
    match subtree e q with
    | Some v => children v !! i
    | None => None
    end.
Proof.
  rewrite subtree_app. destruct (subtree e q) as [v|]; [|reflexivity].
  simpl. destruct (children v !! i); reflexivity.
Qed.

Lemma place_of_snoc f e q i v d :
  subtree e q = Some v -> children v !! i = Some d ->
  place_of f e (q ++ [i]) = below (place_of f e q) (tag v).
Proof.
  revert f e. induction q as [|j q IH]; intros f e Hv Hd; simpl in *.
  - injection Hv as ->. rewrite Hd. reflexivity.
  - destruct (children e !! j) as [c|]; [|discriminate]. apply IH; assumption.
Qed.

(** The element at the place [InBuffer] is the child of a vertexbuffer. *)
Lemma place_in_buffer e q v :
  subtree e q = Some v -> place_of Elsewhere e q = InBuffer ->
  exists q' j vb,
    q = q' ++ [j] /\ subtree e q' = Some vb /\ tag vb = "vertexbuffer" /\
    children vb !! j = Some v.
Proof.
  destruct q as [|j q _] using rev_ind; [discriminate|].
  rewrite subtree_snoc. destruct (subtree e q) as [vb|] eqn:Hvb; [|discriminate].
  intros Hv. rewrite (place_of_snoc _ _ _ _ _ _ Hvb Hv). unfold below.
  destruct (String.eqb (tag vb) "vertexbuffer") eqn:Ht.
  - intros _. exists q, j, vb. apply String.eqb_eq in Ht. auto.
  - destruct (record _ _); discriminate.
Qed.

Lemma record_record_at e q v :
  subtree e q = Some v -> record (place_of Elsewhere e q) (tag v) = true ->
  record_at e q.
Proof.
  intros Hv Hrec. unfold record in Hrec.
  destruct (place_of Elsewhere e q) eqn:Hplace; try discriminate.
  destruct (place_in_buffer _ _ _ Hv Hplace) as (q' & j & vb & -> & Hvb & Ht & Hj).
  exists q', j, vb, v. apply String.eqb_eq in Hrec. auto.
Qed.

(** The element at the place [InRecord] is the child of a vertex record. *)
Lemma place_in_record e p d :
  subtree e p = Some d -> place_of Elsewhere e p = InRecord ->
  exists q i v,
    p = q ++ [i] /\ subtree e q = Some v /\ children v !! i = Some d /\
    record_at e q.
Proof.
  destruct p as [|i q _] using rev_ind; [discriminate|].
  rewrite subtree_snoc. destruct (subtree e q) as [v|] eqn:Hv; [|discriminate].
  intros Hd. rewrite (place_of_snoc _ _ _ _ _ _ Hv Hd). unfold below.
  destruct (String.eqb (tag v) "vertexbuffer"); [discriminate|].
  destruct (record _ _) eqn:Hrec; [|discriminate].
  intros _. exists q, i, v. repeat split; auto.
  eapply record_record_at; eauto.
Qed.

(** An element whose attributes changed is the normal field of a vertex
    record. *)
Lemma preserved_changed e e' p d d' :
  preserved Elsewhere e e' -> subtree e p = Some d -> subtree e' p = Some d' ->
  attrib d' <> attrib d -> normal_field e p.
Proof.
  intros Hp Hd Hd' Hne.
  destruct (preserved_subtree _ _ _ _ _ Hp Hd) as (d'' & Hd'' & Hdd).
  assert (d'' = d') by congruence. subst d''.
  destruct (preserved_fields _ _ _ Hdd) as (_ & _ & _ & _ & Hn & _).
  specialize (Hn Hne). unfold normal_at in Hn.
  destruct (place_of Elsewhere e p) eqn:Hplace; try discriminate.
  apply String.eqb_eq in Hn.
  destruct (place_in_record _ _ _ Hd Hplace) as (q & i & v & -> & Hv & Hi & Hrec).
  exists q, i, v, d. repeat split; auto.
  destruct (preserved_subtree _ _ _ _ _ Hp Hv) as (v' & Hv' & Hvv).
  inversion Hvv as [? t a a' x y cs cs' extra Ha Hcs Hfst Hex Hx]; subst.
  simpl in *. rewrite subtree_snoc, Hv' in Hd'. simpl in Hd'.
  destruct (Forall2_lookup_l _ _ _ _ _ Hcs Hi) as (c' & Hc' & _).
  rewrite (lookup_app_l_Some _ _ _ _ Hc') in Hd'. injection Hd' as ->.
  eapply Hfst; eauto.
Qed.

(** An element that was not there is a created normal field, the last child
    of a vertex record that had no normal. *)
Lemma preserved_new_at f e e' p d' :
  preserved f e e' -> subtree e' p = Some d' -> subtree e p = None ->
  created_normal d' /\
  exists q v,
    p = q ++ [length (children v)] /\ subtree e q = Some v /\
    record (place_of f e q) (tag v) = true /\ find v "normal" = None.
Proof.
  revert f e e'. induction p as [|i p IH]; intros f e e' Hp Hd' Hd; simpl in Hd.
  - discriminate.
  - inversion Hp as [? t a a' x y cs cs' extra Ha Hcs Hfst Hex Hv]; subst. simpl in *.
    destruct ((cs' ++ extra) !! i) as [c'|] eqn:Hc'; [|discriminate].
    destruct (cs !! i) as [c|] eqn:Hc.
    + destruct (Forall2_lookup_l _ _ _ _ _ Hcs Hc) as (c'' & Hc'' & Hcc').
      rewrite (lookup_app_l_Some _ _ _ _ Hc'') in Hc'. injection Hc' as ->.
      destruct (IH _ _ _ Hcc' Hd' Hd) as (Hcr & q & v & -> & Hq & Hrec & Hnone).
      split; [exact Hcr|]. exists (i :: q), v. simpl. rewrite Hc. auto.
    + apply lookup_ge_None in Hc. pose proof (Forall2_length _ _ _ Hcs) as Hlen.
      rewrite lookup_app_r in Hc' by lia.
      assert (Hin : c' ∈ extra) by (eapply list_elem_of_lookup_2; eauto).
      rewrite Forall_forall in Hex. pose proof (Hex _ Hin) as Hcr.
      destruct Hv as (Hrec & Hnone & Hone).
      { intros ->. rewrite lookup_nil in Hc'. discriminate. }
      apply lookup_lt_Some in Hc'. assert (i = length cs) by lia. subst i.
      destruct p as [|j p]; simpl in Hd'.
      * injection Hd' as <-. split; [exact Hcr|].
        exists [], (Elem t a x y cs). auto.
      * destruct Hcr as (_ & _ & _ & Hnil & _). rewrite Hnil, lookup_nil in Hd'.
        discriminate.
Qed.

Lemma preserved_new e e' p d' :
  preserved Elsewhere e e' -> subtree e' p = Some d' -> subtree e p = None ->
  created_normal d' /\
  exists q v,
    p = q ++ [length (children v)] /\ subtree e q = Some v /\
    record_at e q /\ find v "normal" = None.
Proof.
  intros Hp Hd' Hd.
  destruct (preserved_new_at _ _ _ _ _ Hp Hd' Hd) as (Hcr & q & v & -> & Hv & Hrec & Hn).
  split; [exact Hcr|]. exists q, v. repeat split; auto.
  eapply record_record_at; eauto.
Qed.

End FrameReading.

(** The pass on a mesh none of whose vertices has a normal field. *)
Lemma run_without_normals :
  RecalcNormals.run (H := Concrete.builtins) (Examples.with_loose_vertex None) =
  Ok {| RecalcNormals.root := Examples.with_loose_vertex Examples.up;
        RecalcNormals.total_vertices_processed := 3;
        RecalcNormals.printed := [] |}.
Proof. vm_compute. reflexivity. Qed.

(** C9 on the code: the pass changes the tree in the normal fields of the
    vertex records only.  When the loop over the submeshes ends, every
    element of the tree is still at its place with its tag, text and tail;
    the only attributes that may differ are the x, y, z of the first child
    [normal] of a vertex record; the only elements that were not there are
    normal fields with x, y, z only, each the one child added to a vertex
    record that had no normal.  The file holds that tree when True is
    returned, and otherwise what it held or a partial output.  But a
    vertex record without a normal field gets one only when a counted face
    touches it: in [with_loose_vertex None] no vertex has a normal field;
    the three vertices of the face get one, and the fourth vertex, which no
    face uses, is left as it was, without a normal field. *)
Theorem recalculation_writes_normals_only :
  (forall (B : PyBuiltins) tree st,
     RecalcNormals.run tree = Ok st ->
     Frame.preserved Frame.Elsewhere tree (RecalcNormals.root st) /\
     (forall p d, subtree tree p = Some d ->
        exists d', subtree (RecalcNormals.root st) p = Some d' /\
          tag d' = tag d /\ text d' = text d /\ tail d' = tail d /\
          Frame.agree_off_xyz (attrib d) (attrib d') /\
          (attrib d' <> attrib d -> Frame.normal_field tree p) /\
          (length (children d') <> length (children d) ->
           Frame.record_at tree p /\ find d "normal" = None /\
           length (children d') = S (length (children d)))) /\
     (forall p d',
        subtree (RecalcNormals.root st) p = Some d' -> subtree tree p = None ->
        Frame.created_normal d' /\
        exists q v,
          p = q ++ [length (children v)] /\ subtree tree q = Some v /\
          Frame.record_at tree q /\ find v "normal" = None)) /\
  (forall (B : PyBuiltins) (F : PyFiles) tree file,
     (RecalcNormals.recalculate_normals tree = (true, file) ->
      exists st,
        RecalcNormals.run tree = Ok st /\ tree_write (RecalcNormals.root st) = Wrote /\
        file = RecalcNormals.Written (RecalcNormals.root st)) /\
     (RecalcNormals.recalculate_normals tree = (false, file) ->
      file = RecalcNormals.Untouched \/ file = RecalcNormals.Partial)) /\
  (forall (B : PyBuiltins) a i vertex count,
     getitem (RecalcNormals.vertex_face_count a) (Z.of_nat i) = Ok count ->
     find vertex "normal" = None ->
     ((0 < count)%nat ->
      forall acc,
        getitem (RecalcNormals.vertex_normals a) (Z.of_nat i) = Ok acc ->
        let n := RecalcNormals.final_normal acc count in
        RecalcNormals.write_vertex a i vertex =
          Ok (RecalcNormals.create_normal
                (format_6f (Vector3.x n)) (format_6f (Vector3.y n))
                (format_6f (Vector3.z n)) vertex, true)) /\
     (count = 0%nat -> RecalcNormals.write_vertex a i vertex = Ok (vertex, false))) /\
  (exists st,
     RecalcNormals.run (H := Concrete.builtins) (Examples.with_loose_vertex None) = Ok st /\
     RecalcNormals.root st = Examples.with_loose_vertex Examples.up /\
     RecalcNormals.total_vertices_processed st = 3%nat /\
     (forall i, (i < 3)%nat ->
        exists v v',
          subtree (Examples.with_loose_vertex None) [0; 0; 1; 0; i]%nat = Some v /\
          find v "normal" = None /\
          subtree (RecalcNormals.root st) [0; 0; 1; 0; i]%nat = Some v' /\
          find v' "normal" =
            Some (Concrete.node "normal"
                    [("x", "0.000000"); ("y", "0.000000"); ("z", "1.000000")] [])) /\
     (exists v,
        subtree (Examples.with_loose_vertex None) [0; 0; 1; 0; 3]%nat = Some v /\
        tag v = "vertex" /\ find v "normal" = None /\
        subtree (RecalcNormals.root st) [0; 0; 1; 0; 3]%nat = Some v)) /\
  (forall F : PyFiles,
     RecalcNormals.recalculate_normals (H := Concrete.builtins)
       (Examples.with_loose_vertex None) =
     RecalcNormals.save (Examples.with_loose_vertex Examples.up)).
Proof.
  split; [|split; [|split; [|split]]].
  - intros B tree st Hst. pose proof (run_preserved _ _ Hst) as Hp.
    split; [exact Hp|]. split.
    + intros p d Hd.
      destruct (preserved_subtree _ _ _ _ _ Hp Hd) as (d' & Hd' & Hdd').
      destruct (preserved_fields _ _ _ Hdd') as (H1 & H2 & H3 & H4 & _ & _ & H7).
      exists d'. repeat (split; [assumption|]). split.
      * intros Hne. eapply preserved_changed; eauto.
      * intros Hlen. destruct (H7 Hlen) as (Hrec & Hnone & Hone).
        repeat split; auto. eapply record_record_at; eauto.
    + intros p d' Hd' Hd. eapply preserved_new; eauto.
  - intros B F tree file. unfold RecalcNormals.recalculate_normals, RecalcNormals.save.
    destruct (RecalcNormals.run tree) as [st|e]; split; intros Hr.
    + destruct (tree_write (RecalcNormals.root st)) eqn:Hw; try discriminate.
      injection Hr as <-. exists st. auto.
    + destruct (tree_write (RecalcNormals.root st)); try discriminate;
        injection Hr as <-; auto.
    + discriminate.
    + injection Hr as <-. auto.
  - intros B a i vertex count Hcount Hfind.
    unfold RecalcNormals.write_vertex. rewrite Hcount. simpl. split.
    + intros Hpos acc Hacc. apply Nat.ltb_lt in Hpos. rewrite Hpos, Hacc. simpl.
      rewrite Hfind. reflexivity.
    + intros ->. simpl. rewrite Hfind. reflexivity.
  - eexists. split; [exact run_without_normals|].
    split; [reflexivity|]. split; [reflexivity|].
    split.
    + intros i Hi.
      destruct i as [|[|[|i]]]; [| | |lia]; eexists; eexists;
        (split; [reflexivity|]); (split; [reflexivity|]);
        (split; [reflexivity|]); reflexivity.
    + eexists. split; [reflexivity|]. repeat split.
  - intros F. unfold RecalcNormals.recalculate_normals.
    rewrite run_without_normals. reflexivity.
Qed.

(** ** The first vertexbuffer of a block (C10) *)

Section FirstDescendant.
Import Descendants.

Lemma iter_paths_from t a x y cs : iter_paths (Elem t a x y cs) = iter_from 0 cs.
Proof.
  simpl. generalize 0%nat. induction cs as [|c cs IH]; intros i; simpl; [reflexivity|].
  rewrite IH. reflexivity.
Qed.

Lemma first_desc_from t0 t a x y cs : first_desc t0 (Elem t a x y cs) = first_from t0 0 cs.
Proof.
  simpl. generalize 0%nat. induction cs as [|c cs IH]; intros i; simpl; [reflexivity|].
  rewrite IH. reflexivity.
Qed.

Lemma tag_at_cons e t i p :
  tag_at e t (i :: p) =
    match children e !! i with
    | Some c => tag_at c t p
    | None => false
    end.
Proof. unfold tag_at. simpl. destruct (children e !! i); reflexivity. Qed.

Lemma filter_under_child e t i c (l : list path) :
  children e !! i = Some c ->
  List.filter (tag_at e t) (List.map (cons i) l) =
    List.map (cons i) (List.filter (tag_at c t) l).
Proof.
  intros Hc. induction l as [|p l IH]; simpl; [reflexivity|].
  rewrite tag_at_cons, Hc. destruct (tag_at c t p); simpl; rewrite IH; reflexivity.
Qed.

Lemma head_app {A} (l1 l2 : list A) :
  head (l1 ++ l2) = match head l1 with Some a => Some a | None => head l2 end.
Proof. destruct l1; reflexivity. Qed.

Lemma head_map {A B} (f : A -> B) (l : list A) : head (List.map f l) = f <$> head l.
Proof. destruct l; reflexivity. Qed.

(** [find('.//t')] is the first descendant of the recursion. *)
Lemma find_desc_first_desc e t : find_desc e t = first_desc t e.
Proof.
  induction e as [t0 a x y cs IH] using Element_ind'.
  unfold find_desc, findall_desc. rewrite iter_paths_from, first_desc_from.
  assert (Hgen : forall pre l, cs = pre ++ l ->
            head (List.filter (tag_at (Elem t0 a x y cs) t) (iter_from (length pre) l))
            = first_from t (length pre) l).
  { intros pre l. revert pre. induction l as [|c l IHl]; intros pre Hcs; [reflexivity|].
    assert (Hc : children (Elem t0 a x y cs) !! length pre = Some c).
    { simpl. rewrite Hcs. apply list_lookup_middle. reflexivity. }
    assert (Hin : find_desc c t = first_desc t c).
    { rewrite Forall_forall in IH. apply IH. rewrite Hcs.
      apply list_elem_of_In, in_app_iff. right. left. reflexivity. }
    cbn [iter_from first_from].
    rewrite List.filter_app. cbn [List.filter].
    rewrite tag_at_cons, Hc. unfold tag_at at 1. cbn [subtree].
    destruct (has_tag t c) eqn:Ht; [reflexivity|].
    rewrite head_app, (filter_under_child _ _ _ _ _ Hc), head_map.
    change (head (List.filter (tag_at c t) (iter_paths c))) with (find_desc c t).
    rewrite Hin.
    destruct (first_desc t c); [reflexivity|]. simpl.
    specialize (IHl (pre ++ [c])). rewrite length_app in IHl. simpl in IHl.
    replace (length pre + 1)%nat with (S (length pre)) in IHl by lia.
    apply IHl. rewrite <- app_assoc. exact Hcs. }
  apply (Hgen [] cs). reflexivity.
Qed.

(** The reference [find('.//t')] returns names an element with the tag. *)
Lemma find_desc_tag e t q : find_desc e t = Some q -> tag_at e t q = true.
Proof.
  unfold find_desc, findall_desc. intros Hq.
  assert (Hin : In q (List.filter (tag_at e t) (iter_paths e))).
  { destruct (List.filter _ _) as [|q' l]; [discriminate|].
    injection Hq as ->. left. reflexivity. }
  apply filter_In in Hin. tauto.
Qed.

Lemma first_from_inv t i l q :
  first_from t i l = Some q ->
  exists j c p,
    q = (i + j)%nat :: p /\ l !! j = Some c /\
    match p with
    | [] => has_tag t c = true
    | _ :: _ => has_tag t c = false /\ first_desc t c = Some p
    end.
Proof.
  revert i. induction l as [|c l IH]; intros i Hq; simpl in Hq; [discriminate|].
  destruct (has_tag t c) eqn:Ht.
  - injection Hq as <-. exists 0%nat, c, []. rewrite Nat.add_0_r. auto.
  - destruct (first_desc t c) as [p|] eqn:Hp.
    + injection Hq as <-. exists 0%nat, c, p. rewrite Nat.add_0_r.
      repeat split; auto. destruct p; auto.
      destruct c as [t1 a1 x1 y1 cs1]. rewrite first_desc_from in Hp.
      destruct cs1 as [|c1 cs1]; simpl in Hp; [discriminate|].
      destruct (has_tag t c1); [discriminate|].
      destruct (first_desc t c1); [discriminate|].
      clear - Hp. exfalso. revert Hp. generalize 1%nat.
      induction cs1 as [|c2 cs1 IH]; intros n Hp; simpl in Hp; [discriminate|].
      destruct (has_tag t c2); [discriminate|].
      destruct (first_desc t c2); [discriminate|]. eapply IH; eauto.
    + destruct (IH _ Hq) as (j & c' & p & -> & Hc' & Hp').
      exists (S j), c', p. replace (i + S j)%nat with (S i + j)%nat by lia. auto.
Qed.

(** No element above the first descendant with a tag has the tag. *)
Lemma first_desc_no_ancestor t e q q0 r :
  first_desc t e = Some q -> q = q0 ++ r -> q0 <> [] -> r <> [] ->
  tag_at e t q0 = false.
Proof.
  revert q q0 r. induction e as [t0 a x y cs IH] using Element_ind'.
  intros q q0 r Hq Hsplit Hq0 Hr. rewrite first_desc_from in Hq.
  destruct (first_from_inv _ _ _ _ Hq) as (j & c & p & -> & Hc & Hp). simpl in Hsplit.
  destruct q0 as [|j0 p0]; [congruence|]. simpl in Hsplit. injection Hsplit as <- ->.
  rewrite tag_at_cons. simpl. rewrite Hc.
  destruct p0 as [|k p0]; simpl in Hp.
  - destruct r as [|k r]; [congruence|]. simpl in Hp. unfold tag_at. simpl. tauto.
  - destruct Hp as [_ Hp]. rewrite Forall_forall in IH.
    eapply (IH c); eauto; try discriminate.
    eapply list_elem_of_lookup_2; eauto.
Qed.

End FirstDescendant.

Section OtherElements.
Context `{PyBuiltins}.
Import Frame RecalcNormals.

Lemma update_first_lookup t f cs j c :
  cs !! j = Some c ->
  update_first t f cs !! j = Some c \/
  (has_tag t c = true /\ update_first t f cs !! j = Some (f c)).
Proof.
  revert j. induction cs as [|c0 cs IH]; intros j Hc; [discriminate|]. simpl.
  destruct (has_tag t c0) eqn:Ht.
  - destruct j as [|j]; simpl in *; [|left; exact Hc].
    injection Hc as <-. right. auto.
  - destruct j as [|j]; simpl in *; [left; exact Hc|]. apply IH, Hc.
Qed.

Lemma subtree_set_xyz sx sy sz e r :
  r <> [] -> subtree (set_xyz sx sy sz e) r = subtree e r.
Proof. destruct e, r; [congruence|reflexivity]. Qed.

(** Below a vertex record, what is not a normal field is not touched. *)
Lemma write_vertex_subtree a i vertex vertex' updated r d :
  write_vertex a i vertex = Ok (vertex', updated) ->
  r <> [] -> subtree vertex r = Some d -> tag d <> "normal" ->
  subtree vertex' r = Some d.
Proof.
  unfold write_vertex. intros Hw Hr Hd Ht.
  assert (Hset : forall sx sy sz, subtree (set_normal sx sy sz vertex) r = Some d).
  { intros sx sy sz. destruct vertex as [t a0 x y cs], r as [|j r]; [congruence|].
    simpl in *. destruct (cs !! j) as [c|] eqn:Hc; [|discriminate].
    destruct (update_first_lookup "normal" (set_xyz sx sy sz) _ _ _ Hc)
      as [->|[Hn ->]]; [exact Hd|].
    destruct r as [|k r].
    - simpl in Hd. injection Hd as <-. apply String.eqb_eq in Hn. contradiction.
    - rewrite subtree_set_xyz by discriminate. exact Hd. }
  assert (Hnew : forall sx sy sz, subtree (create_normal sx sy sz vertex) r = Some d).
  { intros sx sy sz. destruct vertex as [t a0 x y cs], r as [|j r]; [congruence|].
    simpl in *. destruct (cs !! j) as [c|] eqn:Hc; [|discriminate].
    rewrite (lookup_app_l_Some _ _ _ _ Hc). exact Hd. }
  inv_res. destruct (0 <? r0)%nat; inv_res;
    destruct (find vertex "normal"); inv_res; subst; auto.
Qed.

Lemma write_back_subtree a cs i n cs' m k c r d :
  write_back a cs i n = Ok (cs', m) ->
  cs !! k = Some c -> subtree c r = Some d ->
  tag d <> "vertex" -> tag d <> "normal" ->
  exists c', cs' !! k = Some c' /\ subtree c' r = Some d.
Proof.
  revert i n cs' m k. induction cs as [|c0 cs IH]; intros i n cs' m k Hw Hc Hd Hv Hn;
    [discriminate|]. simpl in Hw.
  destruct (has_tag "vertex" c0) eqn:Ht.
  - apply bind_Ok in Hw. destruct Hw as ([c0' updated] & Hc0 & Hw).
    apply bind_Ok in Hw. destruct Hw as ([rest j] & Hrest & Hw). inv_res. subst.
    destruct k as [|k]; simpl in *; [|eapply IH; eauto].
    injection Hc as <-. exists c0'. split; [reflexivity|].
    destruct r as [|j0 r].
    + simpl in Hd. injection Hd as <-. apply String.eqb_eq in Ht. contradiction.
    + eapply write_vertex_subtree; eauto; discriminate.
  - apply bind_Ok in Hw. destruct Hw as ([rest j] & Hrest & Hw). inv_res. subst.
    destruct k as [|k]; simpl in *; [|eapply IH; eauto].
    injection Hc as <-. exists c0. auto.
Qed.

(** Below the vertexbuffer the pass works on, an element that is neither a
    vertex record nor a normal field is what it was. *)
Lemma recalc_vertex_buffer_subtree n vb faces vb' k ws r d :
  recalc_vertex_buffer n vb faces = Ok (Updated vb' k ws) ->
  r <> [] -> subtree vb r = Some d ->
  tag d <> "vertex" -> tag d <> "normal" ->
  subtree vb' r = Some d.
Proof.
  unfold recalc_vertex_buffer. intros Hr Hne Hd Hv Hn.
  destruct (negb _); [discriminate|].
  apply bind_Ok in Hr. destruct Hr as (positions & _ & Hr).
  destruct (length positions =? 0)%nat; [discriminate|].
  destruct faces as [faces|]; [|discriminate].
  apply bind_Ok in Hr. destruct Hr as (acc & _ & Hr).
  apply bind_Ok in Hr. destruct Hr as ([cs updated] & Hw & Hr).
  destruct vb as [t a x y cs0]. injection Hr as <- <- <-.
  destruct r as [|j r]; [congruence|]. simpl in *.
  destruct (cs0 !! j) as [c|] eqn:Hc; [|discriminate].
  destruct (write_back_subtree _ _ _ _ _ _ _ _ _ _ Hw Hc Hd Hv Hn) as (c' & -> & Hd').
  exact Hd'.
Qed.

Lemma parts_from_app (p q q' : path) :
  parts_from q q' -> parts_from (p ++ q) (p ++ q').
Proof.
  intros [H1 H2]. split.
  - intros [r Hr]. apply H1. exists r. rewrite <- app_assoc in Hr.
    apply app_inv_head in Hr. exact Hr.
  - intros [r Hr]. apply H2. exists r. rewrite <- app_assoc in Hr.
    apply app_inv_head in Hr. exact Hr.
Qed.

(** What one submesh does to the tree, from its first vertexbuffer. *)
Lemma process_submesh_outcome st idx psub submesh pgeom geometry st' :
  subtree (root st) psub = Some submesh ->
  geometry_ref (root st) psub submesh (shared_flag submesh) = Some pgeom ->
  subtree (root st) pgeom = Some geometry ->
  process_submesh st idx psub = Ok st' ->
  match find_desc geometry "vertexbuffer" with
  | None => st' = skip (NoVertexBuffer (S idx)) st
  | Some q =>
      exists vb,
        subtree geometry q = Some vb /\ tag vb = "vertexbuffer" /\
        match recalc_vertex_buffer (S idx) vb (faces_of submesh) with
        | Ok (Skipped w) => st' = skip w st
        | Ok (Updated vb' n ws) =>
            st' = {| root := update_at (pgeom ++ q) (fun _ => vb') (root st);
                     total_vertices_processed :=
                       (total_vertices_processed st + n)%nat;
                     printed := printed st ++ ws |}
        | Raise _ => False
        end
  end.
Proof.
  intros Hsub Hgeom Hg Hp. unfold process_submesh in Hp.
  rewrite Hsub in Hp. cbv zeta in Hp. rewrite Hgeom in Hp.
  unfold vertex_buffer_ref in Hp. rewrite Hg in Hp.
  destruct (find_desc geometry "vertexbuffer") as [q|] eqn:Hq; [|inv_res; auto].
  pose proof (find_desc_tag _ _ _ Hq) as Htag. unfold tag_at in Htag.
  destruct (subtree geometry q) as [vb|] eqn:Hvb; [|discriminate].
  rewrite subtree_app, Hg, Hvb in Hp.
  exists vb. split; [reflexivity|]. split; [apply String.eqb_eq, Htag|].
  destruct (recalc_vertex_buffer (S idx) vb (faces_of submesh)) as [[w|vb' n ws]|e];
    simpl in Hp; inv_res; auto.
Qed.

End OtherElements.

(** C10: the pass on a submesh resolves the geometry block and works on the
    first vertexbuffer below it only.  Without one the submesh is skipped.
    Otherwise the submesh is skipped when that vertexbuffer does not declare
    normals, whatever the others declare; what the pass does to the tree and
    to the counters is computed from that vertexbuffer and the faces of the
    submesh alone, and written back at its place; every other vertexbuffer
    of the block is afterwards the element it was. *)
Theorem first_vertexbuffer_only `{PyBuiltins} st idx psub submesh pgeom geometry st' :
  subtree (RecalcNormals.root st) psub = Some submesh ->
  RecalcNormals.geometry_ref (RecalcNormals.root st) psub submesh
    (RecalcNormals.shared_flag submesh) = Some pgeom ->
  subtree (RecalcNormals.root st) pgeom = Some geometry ->
  RecalcNormals.process_submesh st idx psub = Ok st' ->
  match find_desc geometry "vertexbuffer" with
  | None => st' = RecalcNormals.skip (RecalcNormals.NoVertexBuffer (S idx)) st
  | Some q =>
      exists vb,
        subtree geometry q = Some vb /\ tag vb = "vertexbuffer" /\
        (get vb "normals" <> Some "true" ->
         st' = RecalcNormals.skip (RecalcNormals.NoNormals (S idx)) st) /\
        match RecalcNormals.recalc_vertex_buffer (S idx) vb
                (RecalcNormals.faces_of submesh) with
        | Ok (RecalcNormals.Skipped w) => st' = RecalcNormals.skip w st
        | Ok (RecalcNormals.Updated vb' n ws) =>
            st' = {| RecalcNormals.root :=
                       update_at (pgeom ++ q) (fun _ => vb') (RecalcNormals.root st);
                     RecalcNormals.total_vertices_processed :=
                       (RecalcNormals.total_vertices_processed st + n)%nat;
                     RecalcNormals.printed := RecalcNormals.printed st ++ ws |}
        | Raise _ => False
        end /\
        (forall q' d,
           q' <> [] -> q' <> q ->
           subtree geometry q' = Some d -> tag d = "vertexbuffer" ->
           subtree (RecalcNormals.root st') (pgeom ++ q') = Some d)
  end.
Proof.
  intros Hsub Hgeom Hg Hp.
  pose proof (process_submesh_outcome _ _ _ _ _ _ _ Hsub Hgeom Hg Hp) as Hout.
  destruct (find_desc geometry "vertexbuffer") as [q|] eqn:Hq; [|exact Hout].
  destruct Hout as (vb & Hvb & Htag & Hout).
  exists vb. split; [exact Hvb|]. split; [exact Htag|].
  split; [|split; [exact Hout|]].
  - intros Hno. unfold RecalcNormals.recalc_vertex_buffer in Hout.
    rewrite bool_decide_eq_false_2 in Hout by exact Hno. exact Hout.
  - intros q' d Hne Hneq Hd Hd_tag.
    assert (Hkept : subtree (RecalcNormals.root st) (pgeom ++ q') = Some d).
    { rewrite subtree_app, Hg. exact Hd. }
    destruct (RecalcNormals.recalc_vertex_buffer (S idx) vb
                (RecalcNormals.faces_of submesh)) as [[w|vb' n ws]|e] eqn:Hr;
      [subst st'; exact Hkept| |destruct Hout].
    subst st'. simpl.
    destruct (decide (q `prefix_of` q')) as [[r ->]|Hqq'].
    + assert (r <> []) by (intros ->; rewrite app_nil_r in Hneq; congruence).
      rewrite app_assoc.
      rewrite (subtree_update_at _ _ _ vb) by (rewrite subtree_app, Hg; exact Hvb).
      rewrite subtree_app, Hvb in Hd.
      eapply recalc_vertex_buffer_subtree; eauto; rewrite Hd_tag; discriminate.
    + destruct (decide (q' `prefix_of` q)) as [[r ->]|Hq'q].
      * exfalso.
        assert (r <> []) by (intros ->; rewrite app_nil_r in Hneq; congruence).
        rewrite find_desc_first_desc in Hq.
        pose proof (first_desc_no_ancestor _ _ _ q' r Hq eq_refl Hne ltac:(assumption))
          as Hfalse.
        unfold tag_at in Hfalse. rewrite Hd in Hfalse. unfold has_tag in Hfalse.
        rewrite Hd_tag in Hfalse. discriminate.
      * rewrite subtree_update_at_other; [exact Hkept|].
        apply parts_from_app. split; assumption.
Qed.

(** In [split_buffers] the first vertexbuffer of the block declares the
    positions and the second one the normals: the submesh is skipped for want
    of normals.  In [two_buffers] the first one declares normals too: the
    pass runs and the second vertexbuffer is what it was. *)
Lemma first_vertexbuffer_only_witness :
  RecalcNormals.process_submesh (H := Concrete.builtins)
    (Examples.start Examples.split_buffers) 0 [0; 0]%nat =
    Ok (RecalcNormals.skip (RecalcNormals.NoNormals 1)
          (Examples.start Examples.split_buffers)) /\
  exists st',
    RecalcNormals.process_submesh (H := Concrete.builtins)
      (Examples.start Examples.two_buffers) 0 [0; 0]%nat = Ok st' /\
    RecalcNormals.total_vertices_processed st' = 3%nat /\
    subtree (RecalcNormals.root st') [0; 0; 1; 1]%nat =
      subtree Examples.two_buffers [0; 0; 1; 1]%nat.
Proof.
  split.
  - destruct (RecalcNormals.process_submesh (H := Concrete.builtins)
                (Examples.start Examples.split_buffers) 0 [0; 0]%nat)
      as [st'|e] eqn:Hp; [|vm_compute in Hp; discriminate].
    pose proof (first_vertexbuffer_only (H := Concrete.builtins)
                  (Examples.start Examples.split_buffers) 0 [0; 0]%nat
                  Examples.split_buffers_submesh [0; 0; 1]%nat _ st'
                  eq_refl eq_refl eq_refl Hp) as Hthm.
    change (find_desc _ "vertexbuffer") with (Some [0%nat]) in Hthm.
    destruct Hthm as (vb & Hvb & _ & Hskip & _).
    vm_compute in Hvb. injection Hvb as <-.
    f_equal. apply Hskip. vm_compute. discriminate.
  - eexists. split; [vm_compute; reflexivity|]. split; [reflexivity|].
    vm_compute. reflexivity.
Defined.

(** ** Faces with invalid indices (C7) *)

Section FaceIndices.
Context `{PyBuiltins}.
Import RecalcNormals.

(** A face with an index at or above the vertex count is skipped with a
    warning: the accumulators and the count of faces stay as they are. *)
Lemma face_above_range_skipped positions face a v1 v2 v3 :
  int_attr0 face "v1" = Ok v1 ->
  int_attr0 face "v2" = Ok v2 ->
  int_attr0 face "v3" = Ok v3 ->
  Z.of_nat (length positions) <= v1 \/ Z.of_nat (length positions) <= v2 \/
  Z.of_nat (length positions) <= v3 ->
  accumulate_face positions face a = Ok (warn (InvalidFaceIndices (face_count a)) a).
Proof.
  intros H1 H2 H3 Habove. unfold accumulate_face, face_body.
  rewrite H1, H2, H3. simpl.
  assert (Hcond : (v1 <? Z.of_nat (length positions))
                  && (v2 <? Z.of_nat (length positions))
                  && (v3 <? Z.of_nat (length positions)) = false).
  { rewrite !andb_false_iff, !Z.ltb_ge. tauto. }
  rewrite Hcond. reflexivity.
Qed.

(** An index that is not a number is a warning too. *)
Lemma face_not_a_number_skipped positions face a :
  int_attr0 face "v1" = Raise ValueError ->
  accumulate_face positions face a = Ok (warn (FaceError (face_count a)) a).
Proof.
  intros H1. unfold accumulate_face, face_body. rewrite H1. reflexivity.
Qed.

End FaceIndices.

(** C7 on the code: a face with an index at or above the vertex count is
    skipped with a warning and changes nothing, as the claim says; but the
    check has no lower bound.  With three vertices, the face (-1, 0, 1) is
    not skipped: it is counted and adds to the three vertices 2, 0 and 1;
    and the face (-4, 0, 1) raises IndexError, which ends the whole pass:
    [recalculate_normals] returns False, the file is not touched and the
    face (0, 1, 2) that follows is not processed. *)
Theorem negative_face_index_not_skipped :
  (forall (B : PyBuiltins) positions face a v1 v2 v3,
     int_attr0 face "v1" = Ok v1 ->
     int_attr0 face "v2" = Ok v2 ->
     int_attr0 face "v3" = Ok v3 ->
     Z.of_nat (length positions) <= v1 \/ Z.of_nat (length positions) <= v2 \/
     Z.of_nat (length positions) <= v3 ->
     RecalcNormals.accumulate_face positions face a =
       Ok (RecalcNormals.warn
             (RecalcNormals.InvalidFaceIndices (RecalcNormals.face_count a)) a)) /\
  (exists acc,
     RecalcNormals.accumulate (H := Concrete.builtins) Examples.triangle_positions
       [Examples.face "-1" "0" "1"] (RecalcNormals.init_acc 3) = Ok acc /\
     RecalcNormals.face_count acc = 1%nat /\
     RecalcNormals.vertex_face_count acc = [1; 1; 1]%nat /\
     RecalcNormals.warnings acc = []) /\
  RecalcNormals.run (H := Concrete.builtins) Examples.with_index_before_start =
    Raise IndexError /\
  (forall F : PyFiles,
     RecalcNormals.recalculate_normals (H := Concrete.builtins)
       Examples.with_index_before_start = (false, RecalcNormals.Untouched)).
Proof.
  assert (Hrun : RecalcNormals.run (H := Concrete.builtins)
                   Examples.with_index_before_start = Raise IndexError)
    by (vm_compute; reflexivity).
  split; [|split; [|split]].
  - intros B positions face a v1 v2 v3. apply face_above_range_skipped.
  - eexists. split; [vm_compute; reflexivity|]. repeat split.
  - exact Hrun.
  - intros F. unfold RecalcNormals.recalculate_normals. rewrite Hrun. reflexivity.
Qed.

(** ** The normals written back (C8) *)

Section WrittenNormals.
Context `{PyBuiltins}.
Import RecalcNormals.

(** The four cases of the write-back of one vertex record. *)
Lemma write_vertex_cases a i vertex count :
  getitem (vertex_face_count a) (Z.of_nat i) = Ok count ->
  ((0 < count)%nat ->
   forall acc, getitem (vertex_normals a) (Z.of_nat i) = Ok acc ->
     let n := final_normal acc count in
     let sx := format_6f (Vector3.x n) in
     let sy := format_6f (Vector3.y n) in
     let sz := format_6f (Vector3.z n) in
     write_vertex a i vertex =
       Ok (match find vertex "normal" with
           | Some _ => set_normal sx sy sz vertex
           | None => create_normal sx sy sz vertex
           end, true)) /\
  (count = 0%nat ->
   write_vertex a i vertex =
     Ok (match find vertex "normal" with
         | Some _ => set_normal "0.000000" "1.000000" "0.000000" vertex
         | None => vertex
         end, false)).
Proof.
  intros Hcount. unfold write_vertex. rewrite Hcount. simpl. split.
  - intros Hpos acc Hacc. apply Nat.ltb_lt in Hpos. rewrite Hpos, Hacc. simpl.
    destruct (find vertex "normal"); reflexivity.
  - intros ->. simpl. destruct (find vertex "normal"); reflexivity.
Qed.

End WrittenNormals.

(** C8 on the code: a vertex touched by [count > 0] faces gets the
    normalized average
    [normalize(accumulator * (1.0 / count))] in its normal field, which is
    created when missing, and is counted as updated; a vertex touched by no
    face is not counted, and its normal field is set to 0.000000 1.000000
    0.000000 when it has one.  When it has none, none is created: in
    [with_loose_vertex] the fourth vertex, which no face uses and which has
    no normal field, is left without a normal. *)
Theorem loose_vertex_gets_no_normal :
  (forall (B : PyBuiltins) a i vertex count,
     getitem (RecalcNormals.vertex_face_count a) (Z.of_nat i) = Ok count ->
     ((0 < count)%nat ->
      forall acc,
        getitem (RecalcNormals.vertex_normals a) (Z.of_nat i) = Ok acc ->
        let n := Vector3.normalize (Vector3.mul acc (1.0 / float_of_nat count)%float) in
        let sx := format_6f (Vector3.x n) in
        let sy := format_6f (Vector3.y n) in
        let sz := format_6f (Vector3.z n) in
        RecalcNormals.write_vertex a i vertex =
          Ok (match find vertex "normal" with
              | Some _ => RecalcNormals.set_normal sx sy sz vertex
              | None => RecalcNormals.create_normal sx sy sz vertex
              end, true)) /\
     (count = 0%nat ->
      RecalcNormals.write_vertex a i vertex =
        Ok (match find vertex "normal" with
            | Some _ =>
                RecalcNormals.set_normal "0.000000" "1.000000" "0.000000" vertex
            | None => vertex
            end, false))) /\
  (forall F : PyFiles,
     RecalcNormals.recalculate_normals (H := Concrete.builtins)
       (Examples.with_loose_vertex (Some ("1", "0", "0"))) =
     RecalcNormals.save (Examples.with_loose_vertex Examples.up)) /\
  (exists vertex,
     subtree (Examples.with_loose_vertex Examples.up) [0; 0; 1; 0; 3]%nat = Some vertex /\
     tag vertex = "vertex" /\ find vertex "normal" = None) /\
  (exists st,
     RecalcNormals.run (H := Concrete.builtins)
       (Examples.with_loose_vertex (Some ("1", "0", "0"))) = Ok st /\
     RecalcNormals.total_vertices_processed st = 3%nat).
Proof.
  assert (Hrun : RecalcNormals.run (H := Concrete.builtins)
                   (Examples.with_loose_vertex (Some ("1", "0", "0"))) =
                 Ok {| RecalcNormals.root := Examples.with_loose_vertex Examples.up;
                       RecalcNormals.total_vertices_processed := 3;
                       RecalcNormals.printed := [] |})
    by (vm_compute; reflexivity).
  split; [|split; [|split]].
  - intros B a i vertex count. apply write_vertex_cases.
  - intros F. unfold RecalcNormals.recalculate_normals. rewrite Hrun. reflexivity.
  - eexists. split; [reflexivity|]. split; reflexivity.
  - eexists. split; [exact Hrun|]. reflexivity.
Qed.

(** ** The global sequences of the exporter *)

(** X1: after a mesh is parsed the global normal sequence is never longer than
    the global vertex sequence: each block appends either no normal or one
    normal per vertex. *)
Theorem normals_never_outgrow_vertices `{PyBuiltins} root self' :
  MeshToObj.parse_mesh_xml MeshToObj.init root = Ok self' ->
  (length (MeshToObj.normals self') <= length (MeshToObj.vertices self'))%nat.
Proof.
  unfold MeshToObj.parse_mesh_xml. intros Hp. inv_res.
  assert (Hb0 : MergeSpec.bounded MeshToObj.init)
    by (unfold MergeSpec.bounded; simpl; lia).
  assert (Hb : MergeSpec.bounded r).
  { destruct (find root "sharedgeometry") as [shared|]; inv_res.
    - destruct r0 as [s vc]. inv_res. subst.
      apply (parse_geometry_short _ _ _ _ Hr0 Hb0).
    - subst. exact Hb0. }
  destruct (find root "submeshes") as [sms|].
  - apply (parse_submeshes_short _ _ _ _ Hp Hb).
  - inv_res. subst. exact Hb.
Qed.

(** On [with_bare_block]: three normals for four vertices. *)
Lemma normals_never_outgrow_vertices_witness :
  exists self',
    MeshToObj.parse_mesh_xml (H := Concrete.builtins) MeshToObj.init
      Examples.with_bare_block = Ok self' /\
    (length (MeshToObj.normals self') <= length (MeshToObj.vertices self'))%nat /\
    length (MeshToObj.normals self') = 3%nat /\
    length (MeshToObj.vertices self') = 4%nat.
Proof.
  eexists. split; [reflexivity|]. split; [|split; reflexivity].
  apply (normals_never_outgrow_vertices (H := Concrete.builtins)
           Examples.with_bare_block).
  reflexivity.
Defined.
(** ** The global sequences, block by block *)

Section GlobalSequences.
Context `{PyBuiltins}.
Import MeshToObj MergeSpec Blocks.

Lemma block_contributions_app gs1 gs2 cs1 cs2 :
  block_contributions gs1 = Ok cs1 ->
  block_contributions gs2 = Ok cs2 ->
  block_contributions (gs1 ++ gs2) = Ok (cs1 ++ cs2).
Proof.
  revert cs1. induction gs1 as [|g gs1 IH]; intros cs1 H1 H2; simpl in *.
  - injection H1 as <-. exact H2.
  - apply bind_Ok in H1. destruct H1 as (c & Hc & H1).
    apply bind_Ok in H1. destruct H1 as (cs & Hcs & H1). injection H1 as <-.
    rewrite Hc. simpl. rewrite (IH _ Hcs H2). reflexivity.
Qed.

(** What a block appends to the three global sequences is its contribution. *)
Lemma parse_geometry_full self g self' vc :
  _parse_geometry self g = Ok (self', vc) ->
  exists c,
    block_contribution g = Ok c /\
    vertices self' = vertices self ++ verts_of c /\
    normals self' = normals self ++ norms_of c /\
    uvs self' = uvs self ++ texs_of c /\
    submeshes self' = submeshes self.
Proof.
  unfold _parse_geometry, block_contribution. intros Hg.
  apply bind_Ok in Hg. destruct Hg as (ovc & Hovc & Hg). rewrite Hovc. simpl.
  destruct ovc as [vertex_count|].
  - apply bind_Ok in Hg. destruct Hg as ([[verts norms] texs] & Hb & Hg).
    injection Hg as <- <-. exists (verts, norms, texs). simpl. auto.
  - injection Hg as <- <-. exists ([], [], []). simpl. rewrite !app_nil_r. auto.
Qed.

Lemma submesh_geometry_full self sm s offset :
  submesh_geometry self sm = Ok (s, offset) ->
  exists cs,
    block_contributions (option_list (local_block sm)) = Ok cs /\
    vertices s = vertices self ++ concat (List.map verts_of cs) /\
    normals s = normals self ++ concat (List.map norms_of cs) /\
    uvs s = uvs self ++ concat (List.map texs_of cs) /\
    submeshes s = submeshes self.
Proof.
  unfold submesh_geometry, local_block. intros Hs.
  destruct (flag sm "usesharedvertices"); simpl in Hs.
  - injection Hs as <- <-. exists []. simpl. rewrite !app_nil_r. auto.
  - destruct (find sm "geometry") as [geom|].
    + apply bind_Ok in Hs. destruct Hs as ([s' vc] & Hg & Hs). injection Hs as <- <-.
      destruct (parse_geometry_full _ _ _ _ Hg) as (c & Hc & Hv & Hn & Hu & Hsm).
      exists [c]. simpl. rewrite Hc. simpl. rewrite !app_nil_r. auto.
    + injection Hs as <- <-. exists []. simpl. rewrite !app_nil_r. auto.
Qed.

Lemma parse_submesh_full self sm idx self' :
  _parse_submesh self sm idx = Ok self' ->
  exists cs,
    block_contributions (option_list (local_block sm)) = Ok cs /\
    vertices self' = vertices self ++ concat (List.map verts_of cs) /\
    normals self' = normals self ++ concat (List.map norms_of cs) /\
    uvs self' = uvs self ++ concat (List.map texs_of cs).
Proof.
  unfold _parse_submesh. intros Hp.
  apply bind_Ok in Hp. destruct Hp as ([s offset] & Hg & Hp).
  apply bind_Ok in Hp. destruct Hp as (local_faces & _ & Hp).
  injection Hp as <-. simpl.
  destruct (submesh_geometry_full _ _ _ _ Hg) as (cs & Hcs & Hv & Hn & Hu & _).
  exists cs. auto.
Qed.

Lemma omap_option_list {A B} (f : A -> option B) (a : A) (l : list A) :
  omap f (a :: l) = option_list (f a) ++ omap f l.
Proof. cbn [omap list_omap]. destruct (f a); reflexivity. Qed.

Lemma parse_submeshes_full self idx sms self' :
  parse_submeshes self idx sms = Ok self' ->
  exists cs,
    block_contributions (omap local_block sms) = Ok cs /\
    vertices self' = vertices self ++ concat (List.map verts_of cs) /\
    normals self' = normals self ++ concat (List.map norms_of cs) /\
    uvs self' = uvs self ++ concat (List.map texs_of cs).
Proof.
  revert self idx. induction sms as [|sm sms IH]; intros self idx Hp; simpl in Hp.
  - injection Hp as <-. exists []. simpl. rewrite !app_nil_r. auto.
  - apply bind_Ok in Hp. destruct Hp as (s & Hs & Hp).
    destruct (parse_submesh_full _ _ _ _ Hs) as (cs1 & Hc1 & Hv1 & Hn1 & Hu1).
    destruct (IH _ _ Hp) as (cs2 & Hc2 & Hv2 & Hn2 & Hu2).
    exists (cs1 ++ cs2). rewrite omap_option_list.
    rewrite (block_contributions_app _ _ _ _ Hc1 Hc2).
    rewrite Hv2, Hn2, Hu2, Hv1, Hn1, Hu1.
    rewrite !List.map_app, !concat_app, !app_assoc. auto.
Qed.

Lemma parse_mesh_xml_full root self' :
  parse_mesh_xml init root = Ok self' ->
  exists cs,
    block_contributions (mesh_blocks root) = Ok cs /\
    vertices self' = concat (List.map verts_of cs) /\
    normals self' = concat (List.map norms_of cs) /\
    uvs self' = concat (List.map texs_of cs).
Proof.
  unfold parse_mesh_xml, mesh_blocks. intros Hp.
  apply bind_Ok in Hp. destruct Hp as (s & Hs & Hp).
  assert (Hshared : exists cs,
            block_contributions (option_list (find root "sharedgeometry")) = Ok cs /\
            vertices s = concat (List.map verts_of cs) /\
            normals s = concat (List.map norms_of cs) /\
            uvs s = concat (List.map texs_of cs)).
  { destruct (find root "sharedgeometry") as [shared|].
    - apply bind_Ok in Hs. destruct Hs as ([s' vc] & Hg & Hs). injection Hs as <-.
      destruct (parse_geometry_full _ _ _ _ Hg) as (c & Hc & Hv & Hn & Hu & _).
      exists [c]. simpl. rewrite Hc. simpl. rewrite !app_nil_r. auto.
    - injection Hs as <-. exists []. simpl. auto. }
  destruct Hshared as (cs1 & Hc1 & Hv1 & Hn1 & Hu1).
  destruct (find root "submeshes") as [sms|].
  - destruct (parse_submeshes_full _ _ _ _ Hp) as (cs2 & Hc2 & Hv2 & Hn2 & Hu2).
    exists (cs1 ++ cs2).
    change (omap _ (findall sms "submesh")) with (omap local_block (findall sms "submesh")).
    rewrite (block_contributions_app _ _ _ _ Hc1 Hc2).
    rewrite Hv2, Hn2, Hu2, Hv1, Hn1, Hu1.
    rewrite !List.map_app, !concat_app. auto.
  - injection Hp as <-. exists cs1. rewrite app_nil_r. auto.
Qed.

End GlobalSequences.

(** X2: the three global sequences of a parsed mesh are the contributions of
    its blocks, concatenated in the order the blocks are merged: the shared
    block, then the local block of each submesh that does not use the shared
    vertices. *)
Theorem global_sequences_concatenate `{PyBuiltins} root self' :
  MeshToObj.parse_mesh_xml MeshToObj.init root = Ok self' ->
  exists cs,
    Blocks.block_contributions (MergeSpec.mesh_blocks root) = Ok cs /\
    MeshToObj.vertices self' = concat (List.map Blocks.verts_of cs) /\
    MeshToObj.normals self' = concat (List.map Blocks.norms_of cs) /\
    MeshToObj.uvs self' = concat (List.map Blocks.texs_of cs).
Proof. apply parse_mesh_xml_full. Qed.

(** On [shared_and_two_local]: three blocks of 2, 1 and 3 vertices. *)
Lemma global_sequences_concatenate_witness :
  exists self' cs,
    MeshToObj.parse_mesh_xml (H := Concrete.builtins) MeshToObj.init
      Examples.shared_and_two_local = Ok self' /\
    Blocks.block_contributions (H := Concrete.builtins)
      (MergeSpec.mesh_blocks Examples.shared_and_two_local) = Ok cs /\
    List.map (fun c => length (Blocks.verts_of c)) cs = [2; 1; 3]%nat /\
    MeshToObj.vertices self' = concat (List.map Blocks.verts_of cs).
Proof.
  destruct (global_sequences_concatenate (H := Concrete.builtins)
              Examples.shared_and_two_local _ eq_refl) as (cs & Hcs & Hv & _).
  eexists _, cs. split; [reflexivity|]. split; [exact Hcs|]. split; [|exact Hv].
  vm_compute in Hcs. injection Hcs as <-. reflexivity.
Defined.

(** ** When the face lines carry normals and texture coordinates *)

Section PerBlock.
Context {C A B : Type} (f : C -> list A) (g : C -> list B).

(** Sequences [g c] that are empty or as long as [f c]: their concatenation is
    as long as the one of the [f c] exactly when none is empty beside a
    non-empty [f c]. *)
Lemma concat_all_or_nothing (l : list C) :
  Forall (fun c => g c = [] \/ length (g c) = length (f c)) l ->
  (length (concat (List.map g l)) <= length (concat (List.map f l)))%nat /\
  (length (concat (List.map g l)) = length (concat (List.map f l)) <->
   Forall (fun c => f c <> [] -> g c <> []) l).
Proof.
  induction 1 as [|c l Hc _ [IHle IHeq]]; simpl.
  - split; [lia|]. split; auto.
  - rewrite !length_app. split.
    + destruct Hc as [-> | ->]; simpl; lia.
    + rewrite Forall_cons_iff, <- IHeq. destruct Hc as [Hg | Hg].
      * rewrite Hg. simpl. destruct (f c) as [|a fc]; simpl.
        -- split; [intros; split; [congruence | lia] | intros [_ ?]; lia].
        -- split; [lia | intros [Hne _]; exfalso; apply Hne; congruence].
      * rewrite Hg. split; [intros; split; [|lia] | intros [_ ?]; lia].
        intros Hne Hnil. rewrite Hnil in Hg. destruct (f c); [congruence | discriminate].
Qed.

Lemma concat_nil_iff {X} (l : list (list X)) :
  concat l = [] <-> Forall (fun x => x = []) l.
Proof.
  induction l as [|x l IH]; simpl.
  - split; auto.
  - rewrite Forall_cons_iff, <- IH. destruct x; simpl; split; try tauto; try discriminate.
    intros [? _]. discriminate.
Qed.

End PerBlock.

Section EncodingByBlocks.
Context `{PyBuiltins}.
Import MeshToObj MergeSpec Blocks.

Lemma block_contribution_lengths g c :
  block_contribution g = Ok c ->
  (norms_of c = [] \/ length (norms_of c) = length (verts_of c)) /\
  (texs_of c = [] \/ length (texs_of c) = length (verts_of c)).
Proof.
  unfold block_contribution. intros Hc.
  apply bind_Ok in Hc. destruct Hc as (ovc & _ & Hc). destruct ovc as [vc|].
  - destruct c as [[verts norms] texs].
    destruct (merge_block_lengths _ _ _ _ _ Hc) as (_ & Hn & Hu). auto.
  - injection Hc as <-. auto.
Qed.

Lemma block_contributions_lengths gs cs :
  block_contributions gs = Ok cs ->
  Forall (fun c => norms_of c = [] \/ length (norms_of c) = length (verts_of c)) cs /\
  Forall (fun c => texs_of c = [] \/ length (texs_of c) = length (verts_of c)) cs.
Proof.
  revert cs. induction gs as [|g gs IH]; intros cs Hcs; simpl in Hcs.
  - injection Hcs as <-. auto.
  - apply bind_Ok in Hcs. destruct Hcs as (c & Hc & Hcs).
    apply bind_Ok in Hcs. destruct Hcs as (cs' & Hcs' & Hcs). injection Hcs as <-.
    destruct (block_contribution_lengths _ _ Hc), (IH _ Hcs'). split; constructor; auto.
Qed.

Lemma have_normals_by_blocks root self' cs :
  parse_mesh_xml init root = Ok self' ->
  block_contributions (mesh_blocks root) = Ok cs ->
  (have_normals self' = true <-> vertices self' <> [] /\ Forall with_normals cs) /\
  (have_uvs self' = true <-> vertices self' <> [] /\ Forall with_uvs cs).
Proof.
  intros Hp Hcs.
  destruct (parse_mesh_xml_full _ _ Hp) as (cs' & Hcs' & Hv & Hn & Hu).
  rewrite Hcs in Hcs'. injection Hcs' as <-.
  destruct (block_contributions_lengths _ _ Hcs) as [Hln Hlu].
  destruct (concat_all_or_nothing verts_of norms_of cs Hln) as [_ Hneq].
  destruct (concat_all_or_nothing verts_of texs_of cs Hlu) as [_ Hueq].
  rewrite have_normals_iff, have_uvs_iff, Hv, Hn, Hu.
  unfold with_normals, with_uvs. rewrite <- Hneq, <- Hueq. split; split.
  - intros [Hne Hlen]. split; [|exact Hlen]. intros Hnil. rewrite Hnil in Hlen.
    destruct (concat (List.map norms_of cs)); [congruence | discriminate].
  - intros [Hne Hlen]. split; [|exact Hlen]. intros Hnil. rewrite Hnil in Hlen.
    destruct (concat (List.map verts_of cs)); [congruence | discriminate].
  - intros [Hne Hlen]. split; [|exact Hlen]. intros Hnil. rewrite Hnil in Hlen.
    destruct (concat (List.map texs_of cs)); [congruence | discriminate].
  - intros [Hne Hlen]. split; [|exact Hlen]. intros Hnil. rewrite Hnil in Hlen.
    destruct (concat (List.map verts_of cs)); [congruence | discriminate].
Qed.

End EncodingByBlocks.

(** X3: the face lines of a parsed mesh carry normal indices exactly when the
    mesh has a vertex and every block that has vertices has normals; likewise
    for the texture indices. *)
Theorem face_encoding_by_blocks `{PyBuiltins} root self' cs :
  MeshToObj.parse_mesh_xml MeshToObj.init root = Ok self' ->
  Blocks.block_contributions (MergeSpec.mesh_blocks root) = Ok cs ->
  (MeshToObj.have_normals self' = true <->
   MeshToObj.vertices self' <> [] /\ Forall Blocks.with_normals cs) /\
  (MeshToObj.have_uvs self' = true <->
   MeshToObj.vertices self' <> [] /\ Forall Blocks.with_uvs cs).
Proof. apply have_normals_by_blocks. Qed.

(** On [with_empty_block]: a block of three vertices with normals and a block
    without vertices; the face lines carry normals. *)
Lemma face_encoding_by_blocks_witness :
  exists self' cs,
    MeshToObj.parse_mesh_xml (H := Concrete.builtins) MeshToObj.init
      Examples.with_empty_block = Ok self' /\
    Blocks.block_contributions (H := Concrete.builtins)
      (MergeSpec.mesh_blocks Examples.with_empty_block) = Ok cs /\
    length cs = 2%nat /\
    (MeshToObj.have_normals self' = true <->
     MeshToObj.vertices self' <> [] /\ Forall Blocks.with_normals cs) /\
    MeshToObj.have_normals self' = true.
Proof.
  eexists _, _. split; [reflexivity|]. split; [reflexivity|]. split; [reflexivity|].
  split; [|reflexivity].
  apply (face_encoding_by_blocks (H := Concrete.builtins) Examples.with_empty_block);
    reflexivity.
Defined.

(** ** The vertex count bounds what is read *)

Section VertexCountBound.
Context `{PyBuiltins}.
Import MeshToObj.

(** The loop over the vertex records stops at the count. *)
Lemma merge_vertex_list_break hp hn ht vc i0 vs extra b :
  vc <= Z.of_nat (i0 + length vs) ->
  merge_vertex_list hp hn ht vc i0 (vs ++ extra) b =
  merge_vertex_list hp hn ht vc i0 vs b.
Proof.
  revert i0 b. induction vs as [|v vs IH]; intros i0 b Hvc; simpl in *.
  - destruct extra as [|e extra]; [reflexivity|]. simpl.
    destruct (Z.leb_spec vc (Z.of_nat i0)); [reflexivity | lia].
  - destruct (vc <=? Z.of_nat i0); [reflexivity|].
    destruct (merge_vertex hp hn ht i0 v b) as [b'|e]; simpl; [|reflexivity].
    apply IH. lia.
Qed.

Lemma merge_vertex_list_take hp hn ht vc vs b :
  merge_vertex_list hp hn ht vc 0 vs b =
  merge_vertex_list hp hn ht vc 0 (take (Z.to_nat vc) vs) b.
Proof.
  destruct (Nat.le_gt_cases (length vs) (Z.to_nat vc)) as [Hle|Hgt].
  - rewrite take_ge by exact Hle. reflexivity.
  - rewrite <- (take_drop (Z.to_nat vc) vs) at 1.
    apply merge_vertex_list_break. rewrite length_take. lia.
Qed.

Lemma flag_attrib e e' k : attrib e' = attrib e -> flag e' k = flag e k.
Proof. unfold flag, get_default, get. intros ->. reflexivity. Qed.

Lemma merge_vertexbuffer_take vc vb vb' b :
  attrib vb' = attrib vb ->
  take (Z.to_nat vc) (findall vb' "vertex") = take (Z.to_nat vc) (findall vb "vertex") ->
  merge_vertexbuffer vc vb' b = merge_vertexbuffer vc vb b.
Proof.
  intros Ha Ht. unfold merge_vertexbuffer.
  rewrite !(flag_attrib vb vb') by exact Ha.
  assert (Htc : tex_coords_of vb' = tex_coords_of vb).
  { unfold tex_coords_of, get_default, get. rewrite Ha. reflexivity. }
  rewrite Htc. destruct (tex_coords_of vb) as [t|e]; simpl; [|reflexivity].
  rewrite merge_vertex_list_take, Ht, <- merge_vertex_list_take. reflexivity.
Qed.

(** With a count that is not positive, no vertex record is read and the three
    merged sequences are empty. *)
Lemma merge_vertexbuffers_none vc vbs b :
  vc <= 0 ->
  Forall (fun vb => exists t, tex_coords_of vb = Ok t) vbs ->
  merge_vertexbuffers vc vbs b = Ok b.
Proof.
  intros Hvc. induction 1 as [|vb vbs [t Ht] _ IH]; simpl; [reflexivity|].
  unfold merge_vertexbuffer. rewrite Ht. simpl.
  destruct (findall vb "vertex") as [|v vs]; simpl.
  - exact IH.
  - destruct (Z.leb_spec vc (Z.of_nat 0)); [|lia]. simpl. exact IH.
Qed.

(** The three lists of a count that is not positive are empty, unless the
    count does not fit an index-sized integer. *)
Lemma allocate_buffers_none vc :
  vc <= 0 ->
  allocate_buffers vc =
    if vc <? - 2 ^ 63 then Raise OverflowError else Ok (empty_buffers 0).
Proof.
  intros Hvc. unfold allocate_buffers, list_repeat.
  replace (2 ^ 63 <=? vc) with false by (symmetry; apply Z.leb_gt; lia).
  rewrite orb_false_r.
  destruct (vc <? - 2 ^ 63); [reflexivity|].
  replace (vc <=? 0) with true by (symmetry; apply Z.leb_le; lia).
  reflexivity.
Qed.

Lemma parse_geometry_none self g s vc :
  get g "vertexcount" = Some s ->
  py_int s = Some vc ->
  vc <= 0 ->
  (- 2 ^ 63 <= vc ->
   Forall (fun vb => exists t, tex_coords_of vb = Ok t) (findall g "vertexbuffer") ->
   _parse_geometry self g = Ok (self, vc)) /\
  (vc < - 2 ^ 63 -> _parse_geometry self g = Raise OverflowError).
Proof.
  intros Hs Hi Hvc. unfold _parse_geometry, vertex_count_of.
  rewrite Hs, Hi. simpl. unfold merge_block.
  rewrite (allocate_buffers_none _ Hvc). split.
  - intros Hlo Ht.
    replace (vc <? - 2 ^ 63) with false by (symmetry; apply Z.ltb_ge; lia).
    simpl. rewrite (merge_vertexbuffers_none _ _ _ Hvc Ht). simpl.
    rewrite !app_nil_r. destruct self; reflexivity.
  - intros Hlo.
    replace (vc <? - 2 ^ 63) with true by (symmetry; apply Z.ltb_lt; lia).
    reflexivity.
Qed.

End VertexCountBound.

(** X4: a fragment is read up to the vertex count of its block only: two
    fragments with the same attributes whose vertex records agree up to the
    count are merged alike, whatever the records beyond it hold. *)
Theorem records_beyond_count_ignored `{PyBuiltins} vc vb vb' b :
  attrib vb' = attrib vb ->
  take (Z.to_nat vc) (findall vb' "vertex") = take (Z.to_nat vc) (findall vb "vertex") ->
  MeshToObj.merge_vertexbuffer vc vb' b = MeshToObj.merge_vertexbuffer vc vb b.
Proof. apply merge_vertexbuffer_take. Qed.

(** With a count of 2 the malformed third record is not read; with a count of
    3 it raises. *)
Lemma records_beyond_count_ignored_witness :
  MeshToObj.merge_vertexbuffer (H := Concrete.builtins) 2
    Samples.fragment_with_bad_third (MeshToObj.empty_buffers 2) =
  MeshToObj.merge_vertexbuffer (H := Concrete.builtins) 2
    Samples.fragment_of_two (MeshToObj.empty_buffers 2) /\
  (exists b,
     MeshToObj.merge_vertexbuffer (H := Concrete.builtins) 2
       Samples.fragment_with_bad_third (MeshToObj.empty_buffers 2) = Ok b) /\
  MeshToObj.merge_vertexbuffer (H := Concrete.builtins) 3
    Samples.fragment_with_bad_third (MeshToObj.empty_buffers 3) = Raise ValueError.
Proof.
  split; [|split].
  - apply (records_beyond_count_ignored (H := Concrete.builtins)); reflexivity.
  - eexists. reflexivity.
  - reflexivity.
Defined.

(** X5: a block whose declared vertex count is zero or negative, and not
    below -2^63, leaves the converter as it was: none of its vertex records
    is read, and the negative count is no error.  A count below -2^63 does
    not fit the size of a list: the block raises OverflowError. *)
Theorem empty_block_changes_nothing `{PyBuiltins} self g s vc :
  get g "vertexcount" = Some s ->
  py_int s = Some vc ->
  vc <= 0 ->
  (- 2 ^ 63 <= vc ->
   Forall (fun vb => exists t, MeshToObj.tex_coords_of vb = Ok t)
     (findall g "vertexbuffer") ->
   MeshToObj._parse_geometry self g = Ok (self, vc)) /\
  (vc < - 2 ^ 63 -> MeshToObj._parse_geometry self g = Raise OverflowError).
Proof. apply parse_geometry_none. Qed.

(** On [block_of_none]: the count is -1 and the record it holds is
    malformed.  On a block that declares -9223372036854775809 vertices:
    OverflowError. *)
Lemma empty_block_changes_nothing_witness :
  MeshToObj._parse_geometry (H := Concrete.builtins) MeshToObj.init Samples.block_of_none =
    Ok (MeshToObj.init, -1) /\
  MeshToObj._parse_geometry (H := Concrete.builtins) MeshToObj.init
    (Concrete.node "geometry" [("vertexcount", "-9223372036854775809")] []) =
    Raise OverflowError.
Proof.
  split.
  - apply (empty_block_changes_nothing (H := Concrete.builtins) _ _ "-1").
    + reflexivity.
    + reflexivity.
    + lia.
    + lia.
    + apply List.Forall_forall. intros vb Hin. vm_compute in Hin.
      destruct Hin as [<- | []]. eexists. reflexivity.
  - apply (empty_block_changes_nothing (H := Concrete.builtins) _ _
             "-9223372036854775809" (-9223372036854775809)).
    + reflexivity.
    + reflexivity.
    + lia.
    + lia.
Defined.

(** ** The faces of the output index vertices of the output *)

Section ValidIndices.
Context `{PyBuiltins}.
Import MeshToObj MergeSpec Blocks.

Lemma within_shift lo hi offset f :
  within lo hi f -> within (lo + offset + 1) (hi + offset + 1) (shift offset f).
Proof. destruct f as [[v1 v2] v3]. unfold within, shift. lia. Qed.

Lemma within_mono lo hi lo' hi' f :
  lo' <= lo -> hi <= hi' -> within lo hi f -> within lo' hi' f.
Proof. destruct f as [[v1 v2] v3]. unfold within. lia. Qed.

(** The faces of one submesh index the vertices present once its block is
    merged, when its source faces index the block: [shared] is the size of
    the shared block. *)
Lemma parse_submesh_valid self sm idx self' (shared : nat) :
  _parse_submesh self sm idx = Ok self' ->
  (shared <= length (vertices self))%nat ->
  (forall srcs,
     submesh_source_faces sm = Ok srcs ->
     Forall (within 0 (Z.of_nat (if flag sm "usesharedvertices" then shared
                                 else size_or_zero (find sm "geometry")))) srcs) ->
  exists s,
    submeshes self' = submeshes self ++ [s] /\
    (length (vertices self) <= length (vertices self'))%nat /\
    Forall (within 1 (Z.of_nat (length (vertices self')) + 1)) (faces s).
Proof.
  intros Hp Hshared Hsrc.
  destruct (parse_submesh_offset _ _ _ _ Hp)
    as (s & srcs & appended & Hsm & Hv & Hsh & Hloc & Hsrcs & Hfaces).
  exists s. split; [exact Hsm|]. rewrite Hv, length_app. split; [lia|].
  rewrite Hfaces. apply Forall_map. specialize (Hsrc _ Hsrcs).
  eapply Forall_impl; [exact Hsrc|]. intros f Hf. simpl.
  destruct (flag sm "usesharedvertices") eqn:Hflag.
  - apply within_shift with (offset := 0) in Hf.
    eapply within_mono; [| |exact Hf]; lia.
  - apply within_shift with (offset := Z.of_nat (length (vertices self))) in Hf.
    eapply within_mono; [| |exact Hf]; [lia|].
    unfold size_or_zero. destruct (find sm "geometry") as [g|] eqn:Hg.
    + rewrite (Hloc eq_refl _ eq_refl). lia.
    + lia.
Qed.

Lemma parse_submeshes_valid self idx sms self' (shared : nat) :
  parse_submeshes self idx sms = Ok self' ->
  (shared <= length (vertices self))%nat ->
  Forall (fun sm =>
            forall srcs,
              submesh_source_faces sm = Ok srcs ->
              Forall (within 0 (Z.of_nat (if flag sm "usesharedvertices" then shared
                                          else size_or_zero (find sm "geometry")))) srcs)
         sms ->
  exists new,
    submeshes self' = submeshes self ++ new /\
    (length (vertices self) <= length (vertices self'))%nat /\
    Forall (fun s => Forall (within 1 (Z.of_nat (length (vertices self')) + 1)) (faces s))
           new.
Proof.
  revert self idx. induction sms as [|sm sms IH]; intros self idx Hp Hshared Hall;
    simpl in Hp.
  - injection Hp as <-. exists []. rewrite app_nil_r. auto.
  - apply bind_Ok in Hp. destruct Hp as (s1 & Hs1 & Hp).
    apply Forall_cons in Hall. destruct Hall as [Hsm Hall].
    destruct (parse_submesh_valid _ _ _ _ _ Hs1 Hshared Hsm) as (s & Hsub & Hlen & Hs).
    destruct (IH _ _ Hp ltac:(lia) Hall) as (new & Hsub' & Hlen' & Hnew).
    exists (s :: new). rewrite Hsub', Hsub, <- app_assoc. simpl.
    split; [reflexivity|]. split; [lia|]. constructor; [|exact Hnew].
    eapply Forall_impl; [exact Hs|]. intros f Hf. simpl.
    eapply within_mono; [| |exact Hf]; lia.
Qed.

Lemma parse_mesh_xml_valid root self' :
  parse_mesh_xml init root = Ok self' ->
  Forall (well_indexed root) (submesh_elems root) ->
  Forall (fun s => Forall (within 1 (Z.of_nat (length (vertices self')) + 1)) (faces s))
         (submeshes self').
Proof.
  unfold parse_mesh_xml, submesh_elems. intros Hp Hall.
  apply bind_Ok in Hp. destruct Hp as (s & Hs & Hp).
  assert (Hshared : submeshes s = [] /\
                    size_or_zero (find root "sharedgeometry") = length (vertices s)).
  { unfold size_or_zero. destruct (find root "sharedgeometry") as [shared|].
    - apply bind_Ok in Hs. destruct Hs as ([s' vc] & Hg & Hs). injection Hs as <-.
      destruct (parse_geometry_appends _ _ _ _ Hg)
        as (verts & norms & texs & Hsize & Hv & _ & _ & _ & _ & Hsm).
      rewrite Hsize, Hv, Hsm. auto.
    - injection Hs as <-. auto. }
  destruct Hshared as [Hnil Hsize].
  destruct (find root "submeshes") as [sms|].
  - destruct (parse_submeshes_valid _ _ _ _ (length (vertices s)) Hp (le_n _))
      as (new & Hsub & _ & Hnew).
    + eapply Forall_impl; [exact Hall|]. intros sm Hsm srcs Hsrcs. simpl in Hsm.
      specialize (Hsm _ Hsrcs). unfold indexed_block in Hsm.
      destruct (flag sm "usesharedvertices"); [rewrite <- Hsize|]; exact Hsm.
    + rewrite Hsub, Hnil. exact Hnew.
  - injection Hp as <-. rewrite Hnil. constructor.
Qed.

End ValidIndices.

(** X6: when the faces of every submesh index, in the file, vertices of the
    block they refer to (the shared block, or the submesh's own), every face
    index of the parsed mesh is a valid 1-based index into its global vertex
    sequence. *)
Theorem output_faces_index_output_vertices `{PyBuiltins} root self' :
  MeshToObj.parse_mesh_xml MeshToObj.init root = Ok self' ->
  Forall (Blocks.well_indexed root) (Blocks.submesh_elems root) ->
  Forall
    (fun s =>
       Forall (Blocks.within 1 (Z.of_nat (length (MeshToObj.vertices self')) + 1))
              (MeshToObj.faces s))
    (MeshToObj.submeshes self').
Proof. apply parse_mesh_xml_valid. Qed.

(** On [shared_and_two_local]: six vertices, faces (3,3,3) and (4,5,6). *)
Lemma output_faces_index_output_vertices_witness :
  exists self',
    MeshToObj.parse_mesh_xml (H := Concrete.builtins) MeshToObj.init
      Examples.shared_and_two_local = Ok self' /\
    length (MeshToObj.vertices self') = 6%nat /\
    Forall
      (fun s =>
         Forall (Blocks.within 1 (Z.of_nat (length (MeshToObj.vertices self')) + 1))
                (MeshToObj.faces s))
      (MeshToObj.submeshes self').
Proof.
  eexists. split; [reflexivity|]. split; [reflexivity|].
  apply (output_faces_index_output_vertices (H := Concrete.builtins)
           Examples.shared_and_two_local); [reflexivity|].
  apply List.Forall_forall. intros sm Hin. vm_compute in Hin.
  destruct Hin as [<- | [<- | []]]; intros srcs Hsrcs; vm_compute in Hsrcs;
    injection Hsrcs as <-; repeat constructor; vm_compute; (reflexivity || discriminate).
Defined.

(** ** The submesh records *)

Section SubmeshRecords.
Context `{PyBuiltins}.
Import MeshToObj MergeSpec Blocks.

Lemma parse_submesh_record self sm idx self' :
  _parse_submesh self sm idx = Ok self' ->
  exists s,
    submeshes self' = submeshes self ++ [s] /\
    index s = idx /\ material s = material_of idx sm.
Proof.
  unfold _parse_submesh. intros Hp.
  apply bind_Ok in Hp. destruct Hp as ([s offset] & Hg & Hp).
  apply bind_Ok in Hp. destruct Hp as (local_faces & _ & Hp).
  injection Hp as <-. simpl.
  destruct (submesh_geometry_offset _ _ _ _ Hg) as (_ & -> & _).
  eexists. split; [reflexivity|]. split; reflexivity.
Qed.

Lemma parse_submeshes_records self idx sms self' :
  parse_submeshes self idx sms = Ok self' ->
  exists new,
    submeshes self' = submeshes self ++ new /\
    List.map index new = seq idx (length sms) /\
    List.map material new = zip_with material_of (seq idx (length sms)) sms.
Proof.
  revert self idx. induction sms as [|sm sms IH]; intros self idx Hp; simpl in Hp.
  - injection Hp as <-. exists []. rewrite app_nil_r. auto.
  - apply bind_Ok in Hp. destruct Hp as (s1 & Hs1 & Hp).
    destruct (parse_submesh_record _ _ _ _ Hs1) as (s & Hsub & Hidx & Hmat).
    destruct (IH _ _ Hp) as (new & Hsub' & Hidx' & Hmat').
    exists (s :: new). rewrite Hsub', Hsub, <- app_assoc. simpl.
    rewrite Hidx, Hmat, Hidx', Hmat'. auto.
Qed.

Lemma parse_mesh_xml_records root self' :
  parse_mesh_xml init root = Ok self' ->
  List.map index (submeshes self') = seq 0 (length (submesh_elems root)) /\
  List.map material (submeshes self') =
    zip_with material_of (seq 0 (length (submesh_elems root))) (submesh_elems root).
Proof.
  unfold parse_mesh_xml, submesh_elems. intros Hp.
  apply bind_Ok in Hp. destruct Hp as (s & Hs & Hp).
  assert (Hnil : submeshes s = []).
  { destruct (find root "sharedgeometry") as [shared|].
    - apply bind_Ok in Hs. destruct Hs as ([s' vc] & Hg & Hs). injection Hs as <-.
      destruct (parse_geometry_appends _ _ _ _ Hg)
        as (verts & norms & texs & _ & _ & _ & _ & _ & _ & Hsm).
      exact Hsm.
    - injection Hs as <-. reflexivity. }
  destruct (find root "submeshes") as [sms|].
  - destruct (parse_submeshes_records _ _ _ _ Hp) as (new & Hsub & Hidx & Hmat).
    rewrite Hsub, Hnil. auto.
  - injection Hp as <-. rewrite Hnil. auto.
Qed.

End SubmeshRecords.

(** X7: a parsed mesh has one submesh record for each [submesh] element of
    the file, in document order: the records are numbered from 0 and each is
    named by the [material] attribute of its element, or [material_<idx>]
    when the element has none. *)
Theorem submesh_records_follow_document `{PyBuiltins} root self' :
  MeshToObj.parse_mesh_xml MeshToObj.init root = Ok self' ->
  List.map MeshToObj.index (MeshToObj.submeshes self') =
    seq 0 (length (Blocks.submesh_elems root)) /\
  List.map MeshToObj.material (MeshToObj.submeshes self') =
    zip_with Blocks.material_of (seq 0 (length (Blocks.submesh_elems root)))
      (Blocks.submesh_elems root).
Proof. apply parse_mesh_xml_records. Qed.

(** On [shared_and_two_local], whose submeshes name no material. *)
Lemma submesh_records_follow_document_witness :
  exists self',
    MeshToObj.parse_mesh_xml (H := Concrete.builtins) MeshToObj.init
      Examples.shared_and_two_local = Ok self' /\
    List.map MeshToObj.index (MeshToObj.submeshes self') = [0; 1]%nat /\
    List.map MeshToObj.material (MeshToObj.submeshes self') = ["material_0"; "material_1"].
Proof.
  eexists. split; [reflexivity|].
  exact (submesh_records_follow_document (H := Concrete.builtins)
           Examples.shared_and_two_local _ eq_refl).
Defined.

(** ** The header of the OBJ file counts its lines *)

(** Membership in a list given by its elements. *)
Ltac find_in :=
  match goal with
  | |- ?x = ?x => reflexivity
  | |- _ \/ _ => (left; find_in) || (right; find_in)
  end.

Section LineCounts.
Context `{PyBuiltins}.
Import MeshToObj ObjLines.









End LineCounts.


(** ** The accumulators of the recalculation *)

Section Accumulators.
Context `{PyBuiltins}.
Import RecalcNormals AccSpec.

Lemma norm_index_lt {A} (l : list A) i k : norm_index l i = Some k -> (k < length l)%nat.
Proof.
  unfold norm_index. intros Hk.
  destruct ((0 <=? i) && (i <? Z.of_nat (length l))) eqn:H1.
  - injection Hk as <-. apply andb_true_iff in H1. lia.
  - destruct ((- Z.of_nat (length l) <=? i) && (i <? 0)) eqn:H2; [|discriminate].
    injection Hk as <-. apply andb_true_iff in H2. lia.
Qed.

Lemma norm_index_range {A} (l : list A) i :
  - Z.of_nat (length l) <= i < Z.of_nat (length l) -> is_Some (norm_index l i).
Proof.
  intros Hi. unfold norm_index.
  destruct ((0 <=? i) && (i <? Z.of_nat (length l))) eqn:H1; [eauto|].
  destruct ((- Z.of_nat (length l) <=? i) && (i <? 0)) eqn:H2; [eauto|].
  apply andb_false_iff in H1, H2. lia.
Qed.

Lemma getitem_norm_index {A} (l : list A) i :
  getitem l i = match norm_index l i with
                | Some k => of_option IndexError (l !! k)
                | None => Raise IndexError
                end.
Proof.
  unfold getitem, norm_index.
  destruct ((0 <=? i) && (i <? Z.of_nat (length l))); [reflexivity|].
  destruct ((- Z.of_nat (length l) <=? i) && (i <? 0)); reflexivity.
Qed.

Lemma getitem_Ok {A} (l : list A) i x :
  getitem l i = Ok x -> exists k, norm_index l i = Some k /\ l !! k = Some x.
Proof.
  rewrite getitem_norm_index. destruct (norm_index l i) as [k|]; [|discriminate].
  intros Hx. apply of_option_Ok in Hx. eauto.
Qed.

Lemma getitem_range {A} (l : list A) i :
  - Z.of_nat (length l) <= i < Z.of_nat (length l) -> exists x, getitem l i = Ok x.
Proof.
  intros Hi. rewrite getitem_norm_index.
  destruct (norm_index_range l i Hi) as [k Hk]. rewrite Hk.
  destruct (lookup_lt_is_Some_2 l k (norm_index_lt _ _ _ Hk)) as [x Hx].
  exists x. rewrite Hx. reflexivity.
Qed.

Lemma setitem_Ok {A} (l : list A) i v l' :
  setitem l i v = Ok l' -> exists k, norm_index l i = Some k /\ l' = <[k := v]> l.
Proof.
  unfold setitem. destruct (norm_index l i) as [k|]; [|discriminate].
  intros Hl. injection Hl as <-. eauto.
Qed.

Lemma setitem_range {A} (l : list A) i v :
  - Z.of_nat (length l) <= i < Z.of_nat (length l) ->
  exists l', setitem l i v = Ok l' /\ length l' = length l.
Proof.
  intros Hi. unfold setitem. destruct (norm_index_range l i Hi) as [k ->].
  eexists. split; [reflexivity|]. apply length_insert.
Qed.

Lemma add_normal_length l i n l' : add_normal l i n = Ok l' -> length l' = length l.
Proof.
  unfold add_normal. intros Hl. apply bind_Ok in Hl. destruct Hl as (old & _ & Hl).
  apply setitem_Ok in Hl. destruct Hl as (k & _ & ->). apply length_insert.
Qed.

Lemma add_normal_range l i n :
  - Z.of_nat (length l) <= i < Z.of_nat (length l) ->
  exists l', add_normal l i n = Ok l' /\ length l' = length l.
Proof.
  intros Hi. unfold add_normal. destruct (getitem_range l i Hi) as [old ->]. simpl.
  apply setitem_range, Hi.
Qed.

Lemma sum_list_insert (l : list nat) k x y :
  l !! k = Some x -> (sum_list (<[k := y]> l) + x = sum_list l + y)%nat.
Proof.
  revert k. induction l as [|z l IH]; intros [|k] Hk; simpl in *; try discriminate.
  - injection Hk as ->. lia.
  - specialize (IH _ Hk). lia.
Qed.

Lemma incr_Ok l i l' :
  incr l i = Ok l' -> length l' = length l /\ sum_list l' = S (sum_list l).
Proof.
  unfold incr. intros Hl. apply bind_Ok in Hl. destruct Hl as (old & Hold & Hl).
  apply getitem_Ok in Hold. destruct Hold as (k & Hk & Hold).
  apply setitem_Ok in Hl. destruct Hl as (k' & Hk' & ->).
  rewrite Hk in Hk'. injection Hk' as <-. split; [apply length_insert|].
  pose proof (sum_list_insert l k old (S old) Hold). lia.
Qed.

Lemma incr_range l i :
  - Z.of_nat (length l) <= i < Z.of_nat (length l) ->
  exists l', incr l i = Ok l' /\ length l' = length l.
Proof.
  intros Hi. unfold incr. destruct (getitem_range l i Hi) as [old ->]. simpl.
  apply setitem_range, Hi.
Qed.

(** A face is counted, and adds one to three counts, or it is reported. *)
Lemma accumulate_face_consistent positions face a a' seen :
  accumulate_face positions face a = Ok a' ->
  consistent (length positions) seen a ->
  consistent (length positions) (S seen) a'.
Proof.
  unfold accumulate_face, consistent. intros Ha (Hn & Hc & Hsum & Hseen).
  assert (Hwarn : forall w,
            length (vertex_normals (warn w a)) = length positions /\
            length (vertex_face_count (warn w a)) = length positions /\
            sum_list (vertex_face_count (warn w a)) = (3 * face_count (warn w a))%nat /\
            (face_count (warn w a) + length (warnings (warn w a)))%nat = S seen).
  { intros w. simpl. rewrite length_app. simpl. repeat split; auto; lia. }
  destruct (face_body positions face a) as [b|e] eqn:Hb.
  - injection Ha as <-. unfold face_body in Hb.
    apply bind_Ok in Hb. destruct Hb as (v1 & _ & Hb).
    apply bind_Ok in Hb. destruct Hb as (v2 & _ & Hb).
    apply bind_Ok in Hb. destruct Hb as (v3 & _ & Hb).
    destruct ((v1 <? Z.of_nat (length positions)) && (v2 <? Z.of_nat (length positions))
              && (v3 <? Z.of_nat (length positions))).
    + apply bind_Ok in Hb. destruct Hb as (p1 & _ & Hb).
      apply bind_Ok in Hb. destruct Hb as (p2 & _ & Hb).
      apply bind_Ok in Hb. destruct Hb as (p3 & _ & Hb).
      apply bind_Ok in Hb. destruct Hb as (n1 & Hn1 & Hb).
      apply bind_Ok in Hb. destruct Hb as (n2 & Hn2 & Hb).
      apply bind_Ok in Hb. destruct Hb as (n3 & Hn3 & Hb).
      apply bind_Ok in Hb. destruct Hb as (c1 & Hc1 & Hb).
      apply bind_Ok in Hb. destruct Hb as (c2 & Hc2 & Hb).
      apply bind_Ok in Hb. destruct Hb as (c3 & Hc3 & Hb).
      injection Hb as <-. simpl.
      apply add_normal_length in Hn1, Hn2, Hn3.
      apply incr_Ok in Hc1, Hc2, Hc3.
      destruct Hc1 as [Hl1 Hs1], Hc2 as [Hl2 Hs2], Hc3 as [Hl3 Hs3].
      repeat split; lia.
    + injection Hb as <-. apply Hwarn.
  - destruct e; try discriminate; injection Ha as <-; apply Hwarn.
Qed.

Lemma accumulate_consistent positions faces a a' seen :
  accumulate positions faces a = Ok a' ->
  consistent (length positions) seen a ->
  consistent (length positions) (seen + length faces) a'.
Proof.
  revert a seen. induction faces as [|face faces IH]; intros a seen Ha Hinv; simpl in Ha.
  - injection Ha as <-. rewrite Nat.add_0_r. exact Hinv.
  - apply bind_Ok in Ha. destruct Ha as (a1 & Ha1 & Ha).
    simpl. rewrite <- Nat.add_succ_comm. apply (IH _ _ Ha).
    eapply accumulate_face_consistent; eauto.
Qed.

Lemma init_acc_consistent n : consistent n 0 (init_acc n).
Proof.
  unfold consistent, init_acc. simpl. rewrite !length_replicate.
  repeat split; auto. induction n; simpl; auto.
Qed.

End Accumulators.

(** X9: when the loop over the faces of a submesh ends, each of the two
    accumulators still has one entry per vertex, the per-vertex face counts
    add up to three times the number of counted faces, and every face was
    either counted or reported in a warning. *)
Theorem accumulators_stay_consistent `{PyBuiltins} positions faces a :
  RecalcNormals.accumulate positions faces (RecalcNormals.init_acc (length positions)) =
    Ok a ->
  length (RecalcNormals.vertex_normals a) = length positions /\
  length (RecalcNormals.vertex_face_count a) = length positions /\
  sum_list (RecalcNormals.vertex_face_count a) = (3 * RecalcNormals.face_count a)%nat /\
  (RecalcNormals.face_count a + length (RecalcNormals.warnings a))%nat = length faces.
Proof.
  intros Ha.
  exact (accumulate_consistent _ _ _ _ 0%nat Ha (init_acc_consistent _)).
Qed.

(** On the triangle with [mixed_faces]: two faces counted, two reported. *)
Lemma accumulators_stay_consistent_witness :
  exists a,
    RecalcNormals.accumulate (H := Concrete.builtins) Examples.triangle_positions
      Samples.mixed_faces (RecalcNormals.init_acc 3) = Ok a /\
    RecalcNormals.vertex_face_count a = [2; 2; 2]%nat /\
    RecalcNormals.warnings a =
      [RecalcNormals.InvalidFaceIndices 1; RecalcNormals.FaceError 1] /\
    sum_list (RecalcNormals.vertex_face_count a) = (3 * RecalcNormals.face_count a)%nat /\
    (RecalcNormals.face_count a + length (RecalcNormals.warnings a))%nat = 4%nat.
Proof.
  eexists. split; [reflexivity|]. split; [reflexivity|]. split; [reflexivity|].
  destruct (accumulators_stay_consistent (H := Concrete.builtins)
              Examples.triangle_positions Samples.mixed_faces _ eq_refl)
    as (_ & _ & Hsum & Hseen).
  split; [exact Hsum | exact Hseen].
Defined.

(** ** When the pass on a vertexbuffer returns *)

Section PassReturns.
Context `{PyBuiltins}.
Import RecalcNormals AccSpec.

Lemma int_attr0_raises e k x : int_attr0 e k = Raise x -> x = ValueError.
Proof.
  unfold int_attr0. destruct (get e k) as [s|]; [|discriminate].
  destruct (py_int s); simpl; [discriminate|]. congruence.
Qed.

Lemma accumulate_face_returns positions face a seen :
  consistent (length positions) seen a ->
  no_index_below (- Z.of_nat (length positions)) face ->
  exists a', accumulate_face positions face a = Ok a'.
Proof.
  intros (Hn & Hc & _ & _) Hlow. unfold accumulate_face, face_body.
  destruct (int_attr0 face "v1") as [v1|e1] eqn:H1; simpl;
    [|rewrite (int_attr0_raises _ _ _ H1); eauto].
  destruct (int_attr0 face "v2") as [v2|e2] eqn:H2; simpl;
    [|rewrite (int_attr0_raises _ _ _ H2); eauto].
  destruct (int_attr0 face "v3") as [v3|e3] eqn:H3; simpl;
    [|rewrite (int_attr0_raises _ _ _ H3); eauto].
  destruct ((v1 <? Z.of_nat (length positions)) && (v2 <? Z.of_nat (length positions))
            && (v3 <? Z.of_nat (length positions))) eqn:Hb; [|eauto].
  apply andb_true_iff in Hb. destruct Hb as [Hb Hb3].
  apply andb_true_iff in Hb. destruct Hb as [Hb1 Hb2].
  apply Z.ltb_lt in Hb1, Hb2, Hb3.
  assert (Hl1 := Hlow "v1" v1 ltac:(simpl; auto) H1).
  assert (Hl2 := Hlow "v2" v2 ltac:(simpl; auto) H2).
  assert (Hl3 := Hlow "v3" v3 ltac:(simpl; auto) H3).
  destruct (getitem_range positions v1 ltac:(lia)) as [p1 ->].
  destruct (getitem_range positions v2 ltac:(lia)) as [p2 ->].
  destruct (getitem_range positions v3 ltac:(lia)) as [p3 ->]. simpl.
  destruct (add_normal_range (vertex_normals a) v1 (calculate_face_normal p1 p2 p3)
              ltac:(lia)) as (n1 & -> & Hn1). simpl.
  destruct (add_normal_range n1 v2 (calculate_face_normal p1 p2 p3)
              ltac:(lia)) as (n2 & -> & Hn2). simpl.
  destruct (add_normal_range n2 v3 (calculate_face_normal p1 p2 p3)
              ltac:(lia)) as (n3 & -> & Hn3). simpl.
  destruct (incr_range (vertex_face_count a) v1 ltac:(lia)) as (c1 & -> & Hc1). simpl.
  destruct (incr_range c1 v2 ltac:(lia)) as (c2 & -> & Hc2). simpl.
  destruct (incr_range c2 v3 ltac:(lia)) as (c3 & -> & Hc3). simpl.
  eauto.
Qed.

Lemma accumulate_returns positions faces a seen :
  consistent (length positions) seen a ->
  Forall (no_index_below (- Z.of_nat (length positions))) faces ->
  exists a', accumulate positions faces a = Ok a'.
Proof.
  intros Hinv Hall. revert a seen Hinv.
  induction Hall as [|face faces Hface _ IH]; intros a seen Hinv; simpl; [eauto|].
  destruct (accumulate_face_returns _ _ _ _ Hinv Hface) as [a1 Ha1]. rewrite Ha1. simpl.
  apply (IH a1 (S seen)). eapply accumulate_face_consistent; eauto.
Qed.

Lemma getitem_nat {A} (l : list A) (i : nat) x :
  l !! i = Some x -> getitem l (Z.of_nat i) = Ok x.
Proof.
  intros Hx. pose proof (lookup_lt_Some _ _ _ Hx) as Hlt. unfold getitem.
  destruct (Z.leb_spec 0 (Z.of_nat i)); [|lia].
  destruct (Z.ltb_spec (Z.of_nat i) (Z.of_nat (length l))); [|lia].
  simpl. rewrite Nat2Z.id, Hx. reflexivity.
Qed.

(** The write-back of one vertex record returns, and counts the record when
    some face touches it. *)
Lemma write_vertex_returns a i vertex count :
  length (vertex_normals a) = length (vertex_face_count a) ->
  vertex_face_count a !! i = Some count ->
  exists vertex', write_vertex a i vertex = Ok (vertex', (0 <? count)%nat).
Proof.
  intros Hlen Hc. unfold write_vertex. rewrite (getitem_nat _ _ _ Hc). simpl.
  destruct (0 <? count)%nat.
  - destruct (lookup_lt_is_Some_2 (vertex_normals a) i) as [acc Hacc].
    { rewrite Hlen. eapply lookup_lt_Some, Hc. }
    rewrite (getitem_nat _ _ _ Hacc). simpl.
    destruct (find vertex "normal"); eauto.
  - destruct (find vertex "normal"); eauto.
Qed.

Lemma write_back_returns a cs i n0 :
  length (vertex_normals a) = length (vertex_face_count a) ->
  (i + length (List.filter (has_tag "vertex") cs))%nat = length (vertex_face_count a) ->
  exists cs',
    write_back a cs i n0 = Ok (cs', (n0 + touched (drop i (vertex_face_count a)))%nat).
Proof.
  intros Hlen. revert i n0. induction cs as [|c cs IH]; intros i n0 Hi; simpl in *.
  - exists []. rewrite drop_ge by lia. unfold touched. simpl. rewrite Nat.add_0_r.
    reflexivity.
  - destruct (has_tag "vertex" c); simpl in Hi.
    + destruct (lookup_lt_is_Some_2 (vertex_face_count a) i ltac:(lia)) as [count Hc].
      destruct (write_vertex_returns a i c count Hlen Hc) as [c' ->]. simpl.
      destruct (IH (S i) (if (0 <? count)%nat then S n0 else n0) ltac:(lia))
        as [rest ->]. simpl.
      exists (c' :: rest). rewrite (drop_S _ _ _ Hc). unfold touched. simpl.
      destruct (0 <? count)%nat; simpl; do 2 f_equal; lia.
    + destruct (IH i n0 Hi) as [rest ->]. simpl. eauto.
Qed.

Lemma read_positions_length vertices positions :
  read_positions vertices = Ok positions -> length positions = length vertices.
Proof.
  revert positions. induction vertices as [|v vs IH]; intros positions Hp; simpl in Hp.
  - injection Hp as <-. reflexivity.
  - apply bind_Ok in Hp. destruct Hp as (p & _ & Hp).
    apply bind_Ok in Hp. destruct Hp as (rest & Hrest & Hp). injection Hp as <-.
    simpl. rewrite (IH _ Hrest). reflexivity.
Qed.

Lemma touched_le_length counts : (touched counts <= length counts)%nat.
Proof. unfold touched. apply List.filter_length_le. Qed.

Lemma touched_le_sum counts : (touched counts <= sum_list counts)%nat.
Proof.
  unfold touched. induction counts as [|c counts IH]; simpl; [lia|].
  destruct c; simpl; lia.
Qed.

(** The outcome of the pass on a vertexbuffer that it does not skip. *)
Lemma recalc_vertex_buffer_updated n vb faces vb' k ws :
  recalc_vertex_buffer n vb faces = Ok (Updated vb' k ws) ->
  exists positions fs a,
    faces = Some fs /\
    read_positions (findall vb "vertex") = Ok positions /\
    accumulate positions fs (init_acc (length positions)) = Ok a /\
    write_back a (children vb) 0 0 = Ok (children vb', k) /\
    ws = warnings a /\
    tag vb' = tag vb /\ attrib vb' = attrib vb /\
    text vb' = text vb /\ tail vb' = tail vb.
Proof.
  unfold recalc_vertex_buffer. intros Hr.
  destruct (negb (bool_decide (get vb "normals" = Some "true"))); [discriminate|].
  apply bind_Ok in Hr. destruct Hr as (positions & Hpos & Hr).
  destruct (length positions =? 0)%nat; [discriminate|].
  destruct faces as [fs|]; [|discriminate].
  apply bind_Ok in Hr. destruct Hr as (a & Ha & Hr).
  apply bind_Ok in Hr. destruct Hr as ([cs k'] & Hw & Hr).
  destruct vb as [t at_ x y cs0]. injection Hr as <- <- <-.
  exists positions, fs, a. simpl. repeat split; auto.
Qed.

Lemma recalc_vertex_buffer_returns n vb faces positions :
  read_positions (findall vb "vertex") = Ok positions ->
  Forall (no_index_below (- Z.of_nat (length positions))) faces ->
  exists o, recalc_vertex_buffer n vb (Some faces) = Ok o.
Proof.
  intros Hpos Hall. unfold recalc_vertex_buffer.
  destruct (negb (bool_decide (get vb "normals" = Some "true"))); [eauto|].
  rewrite Hpos. simpl. destruct (length positions =? 0)%nat; [eauto|].
  destruct (accumulate_returns _ _ _ _ (init_acc_consistent _) Hall) as [a Ha].
  rewrite Ha. simpl.
  destruct (accumulate_consistent _ _ _ _ _ Ha (init_acc_consistent _))
    as (Hn & Hc & _ & _).
  destruct (write_back_returns a (children vb) 0 0) as [cs Hcs].
  { congruence. }
  { rewrite Hc, (read_positions_length _ _ Hpos). reflexivity. }
  rewrite Hcs. simpl. destruct vb; eauto.
Qed.

Lemma updated_normals_touched n vb faces vb' k ws :
  recalc_vertex_buffer n vb faces = Ok (Updated vb' k ws) ->
  exists fs,
    faces = Some fs /\
    (k <= length (findall vb "vertex"))%nat /\
    (k + 3 * length ws <= 3 * length fs)%nat.
Proof.
  intros Hr.
  destruct (recalc_vertex_buffer_updated _ _ _ _ _ _ Hr)
    as (positions & fs & a & -> & Hpos & Ha & Hw & -> & _).
  destruct (accumulate_consistent _ _ _ _ _ Ha (init_acc_consistent _))
    as (Hn & Hc & Hsum & Hseen).
  destruct (write_back_returns a (children vb) 0 0) as [cs Hcs].
  { congruence. }
  { rewrite Hc, (read_positions_length _ _ Hpos). reflexivity. }
  rewrite Hw in Hcs. injection Hcs as _ ->. simpl.
  exists fs. split; [reflexivity|].
  pose proof (touched_le_length (vertex_face_count a)).
  pose proof (touched_le_sum (vertex_face_count a)).
  rewrite <- (read_positions_length _ _ Hpos). simpl in Hseen.
  change (drop 0 (vertex_face_count a)) with (vertex_face_count a). lia.
Qed.

End PassReturns.

(** X10: the pass on a vertexbuffer raises nothing once the positions of its
    vertex records are numbers and no face has an index below minus the
    number of vertices: indices that are too large, missing or not numbers
    only give warnings. *)
Theorem vertex_buffer_pass_returns `{PyBuiltins} n vb faces positions :
  RecalcNormals.read_positions (findall vb "vertex") = Ok positions ->
  Forall (AccSpec.no_index_below (- Z.of_nat (length positions))) faces ->
  exists o, RecalcNormals.recalc_vertex_buffer n vb (Some faces) = Ok o.
Proof. apply recalc_vertex_buffer_returns. Qed.

(** X11: the number of normals the pass reports as updated for a vertexbuffer
    is at most the number of its vertex records, and, three vertices to a
    counted face, at most three times the number of faces that were not
    reported in a warning. *)
Theorem updated_normals_bounded `{PyBuiltins} n vb faces vb' k ws :
  RecalcNormals.recalc_vertex_buffer n vb faces = Ok (RecalcNormals.Updated vb' k ws) ->
  exists fs,
    faces = Some fs /\
    (k <= length (findall vb "vertex"))%nat /\
    (k + 3 * length ws <= 3 * length fs)%nat.
Proof. apply updated_normals_touched. Qed.

(** On the triangle with [wrapping_faces]: -1 is not below -3. *)
Lemma vertex_buffer_pass_returns_witness :
  exists o,
    RecalcNormals.recalc_vertex_buffer (H := Concrete.builtins) 1
      Samples.triangle_buffer (Some Samples.wrapping_faces) = Ok o.
Proof.
  apply (vertex_buffer_pass_returns (H := Concrete.builtins) 1 Samples.triangle_buffer
           Samples.wrapping_faces Examples.triangle_positions).
  - reflexivity.
  - apply List.Forall_forall. intros face Hin. vm_compute in Hin.
    destruct Hin as [<- | [<- | []]]; intros k v Hk Hv;
      destruct Hk as [<- | [<- | [<- | []]]]; vm_compute in Hv;
      injection Hv as <-; simpl; lia.
Defined.

(** On the triangle with [mixed_faces]: three normals updated, from two
    counted faces out of four. *)
Lemma updated_normals_bounded_witness :
  exists vb' ws,
    RecalcNormals.recalc_vertex_buffer (H := Concrete.builtins) 1
      Samples.triangle_buffer (Some Samples.mixed_faces) =
      Ok (RecalcNormals.Updated vb' 3 ws) /\
    length ws = 2%nat /\
    exists fs,
      Some Samples.mixed_faces = Some fs /\
      (3 <= length (findall Samples.triangle_buffer "vertex"))%nat /\
      (3 + 3 * length ws <= 3 * length fs)%nat.
Proof.
  destruct (updated_normals_bounded (H := Concrete.builtins) 1 Samples.triangle_buffer
              (Some Samples.mixed_faces) _ _ _ eq_refl) as (fs & Hfs & Hk & Hws).
  eexists _, _. split; [reflexivity|]. split; [reflexivity|].
  exists fs. split; [exact Hfs|]. split; [exact Hk | exact Hws].
Defined.

(** ** Recalculating a vertexbuffer twice *)

Section Idempotence.
Context `{PyBuiltins}.
Import RecalcNormals.

Lemma set_xyz_tag sx sy sz e : tag (set_xyz sx sy sz e) = tag e.
Proof. destruct e. reflexivity. Qed.

Lemma set_xyz_twice sx sy sz e :
  set_xyz sx sy sz (set_xyz sx sy sz e) = set_xyz sx sy sz e.
Proof.
  destruct e as [t a x y cs]. unfold set_xyz. simpl. f_equal.
  apply map_eq. intros k. rewrite !lookup_insert. repeat case_decide; congruence.
Qed.

Lemma update_first_twice t f cs :
  (forall c, tag (f c) = tag c) ->
  (forall c, f (f c) = f c) ->
  update_first t f (update_first t f cs) = update_first t f cs.
Proof.
  intros Htag Hf. induction cs as [|c cs IH]; simpl; [reflexivity|].
  destruct (has_tag t c) eqn:Hc; simpl.
  - unfold has_tag in *. rewrite Htag, Hc, Hf. reflexivity.
  - rewrite Hc, IH. reflexivity.
Qed.

Lemma find_update_first t u f cs :
  (forall c, tag (f c) = tag c) ->
  List.find (has_tag u) (update_first t f cs) =
  (if String.eqb t u then f else id) <$> List.find (has_tag u) cs.
Proof.
  intros Htag. induction cs as [|c cs IH]; simpl; [reflexivity|].
  destruct (has_tag t c) eqn:Hc; simpl.
  - unfold has_tag in *. rewrite Htag. apply String.eqb_eq in Hc.
    destruct (String.eqb (tag c) u) eqn:Hu; simpl.
    + apply String.eqb_eq in Hu. rewrite <- Hc, Hu, String.eqb_refl. reflexivity.
    + destruct (List.find (fun e => String.eqb (tag e) u) cs) eqn:Hfind; simpl;
        [|reflexivity].
      destruct (String.eqb t u) eqn:Htu; [|reflexivity].
      apply String.eqb_eq in Htu. rewrite <- Htu, <- Hc, String.eqb_refl in Hu.
      discriminate.
  - destruct (has_tag u c) eqn:Hu.
    + destruct (String.eqb t u) eqn:Htu; [|reflexivity].
      apply String.eqb_eq in Htu. subst u. congruence.
    + exact IH.
Qed.

Lemma update_first_none t f cs :
  List.find (has_tag t) cs = None -> update_first t f cs = cs.
Proof.
  induction cs as [|c cs IH]; simpl; [reflexivity|].
  destruct (has_tag t c); [discriminate|]. intros Hn. rewrite (IH Hn). reflexivity.
Qed.

Lemma find_app_none {A} (p : A -> bool) l1 l2 :
  List.find p l1 = None -> List.find p (l1 ++ l2) = List.find p l2.
Proof.
  induction l1 as [|x l1 IH]; simpl; [reflexivity|].
  destruct (p x); [discriminate | exact IH].
Qed.

Lemma find_app_some {A} (p : A -> bool) l1 l2 x :
  List.find p l1 = Some x -> List.find p (l1 ++ l2) = Some x.
Proof.
  induction l1 as [|y l1 IH]; simpl; [discriminate|].
  destruct (p y); [auto | exact IH].
Qed.

(** A vertex record whose normal was written is left as it is by the same
    write; its tag and its position are those it had. *)
Lemma set_normal_again sx sy sz vertex :
  is_Some (find vertex "normal") ->
  is_Some (find (set_normal sx sy sz vertex) "normal") /\
  set_normal sx sy sz (set_normal sx sy sz vertex) = set_normal sx sy sz vertex /\
  tag (set_normal sx sy sz vertex) = tag vertex /\
  find (set_normal sx sy sz vertex) "position" = find vertex "position".
Proof.
  destruct vertex as [t a x y cs]. unfold find, set_normal. simpl. intros [c Hc].
  repeat split.
  - rewrite find_update_first by apply set_xyz_tag. rewrite Hc. simpl. eauto.
  - rewrite update_first_twice; [reflexivity|apply set_xyz_tag|apply set_xyz_twice].
  - rewrite find_update_first by apply set_xyz_tag. simpl.
    destruct (List.find (has_tag "position") cs); reflexivity.
Qed.

Lemma create_normal_again sx sy sz vertex :
  find vertex "normal" = None ->
  is_Some (find (create_normal sx sy sz vertex) "normal") /\
  set_normal sx sy sz (create_normal sx sy sz vertex) = create_normal sx sy sz vertex /\
  tag (create_normal sx sy sz vertex) = tag vertex /\
  find (create_normal sx sy sz vertex) "position" = find vertex "position".
Proof.
  destruct vertex as [t a x y cs]. unfold find, set_normal, create_normal. simpl.
  intros Hn. repeat split.
  - rewrite (find_app_none _ _ _ Hn). simpl. eauto.
  - f_equal. induction cs as [|c cs IH]; simpl in *.
    + rewrite set_xyz_twice. reflexivity.
    + destruct (has_tag "normal" c); [discriminate|]. rewrite (IH Hn). reflexivity.
  - destruct (List.find (has_tag "position") cs) as [p|] eqn:Hp.
    + apply (find_app_some _ _ _ _ Hp).
    + rewrite (find_app_none _ _ _ Hp). reflexivity.
Qed.

Lemma read_position_find v v' :
  find v' "position" = find v "position" -> read_position v' = read_position v.
Proof. unfold read_position. intros ->. reflexivity. Qed.

Lemma write_vertex_again a i vertex vertex' updated :
  write_vertex a i vertex = Ok (vertex', updated) ->
  write_vertex a i vertex' = Ok (vertex', updated) /\
  has_tag "vertex" vertex' = has_tag "vertex" vertex /\
  read_position vertex' = read_position vertex.
Proof.
  unfold write_vertex, has_tag. intros Hw.
  apply bind_Ok in Hw. destruct Hw as (count & Hcount & Hw). rewrite Hcount. simpl.
  destruct (0 <? count)%nat.
  - apply bind_Ok in Hw. destruct Hw as (acc & Hacc & Hw). rewrite Hacc. simpl.
    destruct (find vertex "normal") as [c|] eqn:Hn; injection Hw as <- <-.
    + destruct (set_normal_again
                  (format_6f (Vector3.x (final_normal acc count)))
                  (format_6f (Vector3.y (final_normal acc count)))
                  (format_6f (Vector3.z (final_normal acc count))) vertex)
        as ([c' Hc'] & Heq & Htag & Hpos); [eauto|].
      rewrite Hc', Heq, Htag. repeat split. apply read_position_find, Hpos.
    + destruct (create_normal_again
                  (format_6f (Vector3.x (final_normal acc count)))
                  (format_6f (Vector3.y (final_normal acc count)))
                  (format_6f (Vector3.z (final_normal acc count))) vertex Hn)
        as ([c' Hc'] & Heq & Htag & Hpos).
      rewrite Hc', Heq, Htag. repeat split. apply read_position_find, Hpos.
  - destruct (find vertex "normal") as [c|] eqn:Hn; injection Hw as <- <-.
    + destruct (set_normal_again "0.000000" "1.000000" "0.000000" vertex)
        as ([c' Hc'] & Heq & Htag & Hpos); [eauto|].
      rewrite Hc', Heq, Htag. repeat split. apply read_position_find, Hpos.
    + rewrite Hn. repeat split.
Qed.

Lemma write_back_again a cs i n0 cs' k :
  write_back a cs i n0 = Ok (cs', k) ->
  write_back a cs' i n0 = Ok (cs', k) /\
  read_positions (List.filter (has_tag "vertex") cs') =
  read_positions (List.filter (has_tag "vertex") cs).
Proof.
  revert i n0 cs' k. induction cs as [|c cs IH]; intros i n0 cs' k Hw; simpl in Hw.
  - injection Hw as <- <-. split; reflexivity.
  - destruct (has_tag "vertex" c) eqn:Hc.
    + apply bind_Ok in Hw. destruct Hw as ([c' updated] & Hv & Hw).
      apply bind_Ok in Hw. destruct Hw as ([rest m] & Hrest & Hw).
      injection Hw as <- <-.
      destruct (write_vertex_again _ _ _ _ _ Hv) as (Hv' & Htag & Hpos).
      destruct (IH _ _ _ _ Hrest) as (Hrest' & Hposs).
      simpl. rewrite Htag, Hc, Hv'. simpl. rewrite Hrest'. simpl.
      rewrite Hpos, Hposs. split; reflexivity.
    + apply bind_Ok in Hw. destruct Hw as ([rest m] & Hrest & Hw).
      injection Hw as <- <-.
      destruct (IH _ _ _ _ Hrest) as (Hrest' & Hposs).
      simpl. rewrite Hc, Hrest'. simpl. split; [reflexivity | exact Hposs].
Qed.

Lemma recalc_vertex_buffer_again n vb faces vb' k ws :
  recalc_vertex_buffer n vb faces = Ok (Updated vb' k ws) ->
  recalc_vertex_buffer n vb' faces = Ok (Updated vb' k ws).
Proof.
  unfold recalc_vertex_buffer. intros Hr.
  destruct (negb (bool_decide (get vb "normals" = Some "true"))) eqn:Hflag;
    [discriminate|].
  apply bind_Ok in Hr. destruct Hr as (positions & Hpos & Hr).
  destruct (length positions =? 0)%nat eqn:Hlen; [discriminate|].
  destruct faces as [fs|]; [|discriminate].
  apply bind_Ok in Hr. destruct Hr as (a & Ha & Hr).
  apply bind_Ok in Hr. destruct Hr as ([cs k'] & Hw & Hr).
  destruct vb as [t at_ x y cs0]. injection Hr as <- <- <-.
  destruct (write_back_again _ _ _ _ _ _ Hw) as (Hw' & Hposs).
  unfold get, findall in *. simpl in *.
  rewrite Hflag, Hposs, Hpos. simpl. rewrite Hlen, Ha. simpl. rewrite Hw'. reflexivity.
Qed.

End Idempotence.

(** X12: the pass is idempotent on a vertexbuffer: run again with the same
    faces on the vertexbuffer it has updated, it leaves the vertexbuffer as
    it is and reports the same count and the same warnings.  The normals it
    writes depend on the positions and the faces only, not on the normals
    the file had. *)
Theorem vertex_buffer_pass_idempotent `{PyBuiltins} n vb faces vb' k ws :
  RecalcNormals.recalc_vertex_buffer n vb faces = Ok (RecalcNormals.Updated vb' k ws) ->
  RecalcNormals.recalc_vertex_buffer n vb' faces = Ok (RecalcNormals.Updated vb' k ws).
Proof. apply recalc_vertex_buffer_again. Qed.

(** On the triangle with [mixed_faces]. *)
Lemma vertex_buffer_pass_idempotent_witness :
  exists vb' ws,
    RecalcNormals.recalc_vertex_buffer (H := Concrete.builtins) 1
      Samples.triangle_buffer (Some Samples.mixed_faces) =
      Ok (RecalcNormals.Updated vb' 3 ws) /\
    vb' <> Samples.triangle_buffer /\
    RecalcNormals.recalc_vertex_buffer (H := Concrete.builtins) 1 vb'
      (Some Samples.mixed_faces) = Ok (RecalcNormals.Updated vb' 3 ws).
Proof.
  eexists _, _. split; [reflexivity|]. split; [vm_compute; discriminate|].
  apply (vertex_buffer_pass_idempotent (H := Concrete.builtins) 1 Samples.triangle_buffer).
  reflexivity.
Defined.

(** ** The material library *)

Section TextureSearch.
Import MeshToObj Materials.
Context `{PyPaths}.



End TextureSearch.


Section MaterialLines.
Import MeshToObj Materials.
Context `{PyPaths}.

Lemma append_nl_inj (a b : string) : (a ++ nl = b ++ nl)%string -> a = b.
Proof.
  revert b. induction a as [|c a IH]; intros [|d b]; rewrite ?append_cons, ?append_nil_l;
    intros Heq.
  - reflexivity.
  - injection Heq as _ Heq. destruct b; discriminate.
  - injection Heq as _ Heq. destruct a; discriminate.
  - injection Heq as -> Heq. rewrite (IH _ Heq). reflexivity.
Qed.

Lemma found_textures_lookup output_file base_name suffix key :
  In (suffix, key) suffix_to_map ->
  found_textures output_file base_name !! suffix =
    Some (find_tex output_file base_name suffix).
Proof.
  unfold found_textures. simpl.
  intros [Heq | [Heq | [Heq | [Heq | []]]]]; injection Heq as <- <-.
  - rewrite lookup_insert_eq. reflexivity.
  - rewrite lookup_insert_ne by discriminate. rewrite lookup_insert_eq. reflexivity.
  - do 2 (rewrite lookup_insert_ne by discriminate). rewrite lookup_insert_eq.
    reflexivity.
  - do 3 (rewrite lookup_insert_ne by discriminate). rewrite lookup_insert_eq.
    reflexivity.
Qed.

Lemma write_textures_app found f :
  write_textures found f = f ++ write_textures found [].
Proof.
  unfold write_textures, suffix_to_map, write. simpl.
  destruct (truthy (found !! "_d")), (truthy (found !! "_e")),
    (truthy (found !! "_n")), (truthy (found !! "_s"));
    rewrite <- ?app_assoc, ?app_nil_r; reflexivity.
Qed.

(** The texture lines of a material: one for each suffix with a texture. *)
Lemma write_textures_lines found line :
  In line (write_textures found []) <->
  exists suffix key tex,
    In (suffix, key) suffix_to_map /\ truthy (found !! suffix) = Some tex /\
    line = (key ++ " " ++ tex ++ nl)%string.
Proof.
  unfold write_textures, suffix_to_map, write. simpl. split.
  - destruct (truthy (found !! "_d")) eqn:Hd, (truthy (found !! "_e")) eqn:He,
      (truthy (found !! "_n")) eqn:Hn, (truthy (found !! "_s")) eqn:Hs; simpl;
      intros Hin;
      repeat match goal with
             | H : _ \/ _ |- _ => destruct H as [H | H]
             | H : False |- _ => destruct H
             end; subst line;
      first [ exists "_d", "map_Kd"; eexists; split; [simpl; tauto|]; split; [eassumption|reflexivity]
            | exists "_e", "map_Ke"; eexists; split; [simpl; tauto|]; split; [eassumption|reflexivity]
            | exists "_n", "map_Bump"; eexists; split; [simpl; tauto|]; split; [eassumption|reflexivity]
            | exists "_s", "map_Ks"; eexists; split; [simpl; tauto|]; split; [eassumption|reflexivity] ].
  - intros (suffix & key & tex & Hin & Htex & ->).
    destruct Hin as [Heq | [Heq | [Heq | [Heq | []]]]]; injection Heq as <- <-;
      rewrite Htex;
      destruct (truthy (found !! "_d")), (truthy (found !! "_e")),
        (truthy (found !! "_n")), (truthy (found !! "_s")); simpl; try discriminate;
      find_in.
Qed.

Lemma write_material_app found submesh f :
  write_material found submesh f = f ++ write_material found submesh [].
Proof.
  unfold write_material. cbv zeta.
  rewrite write_textures_app, (write_textures_app _ (write _ _)). unfold write.
  rewrite <- !app_assoc. reflexivity.
Qed.

Lemma fold_left_materials found sms f :
  fold_left (fun f submesh => write_material found submesh f) sms f =
  f ++ concat (List.map (fun submesh => write_material found submesh []) sms).
Proof.
  revert f. induction sms as [|sm sms IH]; intros f; simpl.
  - rewrite app_nil_r. reflexivity.
  - rewrite IH, write_material_app, <- app_assoc. reflexivity.
Qed.

(** The lines of one material. *)
Lemma write_material_lines found submesh line :
  In line (write_material found submesh []) <->
  line = ("newmtl " ++ material submesh ++ nl)%string \/
  In line ["Ka 1.0 1.0 1.0" ++ nl; "Kd 0.8 0.8 0.8" ++ nl; "Ks 0.5 0.5 0.5" ++ nl;
           "Ns 32.0" ++ nl; "d 1.0" ++ nl; "illum 2" ++ nl; nl]%string \/
  In line (write_textures found []).
Proof.
  unfold write_material. cbv zeta. rewrite write_textures_app. unfold write.
  rewrite !in_app_iff. simpl. intuition auto.
Qed.

Lemma write_mtl_lines self output_file line :
  In line (write_mtl self output_file) <->
  line = ("# Material library for Ogre mesh" ++ nl ++ nl)%string \/
  exists submesh,
    In submesh (submeshes self) /\
    In line (write_material (found_textures output_file (stem output_file)) submesh []).
Proof.
  unfold write_mtl. cbv zeta. rewrite fold_left_materials. unfold write.
  rewrite in_app_iff, in_concat. simpl. split.
  - intros [[<- | []] | (l & Hl & Hin)]; [left; reflexivity|].
    apply in_map_iff in Hl. destruct Hl as (sm & <- & Hsm). right. eauto.
  - intros [-> | (sm & Hsm & Hin)]; [auto|].
    right. eexists. split; [|exact Hin]. apply in_map_iff. eauto.
Qed.


(** The texture lines of the library. *)
Lemma write_mtl_textures self output_file suffix key tex :
  In (suffix, key) suffix_to_map ->
  In (key ++ " " ++ tex ++ nl)%string (write_mtl self output_file) <->
  submeshes self <> [] /\ tex <> "" /\
  find_tex output_file (stem output_file) suffix = Some tex.
Proof.
  intros Hk. rewrite write_mtl_lines.
  assert (Hlines : In (key ++ " " ++ tex ++ nl)%string
                      (write_textures (found_textures output_file (stem output_file)) []) <->
                   tex <> "" /\ find_tex output_file (stem output_file) suffix = Some tex).
  { rewrite write_textures_lines. split.
    - intros (suffix' & key' & tex' & Hk' & Htex & Heq).
      rewrite (found_textures_lookup _ _ _ _ Hk') in Htex. simpl in Htex.
      destruct (find_tex output_file (stem output_file) suffix') as [t|] eqn:Hfind;
        [|discriminate].
      destruct (ObjFormat.nonempty t) eqn:Hne; [|discriminate]. injection Htex as <-.
      simpl in Hk, Hk'.
      destruct Hk as [Hk | [Hk | [Hk | [Hk | []]]]]; injection Hk as <- <-;
        destruct Hk' as [Hk' | [Hk' | [Hk' | [Hk' | []]]]]; injection Hk' as <- <-;
        rewrite !append_cons, !append_nil_l in Heq; try discriminate;
        injection Heq as Heq; apply append_nl_inj in Heq; subst tex;
        (split; [intros ->; discriminate | exact Hfind]).
    - intros [Hne Hfind]. exists suffix, key, tex. split; [exact Hk|].
      split; [|reflexivity].
      rewrite (found_textures_lookup _ _ _ _ Hk), Hfind. simpl.
      destruct tex; [congruence | reflexivity]. }
  split.
  - intros [Heq | (sm & Hsm & Hin)].
    + simpl in Hk. destruct Hk as [Hk | [Hk | [Hk | [Hk | []]]]]; injection Hk as <- <-;
        discriminate.
    + apply write_material_lines in Hin. destruct Hin as [Heq | [Hin | Hin]].
      * simpl in Hk. destruct Hk as [Hk | [Hk | [Hk | [Hk | []]]]];
          injection Hk as <- <-; discriminate.
      * exfalso. simpl in Hk, Hin.
        destruct Hk as [Hk | [Hk | [Hk | [Hk | []]]]]; injection Hk as <- <-;
          repeat match goal with
                 | H : _ \/ _ |- _ => destruct H as [H | H]
                 | H : False |- _ => destruct H
                 end; discriminate.
      * apply Hlines in Hin. destruct Hin as [Hne Hfind].
        split; [|split; assumption]. intros Hnil. rewrite Hnil in Hsm. destruct Hsm.
  - intros (Hsm & Hne & Hfind). right.
    destruct (submeshes self) as [|sm sms]; [congruence|].
    exists sm. split; [left; reflexivity|].
    apply write_material_lines. right. right. apply Hlines. auto.
Qed.

End MaterialLines.

(** ** The materials of the two written files *)


Section UsedMaterials.
Import MeshToObj Materials.
Context `{PyBuiltins}.









End UsedMaterials.

Section Convert.
Import MeshToObj Materials.
Context `{PyBuiltins} `{PyPaths}.


End Convert.

(** X14: the material library that [write_mtl] writes has a line
    [<map> <texture>] for a suffix exactly when the mesh has a submesh and the
    search finds a texture for the suffix, of a non-empty relative path. *)
Theorem mtl_wires_found_textures `{Materials.PyPaths} self output_file suffix key tex :
  In (suffix, key) Materials.suffix_to_map ->
  In (key ++ " " ++ tex ++ MeshToObj.nl)%string (Materials.write_mtl self output_file) <->
  MeshToObj.submeshes self <> [] /\ tex <> "" /\
  Materials.find_tex output_file (Materials.stem output_file) suffix = Some tex.
Proof. apply write_mtl_textures. Qed.


(** In [flat_directory] the diffuse texture exists as [.png] and as [.tga]:
    the [.tga] file is wired. *)
Lemma mtl_wires_found_textures_witness :
  In ("map_Kd" ++ " " ++ "tank_d.tga" ++ MeshToObj.nl)%string
     (Materials.write_mtl (H := Samples.flat_directory) Samples.one_material "tank.mtl").
Proof.
  apply (mtl_wires_found_textures (H := Samples.flat_directory) Samples.one_material
           "tank.mtl" "_d" "map_Kd" "tank_d.tga").
  - simpl. auto.
  - split; [discriminate|]. split; [discriminate | reflexivity].
Defined.


(** ** A later pass overwrites an earlier one *)

Section LaterPass.
Context `{PyBuiltins}.
Import RecalcNormals.







End LaterPass.



(** ** What the queries find after the pass *)

Section QueriesAfter.
Context `{PyBuiltins}.
Import Frame Descendants RecalcNormals.

Lemma iter_from_app i l1 l2 :
  iter_from i (l1 ++ l2) = iter_from i l1 ++ iter_from (i + length l1) l2.
Proof.
  revert i. induction l1 as [|c l1 IH]; intros i; simpl.
  - rewrite Nat.add_0_r. reflexivity.
  - rewrite IH, <- app_assoc, Nat.add_succ_comm. reflexivity.
Qed.

(** The created normal fields are found by no query for another tag. *)
Lemma filter_created e t pre extra :
  t <> "normal" ->
  children e = pre ++ extra ->
  Forall created_normal extra ->
  List.filter (tag_at e t) (iter_from (length pre) extra) = [].
Proof.
  intros Ht. revert pre. induction extra as [|c extra IH]; intros pre Hcs Hex;
    [reflexivity|].
  apply Forall_cons in Hex. destruct Hex as [(Htag & _ & _ & Hnil & _) Hex].
  assert (Hc : children e !! length pre = Some c).
  { rewrite Hcs. apply list_lookup_middle. reflexivity. }
  cbn [iter_from]. destruct c as [tc ac xc yc csc]. simpl in Htag, Hnil. subst tc csc.
  cbn [iter_paths List.map app List.filter].
  rewrite tag_at_cons, Hc. unfold tag_at at 1, has_tag. cbn [subtree tag].
  destruct (String.eqb_spec "normal" t) as [Heq|_]; [congruence|].
  specialize (IH (pre ++ [Elem "normal" ac xc yc []])).
  rewrite length_app in IH. simpl in IH.
  replace (length pre + 1)%nat with (S (length pre)) in IH by lia.
  apply IH; [|exact Hex]. rewrite <- app_assoc. exact Hcs.
Qed.

Lemma filter_child e t i c :
  children e !! i = Some c ->
  List.filter (tag_at e t) ([i] :: List.map (cons i) (iter_paths c)) =
  (if has_tag t c then [[i]] else []) ++ List.map (cons i) (findall_desc c t).
Proof.
  intros Hc. cbn [List.filter]. rewrite tag_at_cons, Hc.
  rewrite (filter_under_child _ _ _ _ _ Hc). unfold tag_at at 1. cbn [subtree].
  destruct (has_tag t c); reflexivity.
Qed.

(** A query for a tag other than [normal] finds the same elements, at the
    same places, in a tree and in the tree the pass has left. *)
Lemma preserved_findall_desc e :
  forall b e' t, preserved b e e' -> t <> "normal" ->
                 findall_desc e' t = findall_desc e t.
Proof.
  induction e as [t0 a x y cs IH] using Element_ind'. intros b e' t Hp Ht.
  inversion Hp as [? t1 a1 a' x1 y1 cs1 cs' extra Ha Hcs Hfst Hex Hv]; subst.
  unfold findall_desc. rewrite !iter_paths_from, iter_from_app, List.filter_app.
  cbn [Nat.add].
  rewrite (filter_created (Elem t0 a' x y (cs' ++ extra)) t cs' extra Ht eq_refl Hex),
    app_nil_r.
  assert (Hgen : forall pre pre' l l',
            cs = pre ++ l -> cs' = pre' ++ l' -> length pre' = length pre ->
            Forall2 (preserved (below b t0)) l l' ->
            List.filter (tag_at (Elem t0 a' x y (cs' ++ extra)) t)
                        (iter_from (length pre) l') =
            List.filter (tag_at (Elem t0 a x y cs) t) (iter_from (length pre) l)).
  { intros pre pre' l l' Hl Hl' Hlen Hall. revert pre pre' Hl Hl' Hlen.
    induction Hall as [|c c' l l' Hcc' _ IHl]; intros pre pre' Hl Hl' Hlen;
      [reflexivity|].
    assert (Hc : children (Elem t0 a x y cs) !! length pre = Some c).
    { simpl. rewrite Hl. apply list_lookup_middle. reflexivity. }
    assert (Hc' : children (Elem t0 a' x y (cs' ++ extra)) !! length pre = Some c').
    { simpl. rewrite Hl', <- app_assoc. apply list_lookup_middle. symmetry. exact Hlen. }
    assert (Hin : findall_desc c' t = findall_desc c t).
    { rewrite Forall_forall in IH. eapply IH; [|exact Hcc'|exact Ht].
      rewrite Hl. apply list_elem_of_In, in_app_iff. right. left. reflexivity. }
    assert (Htag : has_tag t c' = has_tag t c).
    { unfold has_tag. destruct (preserved_fields _ _ _ Hcc') as (-> & _). reflexivity. }
    cbn [iter_from]. rewrite !List.filter_app.
    rewrite (filter_child _ _ _ _ Hc), (filter_child _ _ _ _ Hc'), Htag, Hin.
    specialize (IHl (pre ++ [c]) (pre' ++ [c'])). rewrite !length_app in IHl.
    simpl in IHl. replace (length pre + 1)%nat with (S (length pre)) in IHl by lia.
    f_equal. apply IHl; [| |lia].
    - rewrite <- app_assoc. exact Hl.
    - rewrite <- app_assoc. exact Hl'. }
  apply (Hgen [] [] cs cs'); auto.
Qed.

Lemma run_findall_desc tree st t :
  run tree = Ok st -> t <> "normal" ->
  findall_desc (root st) t = findall_desc tree t.
Proof.
  intros Hst Ht. eapply preserved_findall_desc; [|exact Ht].
  apply run_preserved, Hst.
Qed.

(** The tree that was written is the tree the loop left. *)
Lemma recalculate_normals_written `{PyFiles} tree tree' :
  recalculate_normals tree = (true, Written tree') ->
  exists st, run tree = Ok st /\ root st = tree' /\ tree_write tree' = Wrote.
Proof.
  unfold recalculate_normals, save. intros Hr.
  destruct (run tree) as [st|e]; [|discriminate].
  destruct (tree_write (root st)) eqn:Hw; try discriminate.
  injection Hr as <-. eauto.
Qed.

End QueriesAfter.

(** X17: the pass moves nothing: a query [findall('.//t')] for a tag other
    than [normal] finds, in the tree the loop over the submeshes leaves in
    memory, the elements at the places where it found them before (the same
    submeshes, vertexbuffers, vertex records and faces, in the same
    order); and so it does in the tree of the file, when the call returns
    True with the file written. *)
Theorem queries_find_the_same `{PyBuiltins} tree st t :
  RecalcNormals.run tree = Ok st ->
  t <> "normal" ->
  findall_desc (RecalcNormals.root st) t = findall_desc tree t /\
  (forall (F : PyFiles) tree',
     RecalcNormals.recalculate_normals tree = (true, RecalcNormals.Written tree') ->
     findall_desc tree' t = findall_desc tree t).
Proof.
  intros Hst Ht. split; [apply run_findall_desc; assumption|].
  intros F tree' Hr.
  destruct (recalculate_normals_written _ _ Hr) as (st' & Hst' & <- & _).
  apply run_findall_desc; assumption.
Qed.

(** On [with_loose_vertex]: the pass creates normal fields, and the four
    vertex records are found where they were. *)
Lemma queries_find_the_same_witness :
  exists st,
    RecalcNormals.run (H := Concrete.builtins) (Examples.with_loose_vertex None) = Ok st /\
    findall_desc (RecalcNormals.root st) "vertex" =
      findall_desc (Examples.with_loose_vertex None) "vertex" /\
    length (findall_desc (Examples.with_loose_vertex None) "vertex") = 4%nat /\
    RecalcNormals.root st <> Examples.with_loose_vertex None.
Proof.
  destruct (RecalcNormals.run (H := Concrete.builtins) (Examples.with_loose_vertex None))
    as [st|e] eqn:Hrun; [|vm_compute in Hrun; discriminate].
  exists st. split; [reflexivity|].
  destruct (queries_find_the_same (H := Concrete.builtins) _ _ "vertex" Hrun) as [Hq _];
    [discriminate|].
  split; [exact Hq|]. split; [reflexivity|].
  vm_compute in Hrun. injection Hrun as <-. vm_compute. discriminate.
Defined.

(** ** A face that lacks an index *)

Section MissingIndex.
Context `{PyBuiltins}.
Import MeshToObj Blocks.

Lemma read_face_missing offset face k :
  In k index_keys -> get face k = None ->
  (forall k', In k' index_keys ->
              get face k' = None \/ exists v, int_attr face k' = Ok v) ->
  read_face offset face = Raise TypeError.
Proof.
  intros Hk Hnone Hall. unfold read_face.
  assert (Hmiss : forall k', get face k' = None -> int_attr face k' = Raise TypeError).
  { intros k' Hk'. unfold int_attr. rewrite Hk'. reflexivity. }
  destruct (Hall "v1" ltac:(simpl; auto)) as [H1 | [v1 H1]];
    [rewrite (Hmiss _ H1); reflexivity|].
  rewrite H1. simpl.
  destruct (Hall "v2" ltac:(simpl; auto)) as [H2 | [v2 H2]];
    [rewrite (Hmiss _ H2); reflexivity|].
  rewrite H2. simpl.
  destruct (Hall "v3" ltac:(simpl; auto)) as [H3 | [v3 H3]];
    [rewrite (Hmiss _ H3); reflexivity|].
  exfalso. simpl in Hk. destruct Hk as [<- | [<- | [<- | []]]];
    rewrite (Hmiss _ Hnone) in *; discriminate.
Qed.

Lemma read_faces_missing offset fs1 face fs2 l k :
  read_faces offset fs1 = Ok l ->
  In k index_keys -> get face k = None ->
  (forall k', In k' index_keys ->
              get face k' = None \/ exists v, int_attr face k' = Ok v) ->
  read_faces offset (fs1 ++ face :: fs2) = Raise TypeError.
Proof.
  intros Hl Hk Hnone Hall. revert l Hl.
  induction fs1 as [|f fs1 IH]; intros l Hl; simpl in *.
  - rewrite (read_face_missing offset face k Hk Hnone Hall). reflexivity.
  - apply bind_Ok in Hl. destruct Hl as (x & -> & Hl).
    apply bind_Ok in Hl. destruct Hl as (rest & Hrest & _).
    simpl. rewrite (IH _ Hrest). reflexivity.
Qed.

End MissingIndex.

(** X18: in the exporter a face that lacks one of its three indices is an
    error: the loop over the faces of a submesh raises [TypeError] at the
    first such face (its other indices being integers), whatever faces
    follow it, and no submesh record is made. *)
Theorem face_without_index_aborts `{PyBuiltins} offset fs1 face fs2 l k :
  MeshToObj.read_faces offset fs1 = Ok l ->
  In k Blocks.index_keys -> get face k = None ->
  (forall k', In k' Blocks.index_keys ->
              get face k' = None \/ exists v, int_attr face k' = Ok v) ->
  MeshToObj.read_faces offset (fs1 ++ face :: fs2) = Raise TypeError.
Proof. apply read_faces_missing. Qed.

(** A face without [v3] after a well-formed one. *)
Lemma face_without_index_aborts_witness :
  MeshToObj.read_faces (H := Concrete.builtins) 0
    ([Examples.face "0" "1" "2"] ++ Samples.face_without_v3 :: [Examples.face "x" "y" "z"]) =
  Raise TypeError.
Proof.
  apply (face_without_index_aborts (H := Concrete.builtins) 0 _ _ _ [(1, 2, 3)] "v3").
  - reflexivity.
  - simpl. auto.
  - reflexivity.
  - intros k' Hk'. simpl in Hk'. destruct Hk' as [<- | [<- | [<- | []]]].
    + right. eexists. reflexivity.
    + right. eexists. reflexivity.
    + left. reflexivity.
Defined.

Section MissingIndexRecalc.
Context `{PyBuiltins}.
Import RecalcNormals.

Lemma accumulate_face_no_indices positions face a p0 ps n0 ns c0 cs :
  get face "v1" = None -> get face "v2" = None -> get face "v3" = None ->
  positions = p0 :: ps ->
  vertex_normals a = n0 :: ns ->
  vertex_face_count a = c0 :: cs ->
  accumulate_face positions face a =
  Ok {| vertex_normals :=
          Vector3.add
            (Vector3.add (Vector3.add n0 (calculate_face_normal p0 p0 p0))
               (calculate_face_normal p0 p0 p0))
            (calculate_face_normal p0 p0 p0) :: ns;
        vertex_face_count := S (S (S c0)) :: cs;
        face_count := S (face_count a);
        warnings := warnings a |}.
Proof.
  intros H1 H2 H3 -> Hn Hc. unfold accumulate_face, face_body, int_attr0.
  rewrite H1, H2, H3, Hn, Hc. simpl.
  unfold getitem, add_normal, incr, getitem, setitem, norm_index. simpl.
  reflexivity.
Qed.

End MissingIndexRecalc.

(** X19: in the recalculation a missing index reads as 0: a face element
    without any of the three indices is counted as a face on vertex 0 alone,
    which adds three to the face count of vertex 0 and three times the
    normal of that degenerate face to its accumulated normal. *)
Theorem face_without_indices_counts_vertex_zero `{PyBuiltins}
    positions face a p0 ps n0 ns c0 cs :
  get face "v1" = None -> get face "v2" = None -> get face "v3" = None ->
  positions = p0 :: ps ->
  RecalcNormals.vertex_normals a = n0 :: ns ->
  RecalcNormals.vertex_face_count a = c0 :: cs ->
  RecalcNormals.accumulate_face positions face a =
  Ok {| RecalcNormals.vertex_normals :=
          Vector3.add
            (Vector3.add
               (Vector3.add n0 (RecalcNormals.calculate_face_normal p0 p0 p0))
               (RecalcNormals.calculate_face_normal p0 p0 p0))
            (RecalcNormals.calculate_face_normal p0 p0 p0) :: ns;
        RecalcNormals.vertex_face_count := S (S (S c0)) :: cs;
        RecalcNormals.face_count := S (RecalcNormals.face_count a);
        RecalcNormals.warnings := RecalcNormals.warnings a |}.
Proof. apply accumulate_face_no_indices. Qed.

(** On the triangle: vertex 0 gets the count 3 and the normal (0, 0, 3). *)
Lemma face_without_indices_counts_vertex_zero_witness :
  exists a,
    RecalcNormals.accumulate_face (H := Concrete.builtins) Examples.triangle_positions
      Samples.face_without_indices (RecalcNormals.init_acc 3) = Ok a /\
    RecalcNormals.vertex_face_count a = [3; 0; 0]%nat /\
    RecalcNormals.vertex_normals a !! 0%nat = Some (Vector3.mk 0 0 3).
Proof.
  eexists. split; [|split].
  - eapply (face_without_indices_counts_vertex_zero (H := Concrete.builtins)
              Examples.triangle_positions Samples.face_without_indices
              (RecalcNormals.init_acc 3)); reflexivity.
  - reflexivity.
  - reflexivity.
Defined.

(** ** When the recalculation succeeds *)

Section Succeeds.
Context `{PyBuiltins}.
Import Frame RecalcNormals AccSpec TreeSpec.

Lemma all_elements_here P e : all_elements P e = true -> P e = true.
Proof. destruct e. simpl. intros Ha. apply andb_true_iff in Ha. tauto. Qed.

Lemma all_elements_child P e c :
  all_elements P e = true -> In c (children e) -> all_elements P c = true.
Proof.
  destruct e as [t a x y cs]. simpl. intros Ha Hc.
  apply andb_true_iff in Ha. destruct Ha as [_ Ha].
  rewrite forallb_forall in Ha. apply Ha, Hc.
Qed.

Lemma all_elements_subtree P e p d :
  all_elements P e = true -> subtree e p = Some d -> all_elements P d = true.
Proof.
  revert e. induction p as [|i p IH]; intros e Ha Hd; simpl in Hd.
  - injection Hd as <-. exact Ha.
  - destruct (children e !! i) as [c|] eqn:Hc; [|discriminate].
    apply (IH c); [|exact Hd]. apply (all_elements_child P e c Ha).
    apply list_elem_of_In. eapply list_elem_of_lookup_2, Hc.
Qed.

Lemma sound_attrib t a x y cs cs' :
  sound (Elem t a x y cs') = sound (Elem t a x y cs).
Proof. reflexivity. Qed.

(** The pass keeps a sound tree sound. *)
Lemma preserved_sound e :
  forall b e', preserved b e e' ->
               all_elements sound e = true -> all_elements sound e' = true.
Proof.
  induction e as [t a x y cs IH] using Element_ind'. intros b e' Hp Ha.
  inversion Hp as [? t1 a1 a' x1 y1 cs1 cs' extra Hattr Hcs Hfst Hex Hv]; subst.
  simpl in Ha. apply andb_true_iff in Ha. destruct Ha as [Hs Hcs0].
  simpl. apply andb_true_iff. split.
  - destruct (String.eqb t "normal") eqn:Hn.
    + apply String.eqb_eq in Hn. subst t. reflexivity.
    + assert (Hnot : normal_at b t = false) by (destruct b; auto).
      rewrite Hnot in Hattr. subst a'. exact Hs.
  - rewrite forallb_app. apply andb_true_iff. split.
    + rewrite forallb_forall in Hcs0. apply forallb_forall. intros c' Hc'.
      apply list_elem_of_In in Hc'.
      destruct (proj1 (list_elem_of_lookup _ _) Hc') as [i Hi].
      destruct (Forall2_lookup_r _ _ _ _ _ Hcs Hi) as (c & Hc & Hcc').
      assert (Hin : c ∈ cs) by (eapply list_elem_of_lookup_2, Hc).
      rewrite Forall_forall in IH. eapply (IH c Hin); [exact Hcc'|].
      apply Hcs0, list_elem_of_In, Hin.
    + apply forallb_forall. intros c Hc. apply list_elem_of_In in Hc.
      rewrite Forall_forall in Hex. destruct (Hex c Hc) as (Htag & _ & _ & Hnil & _).
      destruct c as [tc ac xc yc csc]. simpl in Htag, Hnil. subst tc csc. reflexivity.
Qed.

Lemma float_attr_converts e k :
  converts e k = true -> exists v, float_attr e k = Ok v.
Proof. unfold converts. destruct (float_attr e k); [eauto | discriminate]. Qed.

Lemma read_position_returns vertex :
  all_elements sound vertex = true -> exists p, read_position vertex = Ok p.
Proof.
  intros Ha. unfold read_position, find.
  destruct (List.find (has_tag "position") (children vertex)) as [pos|] eqn:Hpos;
    [|eauto].
  apply find_some in Hpos. destruct Hpos as [Hin Htag].
  pose proof (all_elements_here _ _ (all_elements_child _ _ _ Ha Hin)) as Hs.
  unfold sound in Hs. unfold has_tag in Htag. rewrite Htag in Hs.
  apply andb_true_iff in Hs. destruct Hs as [Hs _].
  apply andb_true_iff in Hs. destruct Hs as [Hs Hz].
  apply andb_true_iff in Hs. destruct Hs as [Hx Hy].
  destruct (float_attr_converts _ _ Hx) as [vx ->].
  destruct (float_attr_converts _ _ Hy) as [vy ->].
  destruct (float_attr_converts _ _ Hz) as [vz ->]. simpl. eauto.
Qed.

Lemma read_positions_returns vertices :
  Forall (fun v => all_elements sound v = true) vertices ->
  exists ps, read_positions vertices = Ok ps.
Proof.
  induction 1 as [|v vs Hv _ [ps IH]]; simpl; [eauto|].
  destruct (read_position_returns v Hv) as [p ->]. simpl. rewrite IH. simpl. eauto.
Qed.

Lemma findall_sound e t :
  all_elements sound e = true ->
  Forall (fun c => all_elements sound c = true /\ tag c = t) (findall e t).
Proof.
  intros Ha. apply List.Forall_forall. intros c Hc. unfold findall in Hc.
  apply filter_In in Hc. destruct Hc as [Hin Htag]. split.
  - apply (all_elements_child _ _ _ Ha Hin).
  - apply String.eqb_eq, Htag.
Qed.

Lemma sound_face_not_negative face :
  all_elements sound face = true -> tag face = "face" -> no_index_below 0 face.
Proof.
  intros Ha Htag. pose proof (all_elements_here _ _ Ha) as Hs.
  unfold sound in Hs. rewrite Htag in Hs. simpl in Hs.
  apply andb_true_iff in Hs. destruct Hs as [Hs H3].
  apply andb_true_iff in Hs. destruct Hs as [H1 H2].
  unfold not_negative in *. intros k v Hk Hv. simpl in Hk.
  destruct Hk as [<- | [<- | [<- | []]]]; rewrite Hv in *; apply Z.leb_le; assumption.
Qed.

Lemma no_index_below_mono lo lo' face :
  lo' <= lo -> no_index_below lo face -> no_index_below lo' face.
Proof. intros Hle Hlo k v Hk Hv. specialize (Hlo k v Hk Hv). lia. Qed.

Lemma faces_of_sound submesh fs :
  all_elements sound submesh = true -> faces_of submesh = Some fs ->
  Forall (no_index_below 0) fs.
Proof.
  unfold faces_of. intros Ha Hfs.
  destruct (find_desc submesh "faces") as [q|]; [|discriminate].
  destruct (subtree submesh q) as [faces_elem|] eqn:Hq; [|discriminate].
  injection Hfs as <-.
  pose proof (findall_sound _ "face" (all_elements_subtree _ _ _ _ Ha Hq)) as Hall.
  eapply Forall_impl; [exact Hall|]. intros face [Hface Htag].
  apply sound_face_not_negative; assumption.
Qed.

Lemma recalc_vertex_buffer_sound n vb faces :
  all_elements sound vb = true ->
  (forall fs, faces = Some fs -> Forall (no_index_below 0) fs) ->
  exists o, recalc_vertex_buffer n vb faces = Ok o.
Proof.
  intros Ha Hfaces.
  destruct (read_positions_returns (findall vb "vertex")) as [ps Hps].
  { eapply Forall_impl; [apply (findall_sound _ "vertex" Ha)|]. intros v [Hv _]. exact Hv. }
  destruct faces as [fs|].
  - apply (recalc_vertex_buffer_returns n vb fs ps Hps).
    eapply Forall_impl; [apply (Hfaces fs eq_refl)|]. intros face.
    apply no_index_below_mono. lia.
  - unfold recalc_vertex_buffer.
    destruct (negb (bool_decide (get vb "normals" = Some "true"))); [eauto|].
    rewrite Hps. simpl. destruct (length ps =? 0)%nat; eauto.
Qed.

Lemma process_submesh_returns st idx psub :
  all_elements sound (root st) = true ->
  exists st', process_submesh st idx psub = Ok st'.
Proof.
  intros Ha. unfold process_submesh.
  destruct (subtree (root st) psub) as [submesh|] eqn:Hsub; [|eauto].
  destruct (geometry_ref _ _ _ _) as [pgeom|]; [|eauto].
  destruct (vertex_buffer_ref _ _) as [pvb|]; [|eauto].
  destruct (subtree (root st) pvb) as [vb|] eqn:Hvb; [|eauto].
  destruct (recalc_vertex_buffer_sound (S idx) vb (faces_of submesh)) as [o Ho].
  - apply (all_elements_subtree _ _ _ _ Ha Hvb).
  - intros fs. apply faces_of_sound. apply (all_elements_subtree _ _ _ _ Ha Hsub).
  - rewrite Ho. simpl. destruct o; eauto.
Qed.

Lemma process_submeshes_returns st idx submeshes :
  all_elements sound (root st) = true ->
  exists st', process_submeshes st idx submeshes = Ok st'.
Proof.
  revert st idx. induction submeshes as [|psub rest IH]; intros st idx Ha; simpl;
    [eauto|].
  destruct (process_submesh_returns st idx psub Ha) as [st1 H1]. rewrite H1. simpl.
  apply IH. eapply preserved_sound; [|exact Ha].
  eapply process_submesh_preserved, H1.
Qed.

Lemma run_returns tree :
  all_elements sound tree = true -> exists st, run tree = Ok st.
Proof.
  intros Ha. unfold run.
  apply (process_submeshes_returns
           {| root := tree; total_vertices_processed := 0; printed := [] |}
           0 (findall_desc tree "submesh") Ha).
Qed.

(** With the loop done, the call returns what [tree.write] allows. *)
Lemma recalculate_normals_saves `{PyFiles} tree st :
  run tree = Ok st ->
  recalculate_normals tree = save (root st) /\
  ((recalculate_normals tree).1 = true <-> tree_write (root st) = Wrote).
Proof.
  intros Hst. unfold recalculate_normals, save. rewrite Hst.
  split; [reflexivity|].
  destruct (tree_write (root st)); simpl; split; congruence.
Qed.

End Succeeds.

(** X20: the loop of the recalculation raises nothing on a tree in which the
    [x], [y] and [z] of every [position] element convert to floats and no
    [face] element has a negative index: all the rest (missing elements and
    attributes, indices that are too large or not integers) gives warnings
    or defaults, never an exception.  On such a tree the call reaches
    [tree.write] with the tree the loop left, and returns True exactly when
    [tree.write] returns, the file being then that tree; when
    [tree.write] raises, the call returns False and the file is what it was
    or a partial output. *)
Theorem recalculation_succeeds `{PyBuiltins} tree :
  TreeSpec.all_elements TreeSpec.sound tree = true ->
  exists st,
    RecalcNormals.run tree = Ok st /\
    forall F : PyFiles,
      RecalcNormals.recalculate_normals tree = RecalcNormals.save (RecalcNormals.root st) /\
      ((RecalcNormals.recalculate_normals tree).1 = true <->
       tree_write (RecalcNormals.root st) = Wrote) /\
      (tree_write (RecalcNormals.root st) = Wrote ->
       RecalcNormals.recalculate_normals tree =
         (true, RecalcNormals.Written (RecalcNormals.root st))) /\
      (tree_write (RecalcNormals.root st) <> Wrote ->
       RecalcNormals.recalculate_normals tree = (false, RecalcNormals.Untouched) \/
       RecalcNormals.recalculate_normals tree = (false, RecalcNormals.Partial)).
Proof.
  intros Ha. destruct (run_returns tree Ha) as [st Hst]. exists st.
  split; [exact Hst|]. intros F.
  destruct (recalculate_normals_saves tree st Hst) as [Hsave Hiff].
  split; [exact Hsave|]. split; [exact Hiff|].
  rewrite Hsave. unfold RecalcNormals.save.
  destruct (tree_write (RecalcNormals.root st)); split; intros Hw;
    try discriminate; try congruence; auto.
Qed.

(** On [with_loose_vertex]: the loop ends with three normals updated. *)
Lemma recalculation_succeeds_witness :
  exists st,
    RecalcNormals.run (H := Concrete.builtins) (Examples.with_loose_vertex None) = Ok st /\
    RecalcNormals.total_vertices_processed st = 3%nat /\
    forall F : PyFiles,
      tree_write (RecalcNormals.root st) = Wrote ->
      RecalcNormals.recalculate_normals (H := Concrete.builtins)
        (Examples.with_loose_vertex None) =
      (true, RecalcNormals.Written (RecalcNormals.root st)).
Proof.
  destruct (recalculation_succeeds (H := Concrete.builtins)
              (Examples.with_loose_vertex None)) as (st & Hst & Hfile);
    [vm_compute; reflexivity|].
  exists st. split; [exact Hst|]. split.
  - vm_compute in Hst. injection Hst as <-. reflexivity.
  - intros F Hw. destruct (Hfile F) as (_ & _ & Hwrote & _). apply Hwrote, Hw.
Defined.

(** ** When the exporter reads a file to the end *)

Section Readable.
Context `{PyBuiltins}.
Import MeshToObj TreeSpec.

Lemma readable_parts e :
  readable e = true ->
  (tag e = "position" \/ tag e = "normal" ->
   converts e "x" = true /\ converts e "y" = true /\ converts e "z" = true) /\
  (String.prefix "texcoord" (tag e) = true ->
   converts e "u" = true /\ converts e "v" = true) /\
  (tag e = "geometry" \/ tag e = "sharedgeometry" ->
   match vertex_count_of e with
   | Ok (Some n) => granted n = true
   | Ok None => True
   | Raise _ => False
   end) /\
  (tag e = "vertexbuffer" -> exists t, tex_coords_of e = Ok t) /\
  (tag e = "face" ->
   has_int e "v1" = true /\ has_int e "v2" = true /\ has_int e "v3" = true).
Proof.
  unfold readable. intros Hr.
  apply andb_true_iff in Hr. destruct Hr as [Hr Hface].
  apply andb_true_iff in Hr. destruct Hr as [Hr Hvb].
  apply andb_true_iff in Hr. destruct Hr as [Hr Hgeom].
  apply andb_true_iff in Hr. destruct Hr as [Hxyz Huv].
  assert (Hand3 : forall a b c : bool, a && b && c = true -> a = true /\ b = true /\ c = true).
  { intros [] [] []; simpl; auto. }
  split; [|split; [|split; [|split]]].
  - intros [Ht | Ht]; rewrite Ht in Hxyz; simpl in Hxyz; apply Hand3, Hxyz.
  - intros Ht. rewrite Ht in Huv. apply andb_true_iff, Huv.
  - intros Ht.
    assert (Hg : match vertex_count_of e with
                 | Ok (Some n) => granted n
                 | Ok None => true
                 | Raise _ => false
                 end = true).
    { destruct Ht as [Ht | Ht]; rewrite Ht in Hgeom; simpl in Hgeom; exact Hgeom. }
    destruct (vertex_count_of e) as [[n|]|err]; [exact Hg|exact I|discriminate].
  - intros Ht. rewrite Ht in Hvb. simpl in Hvb.
    destruct (tex_coords_of e); [eauto | discriminate].
  - intros Ht. rewrite Ht in Hface. simpl in Hface. apply Hand3, Hface.
Qed.

Lemma read_xyz_returns e :
  readable e = true -> tag e = "position" \/ tag e = "normal" ->
  exists p, read_xyz e = Ok p.
Proof.
  intros Hr Ht. destruct (readable_parts e Hr) as (Hxyz & _).
  destruct (Hxyz Ht) as (Hx & Hy & Hz). unfold read_xyz.
  destruct (float_attr_converts _ _ Hx) as [vx ->].
  destruct (float_attr_converts _ _ Hy) as [vy ->].
  destruct (float_attr_converts _ _ Hz) as [vz ->]. simpl. eauto.
Qed.

Lemma read_uv_returns e :
  readable e = true -> String.prefix "texcoord" (tag e) = true ->
  exists uv, read_uv e = Ok uv.
Proof.
  intros Hr Ht. destruct (readable_parts e Hr) as (_ & Huv & _).
  destruct (Huv Ht) as (Hu & Hv). unfold read_uv.
  destruct (float_attr_converts _ _ Hu) as [vu ->].
  destruct (float_attr_converts _ _ Hv) as [vv ->]. simpl. eauto.
Qed.

Lemma find_readable e t c :
  all_elements readable e = true -> find e t = Some c ->
  readable c = true /\ tag c = t.
Proof.
  unfold find. intros Ha Hc. apply find_some in Hc. destruct Hc as [Hin Htag].
  split.
  - apply all_elements_here, (all_elements_child _ _ _ Ha Hin).
  - apply String.eqb_eq, Htag.
Qed.

Lemma find_texcoord_readable vertex c :
  all_elements readable vertex = true -> find_texcoord vertex = Some c ->
  readable c = true /\ String.prefix "texcoord" (tag c) = true.
Proof.
  unfold find_texcoord. intros Ha Hc.
  destruct (find vertex "texcoord") as [t|] eqn:Ht.
  - injection Hc as <-. destruct (find_readable _ _ _ Ha Ht) as [Hr ->]. auto.
  - apply find_some in Hc. destruct Hc as [Hin Htag]. split; [|exact Htag].
    apply all_elements_here, (all_elements_child _ _ _ Ha Hin).
Qed.

Lemma merge_vertex_returns hp hn ht i vertex b :
  all_elements readable vertex = true ->
  exists b', merge_vertex hp hn ht i vertex b = Ok b'.
Proof.
  intros Ha. unfold merge_vertex.
  assert (H1 : exists b1,
             (if hp then
                match find vertex "position" with
                | Some pos => p ← read_xyz pos; Ok (store_vert i p b)
                | None => Ok b
                end
              else Ok b) = Ok b1).
  { destruct hp; [|eauto]. destruct (find vertex "position") as [pos|] eqn:Hp; [|eauto].
    destruct (find_readable _ _ _ Ha Hp) as [Hr Ht].
    destruct (read_xyz_returns pos Hr (or_introl Ht)) as [p ->]. simpl. eauto. }
  destruct H1 as [b1 ->]. simpl.
  assert (H2 : exists b2,
             (if hn then
                match find vertex "normal" with
                | Some normal => n ← read_xyz normal; Ok (store_normal i n b1)
                | None => Ok b1
                end
              else Ok b1) = Ok b2).
  { destruct hn; [|eauto]. destruct (find vertex "normal") as [nrm|] eqn:Hn; [|eauto].
    destruct (find_readable _ _ _ Ha Hn) as [Hr Ht].
    destruct (read_xyz_returns nrm Hr (or_intror Ht)) as [p ->]. simpl. eauto. }
  destruct H2 as [b2 ->]. simpl.
  destruct ht; [|eauto]. destruct (find_texcoord vertex) as [tc|] eqn:Htc; [|eauto].
  destruct (find_texcoord_readable _ _ Ha Htc) as [Hr Ht].
  destruct (read_uv_returns tc Hr Ht) as [uv ->]. simpl. eauto.
Qed.

Lemma merge_vertex_list_returns hp hn ht vc i vs b :
  Forall (fun v => all_elements readable v = true) vs ->
  exists b', merge_vertex_list hp hn ht vc i vs b = Ok b'.
Proof.
  intros Hall. revert i b. induction Hall as [|v vs Hv _ IH]; intros i b; simpl;
    [eauto|].
  destruct (vc <=? Z.of_nat i); [eauto|].
  destruct (merge_vertex_returns hp hn ht i v b Hv) as [b' ->]. simpl. apply IH.
Qed.

Lemma children_readable e t :
  all_elements readable e = true ->
  Forall (fun c => all_elements readable c = true) (findall e t).
Proof.
  intros Ha. apply List.Forall_forall. intros c Hc. unfold findall in Hc.
  apply filter_In in Hc. apply (all_elements_child _ _ _ Ha (proj1 Hc)).
Qed.

Lemma merge_vertexbuffers_returns vc vbs b :
  Forall (fun vb => all_elements readable vb = true /\ tag vb = "vertexbuffer") vbs ->
  exists b', merge_vertexbuffers vc vbs b = Ok b'.
Proof.
  intros Hall. revert b. induction Hall as [|vb vbs [Hvb Htag] _ IH]; intros b; simpl;
    [eauto|].
  unfold merge_vertexbuffer.
  destruct (readable_parts vb (all_elements_here _ _ Hvb)) as (_ & _ & _ & Ht & _).
  destruct (Ht Htag) as [t ->]. simpl.
  destruct (merge_vertex_list_returns (flag vb "positions") (flag vb "normals")
              (0 <? t) vc 0 (findall vb "vertex") b (children_readable vb "vertex" Hvb))
    as [b' ->].
  simpl. apply IH.
Qed.

Lemma parse_geometry_returns self g :
  all_elements readable g = true -> tag g = "geometry" \/ tag g = "sharedgeometry" ->
  exists r, _parse_geometry self g = Ok r.
Proof.
  intros Ha Htag. unfold _parse_geometry.
  destruct (readable_parts g (all_elements_here _ _ Ha)) as (_ & _ & Hvc & _).
  specialize (Hvc Htag).
  destruct (vertex_count_of g) as [[vc|]|err]; simpl; [|eauto|destruct Hvc].
  unfold merge_block. rewrite (allocate_buffers_granted _ Hvc). simpl.
  destruct (merge_vertexbuffers_returns vc (findall g "vertexbuffer")
              (empty_buffers (Z.to_nat vc))) as [b ->]; [|simpl; eauto].
  apply List.Forall_forall. intros vb Hvb. unfold findall in Hvb.
  apply filter_In in Hvb. destruct Hvb as [Hin Ht]. split.
  - apply (all_elements_child _ _ _ Ha Hin).
  - apply String.eqb_eq, Ht.
Qed.

Lemma read_faces_returns offset fs :
  Forall (fun f => all_elements readable f = true /\ tag f = "face") fs ->
  exists l, read_faces offset fs = Ok l.
Proof.
  induction 1 as [|f fs [Hf Htag] _ [l IH]]; simpl; [eauto|].
  destruct (readable_parts f (all_elements_here _ _ Hf)) as (_ & _ & _ & _ & Hi).
  destruct (Hi Htag) as (H1 & H2 & H3). unfold read_face, has_int in *.
  destruct (int_attr f "v1"); [|discriminate].
  destruct (int_attr f "v2"); [|discriminate].
  destruct (int_attr f "v3"); [|discriminate].
  simpl. rewrite IH. simpl. eauto.
Qed.

Lemma parse_submesh_returns self sm idx :
  all_elements readable sm = true -> exists self', _parse_submesh self sm idx = Ok self'.
Proof.
  intros Ha. unfold _parse_submesh, submesh_geometry.
  assert (Hg : exists r,
             (if negb (flag sm "usesharedvertices") then
                match find sm "geometry" with
                | Some geom =>
                    '(self', _) ← _parse_geometry self geom;
                    Ok (self', Z.of_nat (length (vertices self)))
                | None => Ok (self, Z.of_nat (length (vertices self)))
                end
              else Ok (self, 0)) = Ok r).
  { destruct (negb (flag sm "usesharedvertices")); [|eauto].
    destruct (find sm "geometry") as [geom|] eqn:Hgeom; [|eauto].
    unfold find in Hgeom. apply find_some in Hgeom. destruct Hgeom as [Hin Ht].
    destruct (parse_geometry_returns self geom) as [[s vc] ->]; [| |simpl; eauto].
    - apply (all_elements_child _ _ _ Ha Hin).
    - left. apply String.eqb_eq, Ht. }
  destruct Hg as [[s offset] ->]. simpl.
  assert (Hf : exists l,
             match find sm "faces" with
             | Some faces_elem => read_faces offset (findall faces_elem "face")
             | None => Ok []
             end = Ok l).
  { destruct (find sm "faces") as [fe|] eqn:Hfe; [|eauto].
    unfold find in Hfe. apply find_some in Hfe. destruct Hfe as [Hin _].
    apply read_faces_returns. apply List.Forall_forall. intros f Hf.
    unfold findall in Hf. apply filter_In in Hf. destruct Hf as [Hfin Ht]. split.
    - apply (all_elements_child _ _ _ (all_elements_child _ _ _ Ha Hin) Hfin).
    - apply String.eqb_eq, Ht. }
  destruct Hf as [l ->]. simpl. eauto.
Qed.

Lemma parse_submeshes_returns self idx sms :
  Forall (fun sm => all_elements readable sm = true) sms ->
  exists self', parse_submeshes self idx sms = Ok self'.
Proof.
  intros Hall. revert self idx. induction Hall as [|sm sms Hsm _ IH]; intros self idx;
    simpl; [eauto|].
  destruct (parse_submesh_returns self sm idx Hsm) as [s ->]. simpl. apply IH.
Qed.

Lemma parse_mesh_xml_returns self root :
  all_elements readable root = true -> exists self', parse_mesh_xml self root = Ok self'.
Proof.
  intros Ha. unfold parse_mesh_xml.
  assert (Hs : exists s,
             match find root "sharedgeometry" with
             | Some shared_geom => '(s, _) ← _parse_geometry self shared_geom; Ok s
             | None => Ok self
             end = Ok s).
  { destruct (find root "sharedgeometry") as [shared|] eqn:Hshared; [|eauto].
    unfold find in Hshared. apply find_some in Hshared. destruct Hshared as [Hin Ht].
    destruct (parse_geometry_returns self shared) as [[s vc] ->]; [| |simpl; eauto].
    - apply (all_elements_child _ _ _ Ha Hin).
    - right. apply String.eqb_eq, Ht. }
  destruct Hs as [s ->]. simpl.
  destruct (find root "submeshes") as [sms|] eqn:Hsms; [|eauto].
  unfold find in Hsms. apply find_some in Hsms. destruct Hsms as [Hin _].
  apply parse_submeshes_returns, children_readable.
  apply (all_elements_child _ _ _ Ha Hin).
Qed.

End Readable.

(** X21: the exporter reads a file to the end, raising nothing, when in the
    whole tree the coordinates of every [position], [normal] and texture
    coordinate element convert to floats, the [vertexcount] of every geometry
    block that has one and the [texture_coords] of every vertexbuffer convert
    to integers, the vertex count of every geometry block fits an
    index-sized integer and is not positive or is one whose lists the
    allocator grants, and every [face] has its three integer indices. *)
Theorem exporter_reads_readable_files `{PyBuiltins} self root :
  TreeSpec.all_elements TreeSpec.readable root = true ->
  exists self', MeshToObj.parse_mesh_xml self root = Ok self'.
Proof. apply parse_mesh_xml_returns. Qed.

(** On [shared_and_two_local].  A block that declares 2^63 vertices is not
    readable: it raises OverflowError; nor is, with the allocator of the
    examples, a block that declares 2^32 vertices: it raises MemoryError. *)
Lemma exporter_reads_readable_files_witness :
  (exists self',
     MeshToObj.parse_mesh_xml (H := Concrete.builtins) MeshToObj.init
       Examples.shared_and_two_local = Ok self') /\
  TreeSpec.readable (H := Concrete.builtins)
    (Concrete.node "geometry" [("vertexcount", "9223372036854775808")] []) = false /\
  MeshToObj._parse_geometry (H := Concrete.builtins) MeshToObj.init
    (Concrete.node "geometry" [("vertexcount", "9223372036854775808")] []) =
    Raise OverflowError /\
  TreeSpec.readable (H := Concrete.builtins)
    (Concrete.node "geometry" [("vertexcount", "4294967296")] []) = false /\
  MeshToObj._parse_geometry (H := Concrete.builtins) MeshToObj.init
    (Concrete.node "geometry" [("vertexcount", "4294967296")] []) =
    Raise MemoryError.
Proof.
  split; [|repeat split; vm_compute; reflexivity].
  apply (exporter_reads_readable_files (H := Concrete.builtins)).
  vm_compute. reflexivity.
Defined.

(** ** The data lines of the OBJ file, in order *)

Section DataLines.
Context `{PyBuiltins}.
Import MeshToObj ObjLines.






End DataLines.


(** ** The OBJ names of the batch mode *)

Section ObjNames.
Import BatchNames.

(** A stretch without a dot is copied when the pattern starts with a dot. *)
Lemma replace_from_no_dot old new base rest :
  ObjFormat.absent "." base = true ->
  replace_from (String "." old) new 0 (base +:+ rest) =
  base +:+ replace_from (String "." old) new 0 rest.
Proof.
  induction base as [|c base IH]; intros Ha.
  - rewrite !append_nil_l. reflexivity.
  - simpl in Ha. apply andb_true_iff in Ha. destruct Ha as [Hc Ha].
    apply negb_true_iff in Hc. rewrite !append_cons. cbn [replace_from ObjLines.starts_with].
    rewrite Ascii.eqb_sym, Hc. simpl. rewrite (IH Ha). reflexivity.
Qed.

Lemma obj_name_of_plain base :
  ObjFormat.absent "." base = true ->
  obj_name (base +:+ ".mesh.xml") = base +:+ ".obj" /\
  obj_name (base +:+ ".xml") = base +:+ ".obj".
Proof.
  intros Ha. unfold obj_name, replace. split.
  - rewrite (replace_from_no_dot _ _ _ _ Ha).
    change (replace_from ".mesh.xml" ".obj" 0 ".mesh.xml") with ".obj".
    rewrite (replace_from_no_dot _ _ _ _ Ha). reflexivity.
  - rewrite (replace_from_no_dot _ _ _ _ Ha).
    change (replace_from ".mesh.xml" ".obj" 0 ".xml") with ".xml".
    rewrite (replace_from_no_dot _ _ _ _ Ha). reflexivity.
Qed.

End ObjNames.

(** X23: in batch mode the OBJ file of [<base>.mesh.xml], and of
    [<base>.xml], is named [<base>.obj] when [<base>] has no dot. *)
Theorem batch_obj_name (base : string) :
  ObjFormat.absent "." base = true ->
  BatchNames.obj_name (base +:+ ".mesh.xml") = base +:+ ".obj" /\
  BatchNames.obj_name (base +:+ ".xml") = base +:+ ".obj".
Proof. apply obj_name_of_plain. Qed.

(** On [tank]; a name with an inner [.xml] has it replaced as well. *)
Lemma batch_obj_name_witness :
  BatchNames.obj_name "tank.mesh.xml" = "tank.obj" /\
  BatchNames.obj_name "tank.xml" = "tank.obj" /\
  BatchNames.obj_name "tank.xml.mesh.xml" = "tank.obj.obj".
Proof.
  destruct (batch_obj_name "tank" eq_refl) as [Hmesh Hxml].
  split; [exact Hmesh|]. split; [exact Hxml | reflexivity].
Defined.
